(** * Yard positional model and multi-queue planning engine (YMS)

    A shallow embedding of the pure logic of the yard-management front end:

    - the position decoders ([parsePosition] of PlanningTab.tsx, [getRowIndex]
      and [getTier] of the layout tab),
    - the whole-block grid builder with its collision resolver
      ([quadraViewData] of PlanningTab.tsx),
    - the bay orderings of the two spatial views,
    - the planning handlers [handleDrop], [handleRemoveFromPlan] and
      [handleClearPlan] over the stock pool and the three stacker queues,
    - the ETA computation [getEstimatedTime],
    - the dashboard aggregations [serviceStats] and [quadraStats].

    Modelling conventions.  A JavaScript string is a [string] of 8-bit
    characters read as UTF-16 code units below 256; the case functions are
    those of the code on ASCII text, and statements about case are made for
    ASCII text.  A JavaScript number holding an integer is a [Z]; [NaN]
    results of [parseInt] and [charCodeAt] are [None]; the arithmetic of the
    estimate, whose results need not be integers, is the arithmetic of
    doubles ([Double]).  A [Date] is its time value (for the dashboard, in
    milliseconds); a schedule item holds a valid date or none, and the
    numbers of an Invalid Date appear where the date label is computed
    ([TimeValue]).  React state is threaded
    explicitly: each handler is a function from the state before the event to
    the state after it (the state updates of one handler are applied together
    before the next render). *)

From Stdlib Require Import ZArith QArith Qround Qpower Lia Lqa Bool List Ascii String.
From Stdlib Require Import Permutation Sorted.
From stdpp Require Import base list strings gmap pretty.

Import ListNotations.
Local Open Scope string_scope.
Local Open Scope list_scope.
Local Open Scope Z_scope.

(** ** JavaScript string primitives used by the decoders *)

Module Js.

(** [s.slice(start, end)]: negative indices count from the end, indices are
    clamped to the string, an absent [end] is the length. *)
Definition slice (s : string) (start : Z) (end_ : option Z) : string :=
  let len := Z.of_nat (String.length s) in
  let rel k := if k <? 0 then Z.max (len + k) 0 else Z.min k len in
  let from := rel start in
  let to := match end_ with Some e => rel e | None => len end in
  String.substring (Z.to_nat from) (Z.to_nat (Z.max (to - from) 0)) s.

(** [s.substring(0, n)] for a non-negative [n]. *)
Definition substring0 (s : string) (n : nat) : string :=
  String.substring 0 (Nat.min n (String.length s)) s.

Definition upperChar (c : ascii) : ascii :=
  let n := nat_of_ascii c in
  if ((97 <=? n) && (n <=? 122))%nat then ascii_of_nat (n - 32) else c.

Fixpoint toUpperCase (s : string) : string :=
  match s with
  | EmptyString => EmptyString
  | String c s' => String (upperChar c) (toUpperCase s')
  end.

(** [s.charCodeAt(0)]; [None] is NaN (empty string). *)
Definition charCodeAt0 (s : string) : option Z :=
  match s with
  | EmptyString => None
  | String c _ => Some (Z.of_nat (nat_of_ascii c))
  end.

Definition isWhiteSpace (c : ascii) : bool :=
  let n := nat_of_ascii c in
  ((n =? 32) || ((9 <=? n) && (n <=? 13)))%nat.

Fixpoint trimStart (s : string) : string :=
  match s with
  | String c s' => if isWhiteSpace c then trimStart s' else s
  | EmptyString => s
  end.

(** Value of a character as a digit of some radix up to 36. *)
Definition digitValue (c : ascii) : option Z :=
  let n := nat_of_ascii c in
  if ((48 <=? n) && (n <=? 57))%nat then Some (Z.of_nat (n - 48))
  else if ((97 <=? n) && (n <=? 122))%nat then Some (Z.of_nat (n - 87))
  else if ((65 <=? n) && (n <=? 90))%nat then Some (Z.of_nat (n - 55))
  else None.

(** The longest prefix of digits of the radix, accumulated; [acc] is [None]
    until a first digit is read. *)
Fixpoint parseDigits (radix : Z) (s : string) (acc : option Z) : option Z :=
  match s with
  | EmptyString => acc
  | String c s' =>
      match digitValue c with
      | Some d =>
          if d <? radix
          then parseDigits radix s' (Some (radix * default 0 acc + d))
          else acc
      | None => acc
      end
  end.

(** [parseInt(s)] without a radix argument: leading white space, an optional
    sign, an optional [0x] prefix, then digits; [None] is NaN. *)
Definition parseInt (s : string) : option Z :=
  let s1 := trimStart s in
  let '(sign, s2) :=
    match s1 with
    | String "-" r => (-1, r)
    | String "+" r => (1, r)
    | _ => (1, s1)
    end in
  let '(radix, s3) :=
    match s2 with
    | String "0" (String "x" r) => (16, r)
    | String "0" (String "X" r) => (16, r)
    | _ => (10, s2)
    end in
  option_map (Z.mul sign) (parseDigits radix s3 None).

Definition isDigit (c : ascii) : bool :=
  let n := nat_of_ascii c in ((48 <=? n) && (n <=? 57))%nat.

(** [s.replace(/\D/g, '')]: keep the decimal digits only. *)
Fixpoint removeNonDigits (s : string) : string :=
  match s with
  | EmptyString => EmptyString
  | String c s' =>
      if isDigit c then String c (removeNonDigits s') else removeNonDigits s'
  end.

End Js.

(** ** Data model (types.ts) *)

Module StockItem.
Record t := mk {
  id : string;
  cntr : string;
  local : string;
  quadra : string;
  bay : string;
  pos : string;
  servico : string;
  quadraBase : string
}.
End StockItem.
Abbreviation StockItem := StockItem.t.

Inductive StackerId := Stacker1 | Stacker2 | Stacker3.

(** ** Position decoders *)

Record Position := mkPosition { row : Z; tier : Z }.

(** [parsePosition] of PlanningTab.tsx. *)
Definition parsePosition (loc : string) : Position :=
  if (String.length loc <? 2)%nat then {| row := 0; tier := 1 |}
  else
    let tierChar := Js.slice loc (-1) None in
    let rowChar := Js.toUpperCase (Js.slice loc (-2) (Some (-1))) in
    let tier0 := match Js.parseInt tierChar with Some t => t | None => 1 end in
    let code := Js.charCodeAt0 rowChar in
    let isLetter :=
      match code with Some c => (65 <=? c) && (c <=? 90) | None => false end in
    let row0 :=
      if isLetter then default 0 code - 65
      else
        match Js.parseInt rowChar with
        | Some num => if 0 <? num then num - 1 else 0
        | None => 0
        end in
    {| row := Z.max 0 (Z.min 5 row0); tier := Z.max 1 (Z.min 6 tier0) |}.

(** [getRowIndex] of the layout tab. *)
Definition getRowIndex (loc : string) : Z :=
  if (String.length loc <? 2)%nat then 0
  else
    let rowChar := Js.toUpperCase (Js.slice loc (-2) (Some (-1))) in
    let code := Js.charCodeAt0 rowChar in
    let isLetter :=
      match code with Some c => (65 <=? c) && (c <=? 90) | None => false end in
    if isLetter then default 0 code - 65
    else
      match Js.parseInt rowChar with
      | Some num => if 0 <? num then num - 1 else 0
      | None => 0
      end.

(** [getTier] of the layout tab. *)
Definition getTier (loc : string) : Z :=
  if (String.length loc =? 0)%nat then 1
  else
    match Js.parseInt (Js.slice loc (-1) None) with
    | Some t => t
    | None => 1
    end.

(** ** Sorting

    [Array.prototype.sort] is stable.  It is modelled by a stable insertion
    sort driven by the comparator's sign: an element [x] that comes earlier
    stays before [y] unless [cmp x y > 0].  For a comparator that is a total
    preorder every stable sort returns this same array. *)

Fixpoint insertSorted {A} (cmp : A -> A -> Z) (x : A) (l : list A) : list A :=
  match l with
  | [] => [x]
  | y :: l' => if cmp x y <=? 0 then x :: y :: l' else y :: insertSorted cmp x l'
  end.

Definition sortWith {A} (cmp : A -> A -> Z) (l : list A) : list A :=
  fold_right (insertSorted cmp) [] l.

(** The comparison of [sort()] without a comparator: strings by code units. *)
Definition defaultCompare (a b : string) : Z :=
  match String.compare a b with
  | Lt => -1
  | Eq => 0
  | Gt => 1
  end.

(** ** String-keyed objects used as accumulators

    [if (!acc[k]) acc[k] = init; acc[k] = f(acc[k])] on an object whose keys
    are kept in insertion order.  The keys are taken to be ordinary own
    properties: none is the name of a member of [Object.prototype], whose
    shortest name has seven characters; the keys cut from a location have at
    most four.  The service names of the schedule are free text: for them
    see [serviceStatsOnObject]. *)

Fixpoint update {V} (k : string) (init : V) (f : V -> V)
  (acc : list (string * V)) : list (string * V) :=
  match acc with
  | [] => [(k, f init)]
  | (k', v) :: rest =>
      if String.eqb k' k then (k', f v) :: rest
      else (k', v) :: update k init f rest
  end.

(** [if (!groups[k]) groups[k] = []; groups[k].push(x)] *)
Definition pushTo {A} (k : string) (x : A) (groups : list (string * list A))
  : list (string * list A) :=
  update k [] (fun xs => xs ++ [x]) groups.

(** ** The whole-block grid (quadraViewData of PlanningTab.tsx) *)

Abbreviation Grid := (list (list (option StockItem))).

(** [Array(6).fill(null).map(() => Array(6).fill(null))] *)
Definition emptyGrid : Grid := replicate 6 (replicate 6 None).

(** [grid[t][r]]; [None] is [null]. *)
Definition cellAt (g : Grid) (t r : nat) : option StockItem :=
  match g !! t with
  | Some cells => match cells !! r with Some c => c | None => None end
  | None => None
  end.

(** [grid[t][r] = item] *)
Definition setCell (g : Grid) (t r : nat) (item : StockItem) : Grid :=
  alter (fun cells => <[r := Some item]> cells) t g.

Definition isNull (c : option StockItem) : bool :=
  match c with None => true | Some _ => false end.

(** The inner loop [for (r = 0; r < 6; r++)] of the collision resolver, over
    the remaining values [rs] of [r]; the flag returned is [placed]. *)
Fixpoint scanRow (g : Grid) (t : nat) (rs : list nat) (item : StockItem)
  : Grid * bool :=
  match rs with
  | [] => (g, false)
  | r :: rs' =>
      if isNull (cellAt g t r) then (setCell g t r item, true)
      else scanRow g t rs' item
  end.

(** The outer loop [for (t = 5; t >= 0; t--)] over the remaining values [ts]
    of [t], leaving at once when [placed] is set. *)
Fixpoint scanTiers (g : Grid) (ts : list nat) (item : StockItem) (placed : bool)
  : Grid :=
  match ts with
  | [] => g
  | t :: ts' =>
      if placed then g
      else
        let '(g', placed') := scanRow g t [0; 1; 2; 3; 4; 5]%nat item in
        scanTiers g' ts' item placed'
  end.

Definition resolveCollision (g : Grid) (item : StockItem) : Grid :=
  scanTiers g [5; 4; 3; 2; 1; 0]%nat item false.

(** The body of [bayItems.forEach(item => ...)]. *)
Definition placeItem (g : Grid) (item : StockItem) : Grid :=
  let p := parsePosition (StockItem.local item) in
  let visualRow := row p in
  let visualTier := 6 - tier p in
  if (0 <=? visualTier) && (visualTier <? 6)
     && (0 <=? visualRow) && (visualRow <? 6)
  then
    if isNull (cellAt g (Z.to_nat visualTier) (Z.to_nat visualRow))
    then setCell g (Z.to_nat visualTier) (Z.to_nat visualRow) item
    else resolveCollision g item
  else g.

Definition buildGrid (bayItems : list StockItem) : Grid :=
  fold_left placeItem bayItems emptyGrid.

Record BayView := mkBayView {
  bayName : string;
  grid : Grid;
  total : nat
}.

Definition groupByBay (items : list StockItem)
  : list (string * list StockItem) :=
  fold_left (fun bays i => pushTo (StockItem.bay i) i bays) items [].

(** ** Planning state (App.tsx, PlanningTab.tsx) *)

(** [PlanningState = Record<StackerId, StockItem[]>] *)
Record PlanningState := mkPlanningState {
  stacker1 : list StockItem;
  stacker2 : list StockItem;
  stacker3 : list StockItem
}.

(** [prev[activeStacker]] *)
Definition queueOf (ps : PlanningState) (k : StackerId) : list StockItem :=
  match k with
  | Stacker1 => stacker1 ps
  | Stacker2 => stacker2 ps
  | Stacker3 => stacker3 ps
  end.

(** [{ ...prev, [activeStacker]: q }] *)
Definition setQueue (ps : PlanningState) (k : StackerId) (q : list StockItem)
  : PlanningState :=
  match k with
  | Stacker1 => {| stacker1 := q; stacker2 := stacker2 ps; stacker3 := stacker3 ps |}
  | Stacker2 => {| stacker1 := stacker1 ps; stacker2 := q; stacker3 := stacker3 ps |}
  | Stacker3 => {| stacker1 := stacker1 ps; stacker2 := stacker2 ps; stacker3 := q |}
  end.

(** [Object.values(planningState).flat()] *)
Definition allPlanned (ps : PlanningState) : list StockItem :=
  stacker1 ps ++ stacker2 ps ++ stacker3 ps.

(** The two pieces of state of App.tsx that the planning tab reads and
    writes: the stock pool and the queues. *)
Record AppState := mkAppState {
  stockData : list StockItem;
  planningState : PlanningState
}.

(** [{ '1': [], '2': [], '3': [] }] *)
Definition emptyPlanning : PlanningState :=
  {| stacker1 := []; stacker2 := []; stacker3 := [] |}.

Definition sameId (a : string) (i : StockItem) : bool :=
  String.eqb (StockItem.id i) a.

(** [handleDrop]: [payload] is the result of [JSON.parse] on the dragged
    data, [None] when it throws (the [catch] only logs). *)
Definition handleDrop (activeStacker : StackerId)
  (payload : option (list StockItem)) (st : AppState) : AppState :=
  match payload with
  | None => st
  | Some items =>
      {| planningState :=
           setQueue (planningState st) activeStacker
             (queueOf (planningState st) activeStacker ++ items);
         stockData :=
           List.filter
             (fun s =>
                match List.find (sameId (StockItem.id s)) items with
                | Some _ => false
                | None => true
                end)
             (stockData st) |}
  end.

(** [handleRemoveFromPlan] *)
Definition handleRemoveFromPlan (activeStacker : StackerId) (itemId : string)
  (st : AppState) : AppState :=
  match List.find (sameId itemId) (queueOf (planningState st) activeStacker) with
  | None => st
  | Some item =>
      {| stockData := stockData st ++ [item];
         planningState :=
           setQueue (planningState st) activeStacker
             (List.filter (fun i => negb (sameId itemId i))
                (queueOf (planningState st) activeStacker)) |}
  end.

(** [handleClearPlan] *)
Definition handleClearPlan (activeStacker : StackerId) (st : AppState)
  : AppState :=
  let items := queueOf (planningState st) activeStacker in
  {| stockData := stockData st ++ items;
     planningState := setQueue (planningState st) activeStacker [] |}.

(** The operator's actions on the planning tab, each on the stacker that is
    active when it happens. *)
Inductive Action :=
| Assign (machine : StackerId) (items : list StockItem)
| Unassign (machine : StackerId) (itemId : string)
| ClearQueue (machine : StackerId).

Definition step (st : AppState) (a : Action) : AppState :=
  match a with
  | Assign m items => handleDrop m (Some items) st
  | Unassign m itemId => handleRemoveFromPlan m itemId st
  | ClearQueue m => handleClearPlan m st
  end.

Definition run (acts : list Action) (st : AppState) : AppState :=
  fold_left step acts st.

(** Number of slots of a list that hold identity [a]; [places] counts them
    over the pool and the three queues together, so [places a st = 1] says
    that [a] is in the pool or in one queue, once, and nowhere else. *)
Definition occurrences (a : string) (l : list StockItem) : nat :=
  List.length (List.filter (sameId a) l).

Definition queuesOccurrences (a : string) (ps : PlanningState) : nat :=
  (occurrences a (stacker1 ps)
   + (occurrences a (stacker2 ps) + occurrences a (stacker3 ps)))%nat.

Definition places (a : string) (st : AppState) : nat :=
  (occurrences a (stockData st) + queuesOccurrences a (planningState st))%nat.

Definition ids (l : list StockItem) : list string := map StockItem.id l.

Definition inPool (a : string) (st : AppState) : bool :=
  existsb (sameId a) (stockData st).

Definition inQueue (a : string) (m : StackerId) (st : AppState) : bool :=
  existsb (sameId a) (queueOf (planningState st) m).

(** The caller's side of [Assign]: the dragged items are distinct members of
    the pool. *)
Fixpoint distinctIds (l : list string) : bool :=
  match l with
  | [] => true
  | a :: l' => negb (existsb (String.eqb a) l') && distinctIds l'
  end.

Definition assignable (items : list StockItem) (st : AppState) : bool :=
  distinctIds (ids items)
  && forallb (fun i => inPool (StockItem.id i) st) items.

(** Every [Assign] of the sequence drags distinct pool members, in the state
    it is applied to. *)
Fixpoint wellFormedRun (acts : list Action) (st : AppState) : bool :=
  match acts with
  | [] => true
  | a :: acts' =>
      match a with
      | Assign _ items => assignable items st
      | _ => true
      end && wellFormedRun acts' (step st a)
  end.

(** Every stock item is in the pool, once, and the queues are empty. *)
Definition initialState (st : AppState) : Prop :=
  planningState st = emptyPlanning /\ NoDup (ids (stockData st)).

(** [quadraViewData]; [viewQuadra] is [None] for [null]. *)
Definition quadraViewData (viewQuadra : option string) (st : AppState)
  : list BayView :=
  match viewQuadra with
  | None => []
  | Some q =>
      if (String.length q =? 0)%nat then []
      else
        let inQuadra i := String.eqb (StockItem.quadra i) q in
        let plannedItemsInQuadra :=
          List.filter inQuadra (allPlanned (planningState st)) in
        let allItems :=
          List.filter inQuadra (stockData st) ++ plannedItemsInQuadra in
        let bays := groupByBay allItems in
        map (fun b =>
               let bayItems :=
                 match List.find (fun kv => String.eqb (fst kv) b) bays with
                 | Some kv => snd kv
                 | None => []
                 end in
               {| bayName := b;
                  grid := buildGrid bayItems;
                  total := List.length bayItems |})
          (sortWith defaultCompare (map fst bays))
  end.

(** ** Bay ordering of the yard map (sortedBays of the layout tab) *)

(** [parseInt(a.replace(/\D/g, ''))] *)
Definition bayNumber (a : string) : option Z :=
  Js.parseInt (Js.removeNonDigits a).

(** The comparator of [sortedBays]; [localeCompare] is the host's collation. *)
Definition compareBays (localeCompare : string -> string -> Z) (a b : string)
  : Z :=
  match bayNumber a, bayNumber b with
  | Some numA, Some numB => numA - numB
  | _, _ => localeCompare a b
  end.

Definition sortedBays (localeCompare : string -> string -> Z)
  (bayKeys : list string) : list string :=
  sortWith (compareBays localeCompare) bayKeys.

(** ** Estimated time of a queue position (getEstimatedTime) *)

(** [StackerConfig] *)
Record StackerConfig := mkStackerConfig {
  start : string;
  mph : Z
}.

Definition twoDigits (a b : ascii) : option Z :=
  if Js.isDigit a && Js.isDigit b
  then Some (10 * default 0 (Js.digitValue a) + default 0 (Js.digitValue b))
  else None.

(** The hour and minute that [new Date(`2026-01-01T${start}:00`)] reads from
    a value [HH:MM]: hours 00 to 23 with minutes 00 to 59, and 24:00 for the
    end of the day.  [None] is Invalid Date.  The time input yields [HH:MM];
    what an engine makes of a string outside the date-time format is not
    modelled. *)
Definition parseStart (s : string) : option (Z * Z) :=
  match s with
  | String h1 (String h2 (String ":" (String m1 (String m2 EmptyString)))) =>
      match twoDigits h1 h2, twoDigits m1 m2 with
      | Some hh, Some mm =>
          if (hh <? 24) && (mm <? 60) then Some (hh, mm)
          else if (hh =? 24) && (mm =? 0) then Some (hh, mm)
          else None
      | _, _ => None
      end
  | _ => None
  end.

(** [ToIntegerOrInfinity], applied by [setMinutes] to its argument. *)
Definition truncQ (q : Q) : Z :=
  if Qle_bool 0 q then Qfloor q else Qceiling q.

(** [activeConfig.mph || 1] *)
Definition effectiveMph (cfg : StackerConfig) : Z :=
  if mph cfg =? 0 then 1 else mph cfg.

(** Numbers are IEEE 754 doubles.  A finite double is the rational it
    stands for, and an operation gives the double nearest to the exact
    result, ties to the even significand.  Magnitudes below 2^-1022 and
    above the largest double do not occur in what follows and are not
    modelled. *)
Module Double.

(** The binade of a positive rational: [2^e <= q < 2^(e+1)]. *)
Definition binade (q : Q) : Z :=
  let k := Z.log2 (Qnum q) - Z.log2 (Zpos (Qden q)) in
  if Qle_bool (2 ^ k) q then k else k - 1.

(** The nearest integer, ties to even. *)
Definition nearestEven (y : Q) : Z :=
  let f := Qfloor y in
  match (y - inject_Z f ?= 1 # 2)%Q with
  | Lt => f
  | Gt => f + 1
  | Eq => if Z.even f then f else f + 1
  end.

(** The double nearest to a positive rational: a significand of 53 bits. *)
Definition roundPos (q : Q) : Q :=
  let s := binade q - 52 in
  (inject_Z (nearestEven (q * 2 ^ (- s))) * 2 ^ s)%Q.

Definition round (q : Q) : Q :=
  match (q ?= 0)%Q with
  | Eq => 0%Q
  | Gt => roundPos q
  | Lt => (- roundPos (- q))%Q
  end.

Definition add (a b : Q) : Q := round (a + b).
Definition mul (a b : Q) : Q := round (a * b).
Definition div (a b : Q) : Q := round (a / b).


End Double.

(** [index * (60 / mph)] *)
Definition minutesToAdd (mph index : Z) : Q :=
  Double.mul (inject_Z index) (Double.div 60 (inject_Z mph)).

(** The whole minute that [setMinutes] makes of
    [startTime.getMinutes() + minutesToAdd]. *)
Definition newMinutes (mm mph index : Z) : Z :=
  truncQ (Double.add (inject_Z mm) (minutesToAdd mph index)).

(** The Date held by [startTime] after [setMinutes], as whole minutes of
    local time since 2026-01-01T00:00 (its seconds are zero).  The Date stays
    in range, and its arithmetic exact, for every index below 2^31. *)
Definition estimatedDate (cfg : StackerConfig) (index : Z) : option Z :=
  match parseStart (start cfg) with
  | None => None
  | Some (hh, mm) => Some (hh * 60 + newMinutes mm (effectiveMph cfg) index)
  end.

(** [getEstimatedTime]: the hour (0 to 23) and the minute of the local time
    of day of that Date, the two fields that [toLocaleTimeString] puts into
    the text of the host's locale. *)
Definition getEstimatedTime (cfg : StackerConfig) (index : Z)
  : option (Z * Z) :=
  option_map (fun t => ((t / 60) mod 24, t mod 60)) (estimatedDate cfg index).

(** ** Dashboard aggregations *)

Module ScheduleItem.
Record t := mk {
  id : string;
  importador : string;
  cntr : string;
  tipoDoc : string;
  quadraFull : string;
  servico : string;
  remocoes : Z;
  agendamentoFull : string;
  (** time value of the Date, [None] for [null] *)
  _rawDate : option Z
}.
End ScheduleItem.
Abbreviation ScheduleItem := ScheduleItem.t.

Module ServiceStatData.
Record t := mk {
  count : Z;
  remocoes : Z;
  dates : list Z;
  late : Z;
  onTime : Z
}.
End ServiceStatData.

Module QuadraStatData.
Record t := mk {
  count : Z;
  remocoes : Z;
  dates : list Z
}.
End QuadraStatData.

(** ['Sem datas'], [fmt(min)] or [`${fmt(min)} até ${fmt(max)}`], carrying the
    time values that [fmt] renders. *)
Inductive DateLabel :=
| SemDatas
| OneDate (d : Z)
| DateRange (dmin dmax : Z).

Module ServiceStat.
Record t := mk {
  service : string;
  count : Z;
  remocoes : Z;
  dates : list Z;
  late : Z;
  onTime : Z;
  dateLabel : DateLabel
}.
End ServiceStat.

Module QuadraStat.
Record t := mk {
  quadra : string;
  count : Z;
  remocoes : Z;
  dates : list Z;
  dateLabel : DateLabel
}.
End QuadraStat.

Module Dashboard.

(** [filteredData]; [localDate] renders a time value as the local
    [YYYY-MM-DD] date string of the host. *)
Definition filteredData (localDate : Z -> string) (selectedDate : string)
  (scheduleData : list ScheduleItem) : list ScheduleItem :=
  if (String.length selectedDate =? 0)%nat then scheduleData
  else
    List.filter
      (fun item =>
         match ScheduleItem._rawDate item with
         | None => false
         | Some d => String.eqb (localDate d) selectedDate
         end)
      scheduleData.

(** [x || 0] on a number *)
Definition orZero (x : Z) : Z := if x =? 0 then 0 else x.

(** [s || dflt] on a string *)
Definition orString (s dflt : string) : string :=
  if (String.length s =? 0)%nat then dflt else s.

Definition dateLabelOf (dates : list Z) : DateLabel :=
  match dates with
  | [] => SemDatas
  | d :: ds =>
      let dmin := fold_left Z.min ds d in
      let dmax := fold_left Z.max ds d in
      if dmin =? dmax then OneDate dmin else DateRange dmin dmax
  end.

Definition emptyServiceStat : ServiceStatData.t :=
  ServiceStatData.mk 0 0 [] 0 0.

(** One round of the reducer of [serviceStats] on the entry of the item's
    service. *)
Definition addToService (now : Z) (curr : ScheduleItem)
  (d : ServiceStatData.t) : ServiceStatData.t :=
  let count' := ServiceStatData.count d + 1 in
  let remocoes' :=
    ServiceStatData.remocoes d + orZero (ScheduleItem.remocoes curr) in
  match ScheduleItem._rawDate curr with
  | Some t =>
      if t <? now
      then ServiceStatData.mk count' remocoes' (ServiceStatData.dates d ++ [t])
             (ServiceStatData.late d + 1) (ServiceStatData.onTime d)
      else ServiceStatData.mk count' remocoes' (ServiceStatData.dates d ++ [t])
             (ServiceStatData.late d) (ServiceStatData.onTime d + 1)
  | None =>
      ServiceStatData.mk count' remocoes' (ServiceStatData.dates d)
        (ServiceStatData.late d) (ServiceStatData.onTime d + 1)
  end.

(** [curr.servico || 'OUTROS'] *)
Definition serviceKey (curr : ScheduleItem) : string :=
  orString (ScheduleItem.servico curr) "OUTROS".

(** The accumulator of [serviceStats] over service names that are own keys
    of it. *)
Definition serviceAcc (now : Z) (filtered : list ScheduleItem)
  : list (string * ServiceStatData.t) :=
  fold_left
    (fun acc curr =>
       update (serviceKey curr) emptyServiceStat (addToService now curr) acc)
    filtered [].

(** [serviceStats]; [now] is the time value of [new Date()]. *)
Definition serviceStats (now : Z) (filtered : list ScheduleItem)
  : list ServiceStat.t :=
  sortWith (fun a b => ServiceStat.remocoes b - ServiceStat.remocoes a)
    (map (fun '(service, data) =>
            ServiceStat.mk service
              (ServiceStatData.count data) (ServiceStatData.remocoes data)
              (ServiceStatData.dates data) (ServiceStatData.late data)
              (ServiceStatData.onTime data)
              (dateLabelOf (ServiceStatData.dates data)))
       (serviceAcc now filtered)).

Definition emptyQuadraStat : QuadraStatData.t := QuadraStatData.mk 0 0 [].

Definition addToQuadra (curr : ScheduleItem) (d : QuadraStatData.t)
  : QuadraStatData.t :=
  QuadraStatData.mk
    (QuadraStatData.count d + 1)
    (QuadraStatData.remocoes d + orZero (ScheduleItem.remocoes curr))
    (match ScheduleItem._rawDate curr with
     | Some t => QuadraStatData.dates d ++ [t]
     | None => QuadraStatData.dates d
     end).

(** The first two characters of [quadraFull], upper-cased; a shorter label
    as it is, ['??'] for an empty one. *)
Definition quadraKey (curr : ScheduleItem) : string :=
  let q := ScheduleItem.quadraFull curr in
  if (2 <=? String.length q)%nat
  then Js.toUpperCase (Js.substring0 q 2)
  else orString q "??".

Definition quadraAcc (filtered : list ScheduleItem)
  : list (string * QuadraStatData.t) :=
  fold_left
    (fun acc curr => update (quadraKey curr) emptyQuadraStat (addToQuadra curr) acc)
    filtered [].

(** [quadraStats] *)
Definition quadraStats (filtered : list ScheduleItem) : list QuadraStat.t :=
  sortWith (fun a b => QuadraStat.remocoes b - QuadraStat.remocoes a)
    (map (fun '(quadra, data) =>
            QuadraStat.mk quadra
              (QuadraStatData.count data) (QuadraStatData.remocoes data)
              (QuadraStatData.dates data)
              (dateLabelOf (QuadraStatData.dates data)))
       (quadraAcc filtered)).

(** [totalRemocoes]: the sum of removals over the filtered items. *)
Definition totalRemocoes (filtered : list ScheduleItem) : Z :=
  fold_left (fun sum item => sum + orZero (ScheduleItem.remocoes item))
    filtered 0.

End Dashboard.

(** ** The service accumulator as a plain object

    [Dashboard.serviceAcc] is the accumulator under service names that are
    its own keys.  The reducer starts from [{}], which inherits the members
    of [Object.prototype]; what follows is the reducer under every name. *)

(** The property names that an object literal inherits. *)
Definition objectPrototypeKeys : list string :=
  ["constructor"; "__defineGetter__"; "__defineSetter__"; "hasOwnProperty";
   "__lookupGetter__"; "__lookupSetter__"; "isPrototypeOf";
   "propertyIsEnumerable"; "toString"; "valueOf"; "__proto__";
   "toLocaleString"].

Definition isInherited (k : string) : bool :=
  existsb (String.eqb k) objectPrototypeKeys.

(** [curr._rawDate] is truthy. *)
Definition hasDate (curr : ScheduleItem) : bool :=
  match ScheduleItem._rawDate curr with
  | Some _ => true
  | None => false
  end.

(** What a computation that may throw comes to. *)
Inductive Outcome (A : Type) : Type :=
| Returned (a : A)
| Threw.
Arguments Returned {A} a.
Arguments Threw {A}.

(** One round of the reducer of [serviceStats].  Under a name that
    [Object.prototype] has too, [acc[svc]] reads the inherited member, which
    is truthy, so no entry is made; [count], [remocoes], [late] and [onTime]
    are written on that member, where [Object.entries(stats)] does not
    look; and [acc[svc].dates] is undefined, so [push] throws a TypeError
    when the item has a date. *)
Definition serviceRound (now : Z) (acc : list (string * ServiceStatData.t))
  (curr : ScheduleItem) : Outcome (list (string * ServiceStatData.t)) :=
  let svc := Dashboard.serviceKey curr in
  if isInherited svc then
    if hasDate curr then Threw else Returned acc
  else
    Returned (update svc Dashboard.emptyServiceStat
                (Dashboard.addToService now curr) acc).

(** [filteredData.reduce(..., acc)] *)
Fixpoint serviceReduce (now : Z) (filtered : list ScheduleItem)
  (acc : list (string * ServiceStatData.t))
  : Outcome (list (string * ServiceStatData.t)) :=
  match filtered with
  | [] => Returned acc
  | curr :: rest =>
      match serviceRound now acc curr with
      | Returned acc' => serviceReduce now rest acc'
      | Threw => Threw
      end
  end.

(** [serviceStats], on [{}]. *)
Definition serviceStatsOnObject (now : Z) (filtered : list ScheduleItem)
  : Outcome (list ServiceStat.t) :=
  match serviceReduce now filtered [] with
  | Returned stats =>
      Returned
        (sortWith (fun a b => ServiceStat.remocoes b - ServiceStat.remocoes a)
           (map (fun '(service, data) =>
                   ServiceStat.mk service
                     (ServiceStatData.count data) (ServiceStatData.remocoes data)
                     (ServiceStatData.dates data) (ServiceStatData.late data)
                     (ServiceStatData.onTime data)
                     (Dashboard.dateLabelOf (ServiceStatData.dates data)))
              stats))
  | Threw => Threw
  end.

(** ** Date labels over the numbers of [getTime]

    [Dashboard.dateLabelOf] is the label over the time values of valid
    dates.  The sheet reader makes an Invalid Date of a date cell that it
    cannot parse, and [getTime()] of an Invalid Date is NaN. *)

Inductive TimeValue :=
| TimeOf (t : Z)
| TimeNaN.

(** [Math.min(a, b)] *)
Definition minTime (a b : TimeValue) : TimeValue :=
  match a, b with
  | TimeOf x, TimeOf y => TimeOf (Z.min x y)
  | _, _ => TimeNaN
  end.

(** [Math.max(a, b)] *)
Definition maxTime (a b : TimeValue) : TimeValue :=
  match a, b with
  | TimeOf x, TimeOf y => TimeOf (Z.max x y)
  | _, _ => TimeNaN
  end.

(** [a === b] on numbers: NaN equals nothing. *)
Definition sameTime (a b : TimeValue) : bool :=
  match a, b with
  | TimeOf x, TimeOf y => x =? y
  | _, _ => false
  end.

(** ['Sem datas'], [fmt(min)] or [`${fmt(min)} até ${fmt(max)}`], carrying the
    numbers whose dates [fmt] renders; the date of NaN renders as
    [Invalid Date]. *)
Inductive TimeLabel :=
| NoDates
| SingleDate (d : TimeValue)
| DatesFromTo (dmin dmax : TimeValue).

(** The date label of an entry, from [data.dates]. *)
Definition dateLabelOfTimes (dates : list TimeValue) : TimeLabel :=
  match dates with
  | [] => NoDates
  | d :: ds =>
      let dmin := fold_left minTime ds d in
      let dmax := fold_left maxTime ds d in
      if sameTime dmin dmax then SingleDate dmin else DatesFromTo dmin dmax
  end.

Definition labelOfValid (l : DateLabel) : TimeLabel :=
  match l with
  | SemDatas => NoDates
  | OneDate d => SingleDate (TimeOf d)
  | DateRange dmin dmax => DatesFromTo (TimeOf dmin) (TimeOf dmax)
  end.

(** Sum of a numeric field over a result list. *)
Definition sumOf {A} (f : A -> Z) (l : list A) : Z :=
  fold_right (fun x acc => f x + acc) 0 l.

(** ** Collision policies as scan orders

    A cell is a pair (grid index, row); the tier shown for grid index [t] is
    [6 - t], so grid index 0 is tier 6 and grid index 5 is tier 1. *)

Definition cellsOfTier (t : nat) : list (nat * nat) :=
  map (pair t) [0; 1; 2; 3; 4; 5]%nat.

(** Tier 1 first, up to tier 6; each tier from the leftmost row. *)
Definition lowestTierFirst : list (nat * nat) :=
  flat_map cellsOfTier [5; 4; 3; 2; 1; 0]%nat.

(** Tier 6 first, down to tier 1; each tier from the leftmost row. *)
Definition highestTierFirst : list (nat * nat) :=
  flat_map cellsOfTier [0; 1; 2; 3; 4; 5]%nat.

Definition isFree (g : Grid) (c : nat * nat) : bool :=
  isNull (cellAt g (fst c) (snd c)).

(** First fit along a scan order: the item goes to the first empty cell of
    the order, and nowhere when there is none. *)
Definition firstFit (order : list (nat * nat)) (g : Grid) (item : StockItem)
  : Grid :=
  match List.find (isFree g) order with
  | Some c => setCell g (fst c) (snd c) item
  | None => g
  end.

Definition hasFreeCell (g : Grid) : bool := existsb (isFree g) lowestTierFirst.

(** Number of occupied cells. *)
Definition occupied (g : Grid) : nat :=
  List.length (List.filter (fun c => negb (isFree g c)) lowestTierFirst).

(** Six rows of six cells. *)
Definition wfGrid (g : Grid) : Prop :=
  List.length g = 6%nat /\ Forall (fun cells => List.length cells = 6%nat) g.

(** ** Sample data

    A stock item as [processStockFile] builds it for a container without a
    schedule entry. *)
Definition unscheduledStockItem (ident code loc : string) : StockItem :=
  {| StockItem.id := ident;
     StockItem.cntr := code;
     StockItem.local := loc;
     StockItem.quadra := Js.substring0 loc 2;
     StockItem.bay := Js.substring0 loc 4;
     StockItem.pos := Js.slice loc (-2) None;
     StockItem.servico := "Sem Agendamento";
     StockItem.quadraBase := "N/I" |}.

Definition itemA : StockItem := unscheduledStockItem "0_MSCU1111111" "MSCU1111111" "0101A6".
Definition itemB : StockItem := unscheduledStockItem "1_TGHU2222222" "TGHU2222222" "0101A6".
Definition itemC : StockItem := unscheduledStockItem "2_CAIU3333333" "CAIU3333333" "0101B1".

Definition sampleState : AppState :=
  {| stockData := [itemA; itemB; itemC]; planningState := emptyPlanning |}.

Definition sampleActions : list Action :=
  [ Assign Stacker1 [itemA; itemC];
    Unassign Stacker1 (StockItem.id itemA);
    Assign Stacker2 [itemB; itemA];
    ClearQueue Stacker1 ].

Definition defaultConfig : StackerConfig := {| start := "08:00"; mph := 15 |}.

Definition itemD : StockItem := unscheduledStockItem "3_HLXU4444444" "HLXU4444444" "A1B2A1".
Definition itemE : StockItem := unscheduledStockItem "4_OOLU5555555" "OOLU5555555" "A110A1".

(** ** Orders on bay labels *)

(** Ascending by the number that the digits of the label spell. *)
Definition byBayNumber (a b : string) : Prop :=
  match bayNumber a, bayNumber b with
  | Some na, Some nb => na <= nb
  | _, _ => False
  end.

Definition totalPreorder (cmp : string -> string -> Z) : Prop :=
  (forall x y, cmp x y <= 0 \/ cmp y x <= 0)
  /\ (forall x y z, cmp x y <= 0 -> cmp y z <= 0 -> cmp x z <= 0).

(** ** Reading the aggregates *)

(** First entry of an accumulator under a key: [acc[k]]. *)
Fixpoint assoc {V} (k : string) (acc : list (string * V)) : option V :=
  match acc with
  | [] => None
  | (k', v) :: rest => if String.eqb k' k then Some v else assoc k rest
  end.

(** An item is late when it has a scheduled timestamp strictly before the
    evaluation instant. *)
Definition isLate (now : Z) (item : ScheduleItem) : bool :=
  match ScheduleItem._rawDate item with
  | Some t => t <? now
  | None => false
  end.

Definition ofService (service : string) (item : ScheduleItem) : bool :=
  String.eqb (Dashboard.serviceKey item) service.

Definition countIf {A} (p : A -> bool) (l : list A) : Z :=
  Z.of_nat (List.length (List.filter p l)).

(** Two schedule rows without a date, the first for a service that is
    named like a member of every object. *)
Definition inheritedNameSchedule : list ScheduleItem :=
  [ ScheduleItem.mk "MSCU1111111_0" "ACME" "MSCU1111111" "DI" "0101"
      "constructor" 2 "S/D" None;
    ScheduleItem.mk "TGHU2222222_1" "ACME" "TGHU2222222" "DI" "0102"
      "IMPORT" 1 "S/D" None ].

Definition sampleSchedule : list ScheduleItem :=
  [ ScheduleItem.mk "MSCU1111111_0" "ACME" "MSCU1111111" "DI" "0101" "IMPORT" 2
      "01/01 08:00" (Some 1000);
    ScheduleItem.mk "TGHU2222222_1" "ACME" "TGHU2222222" "DI" "0102" "IMPORT" 3
      "S/D" None;
    ScheduleItem.mk "CAIU3333333_2" "DIVERSOS" "CAIU3333333" "-" "a2" "" 0
      "01/01 09:00" (Some 5000);
    ScheduleItem.mk "HLXU4444444_3" "DIVERSOS" "HLXU4444444" "-" "?" "VAZIO" 4
      "01/01 07:00" (Some 3000) ].

(** ** Further string primitives *)

Module JsText.

Definition lowerChar (c : ascii) : ascii :=
  let n := nat_of_ascii c in
  if ((65 <=? n) && (n <=? 90))%nat then ascii_of_nat (n + 32) else c.

Fixpoint toLowerCase (s : string) : string :=
  match s with
  | EmptyString => EmptyString
  | String c s' => String (lowerChar c) (toLowerCase s')
  end.

(** [s.includes(sub)] *)
Fixpoint includes (s sub : string) : bool :=
  String.prefix sub s
  || match s with
     | EmptyString => false
     | String _ s' => includes s' sub
     end.

(** White space for [trim]: the ASCII one and the no-break space. *)
Definition isTrimSpace (c : ascii) : bool :=
  Js.isWhiteSpace c || (nat_of_ascii c =? 160)%nat.

Fixpoint trimStart (s : string) : string :=
  match s with
  | String c s' => if isTrimSpace c then trimStart s' else s
  | EmptyString => s
  end.

Fixpoint trimEnd (s : string) : string :=
  match s with
  | EmptyString => EmptyString
  | String c s' =>
      match trimEnd s' with
      | EmptyString => if isTrimSpace c then EmptyString else String c EmptyString
      | t => String c t
      end
  end.

(** [s.trim()] *)
Definition trim (s : string) : string := trimEnd (trimStart s).

Definition isEmpty (s : string) : bool := (String.length s =? 0)%nat.

End JsText.

(** ** Ingestion of the stock sheet (services/dataProcessor.ts) *)

Definition isUpperAlnum (c : ascii) : bool :=
  let n := nat_of_ascii c in
  (((48 <=? n) && (n <=? 57)) || ((65 <=? n) && (n <=? 90)))%nat.

(** [s.replace(/[^A-Z0-9]/g, '')] *)
Fixpoint keepUpperAlnum (s : string) : string :=
  match s with
  | EmptyString => EmptyString
  | String c s' =>
      if isUpperAlnum c then String c (keepUpperAlnum s') else keepUpperAlnum s'
  end.

(** [normalizeCntr], on the strings that its two callers pass. *)
Definition normalizeCntr (val : string) : string :=
  if JsText.isEmpty val then ""
  else keepUpperAlnum (Js.toUpperCase val).

(** The three cells that [processStockFile] reads from a row, each after
    its coercion [String(r[k] || "")]. *)
Record StockRow := mkStockRow {
  cell2 : string;
  cell16 : string;
  cell17 : string
}.

(** [scheduleData.forEach(s => scheduleMap.set(s.cntr, s))] *)
Definition scheduleMapOf (scheduleData : list ScheduleItem)
  : gmap string ScheduleItem :=
  fold_left (fun m s => <[ScheduleItem.cntr s := s]> m) scheduleData ∅.

(** The callback of [rows.slice(1).map((r, idx) => ...)]; [None] is [null]. *)
Definition stockItemOfRow (scheduleMap : gmap string ScheduleItem)
  (idx : nat) (r : StockRow) : option StockItem :=
  let terminal := JsText.trim (cell16 r) in
  if negb (String.eqb terminal "CLIA") then None
  else
    let loc := cell17 r in
    let rawCntr := cell2 r in
    let normalizedCntr := normalizeCntr rawCntr in
    if JsText.isEmpty loc || JsText.isEmpty normalizedCntr then None
    else
      let matched := scheduleMap !! normalizedCntr in
      Some {| StockItem.id := pretty idx +:+ "_" +:+ normalizedCntr;
              StockItem.cntr := normalizedCntr;
              StockItem.local := loc;
              StockItem.quadra := Js.substring0 loc 2;
              StockItem.bay := Js.substring0 loc 4;
              StockItem.pos := Js.slice loc (-2) None;
              StockItem.servico :=
                match matched with
                | Some m => ScheduleItem.servico m
                | None => "Sem Agendamento"
                end;
              StockItem.quadraBase :=
                match matched with
                | Some m => ScheduleItem.quadraFull m
                | None => "N/I"
                end |}.

(** The stock items that [processStockFile] resolves to, from the rows
    after the header row. *)
Definition processStockRows (scheduleData : list ScheduleItem)
  (rows : list StockRow) : list StockItem :=
  omap id (imap (stockItemOfRow (scheduleMapOf scheduleData)) rows).

(** ** Completion marks (App.tsx) *)

(** [toggleItemCompletion], as the updater of [completedItems]. *)
Definition toggleItemCompletion (ident : string) (prev : gset string)
  : gset string :=
  if decide (ident ∈ prev) then prev ∖ {[ident]} else prev ∪ {[ident]}.

(** ** Execution status of the dashboard *)

Record ExecutionStats := mkExecutionStats {
  servicesDone : Z;
  servicesPending : Z;
  removalsDone : Z;
  removalsPending : Z
}.

(** [executionStats] *)
Definition executionStats (completedItems : gset string)
  (filtered : list ScheduleItem) : ExecutionStats :=
  fold_left
    (fun st item =>
       let isDone := bool_decide (ScheduleItem.id item ∈ completedItems) in
       if isDone
       then {| servicesDone := servicesDone st + 1;
               servicesPending := servicesPending st;
               removalsDone :=
                 removalsDone st + Dashboard.orZero (ScheduleItem.remocoes item);
               removalsPending := removalsPending st |}
       else {| servicesDone := servicesDone st;
               servicesPending := servicesPending st + 1;
               removalsDone := removalsDone st;
               removalsPending :=
                 removalsPending st + Dashboard.orZero (ScheduleItem.remocoes item) |})
    filtered
    {| servicesDone := 0; servicesPending := 0;
       removalsDone := 0; removalsPending := 0 |}.

(** ** Reading strings and lists *)

Fixpoint allChars (p : ascii -> bool) (s : string) : bool :=
  match s with
  | EmptyString => true
  | String c s' => p c && allChars p s'
  end.

(** The text is ASCII: every code unit is below 128.  On such text the case
    functions above are [toUpperCase] and [toLowerCase] of the code; the
    case mapping of other letters is not modelled. *)
Definition isAscii (s : string) : bool :=
  allChars (fun c => (nat_of_ascii c <? 128)%nat) s.

(** The last element of a list that satisfies a test. *)
Definition lastWhere {A} (p : A -> bool) (l : list A) : option A :=
  last (List.filter p l).

Definition ofQuadra (quadra : string) (item : ScheduleItem) : bool :=
  String.eqb (Dashboard.quadraKey item) quadra.

(** The timestamps of the dated items of a list, in order. *)
Definition rawDates (l : list ScheduleItem) : list Z :=
  omap ScheduleItem._rawDate l.

(** ** Derived views of the planning tab (PlanningTab.tsx) *)

(** [allPlannedIds]: the identities found in the queues. *)
Definition allPlannedIds (ps : PlanningState) : gset string :=
  list_to_set (ids (allPlanned ps)).

(** [stockSearchTerm.toUpperCase().trim()] *)
Definition stockSearchKey (stockSearchTerm : string) : string :=
  JsText.trim (Js.toUpperCase stockSearchTerm).

(** The test of the stock filter:
    [item.cntr.includes(term) ||
     (item.servico && item.servico.toUpperCase().includes(term))]. *)
Definition matchesStockSearch (term : string) (item : StockItem) : bool :=
  JsText.includes (StockItem.cntr item) term
  || (negb (JsText.isEmpty (StockItem.servico item))
      && JsText.includes (Js.toUpperCase (StockItem.servico item)) term).

(** [filteredItems] of [stockTree] *)
Definition stockFilteredItems (stockSearchTerm : string)
  (stock : list StockItem) : list StockItem :=
  let term := stockSearchKey stockSearchTerm in
  if JsText.isEmpty term then stock
  else List.filter (matchesStockSearch term) stock.

(** [stockTree]: quadra, then bay, then the units. *)
Definition stockTree (stockSearchTerm : string) (stock : list StockItem)
  : list (string * list (string * list StockItem)) :=
  fold_left
    (fun groups item =>
       update (StockItem.quadra item) []
         (fun bays => pushTo (StockItem.bay item) item bays) groups)
    (stockFilteredItems stockSearchTerm stock) [].

(** [Object.values(stockTree).flatMap(b => Object.values(b).flat())], whose
    length is the number of units shown. *)
Definition stockTreeUnits (tree : list (string * list (string * list StockItem)))
  : list StockItem :=
  flat_map (fun qb => flat_map snd (snd qb)) tree.

(** [stockTree[q][b]], the empty list when a key is missing. *)
Definition unitsOf (tree : list (string * list (string * list StockItem)))
  (q b : string) : list StockItem :=
  match assoc q tree with
  | Some bays => default [] (assoc b bays)
  | None => []
  end.

(** [baySummary]: [acc[b] = (acc[b] ?? 0) + 1] over the plan. *)
Definition baySummary (currentPlan : list StockItem) : list (string * Z) :=
  fold_left
    (fun acc curr => update (StockItem.bay curr) 0 (fun n => n + 1) acc)
    currentPlan [].

(** [arr.findIndex(p)], counting from [i]. *)
Fixpoint findIndexFrom {A} (p : A -> bool) (l : list A) (i : Z) : Z :=
  match l with
  | [] => -1
  | x :: l' => if p x then i else findIndexFrom p l' (i + 1)
  end.

(** [searchResultIndex] *)
Definition searchResultIndex (searchTerm : string)
  (currentPlan : list StockItem) : Z :=
  if JsText.isEmpty searchTerm then -1
  else
    findIndexFrom
      (fun i => JsText.includes (StockItem.cntr i) (Js.toUpperCase searchTerm))
      currentPlan 0.

(** The cell that an item decodes to: [(6 - tier, row)]. *)
Definition targetCell (item : StockItem) : nat * nat :=
  (Z.to_nat (6 - tier (parsePosition (StockItem.local item))),
   Z.to_nat (row (parsePosition (StockItem.local item)))).

(** The items of a quadra that the whole-block view works on: those of the
    pool, then those of the queues. *)
Definition quadraItems (q : string) (st : AppState) : list StockItem :=
  List.filter (fun i => String.eqb (StockItem.quadra i) q) (stockData st)
  ++ List.filter (fun i => String.eqb (StockItem.quadra i) q)
       (allPlanned (planningState st)).

(** ** The yard map (layout tab) *)

(** [yardStructure]: quadra, then bay, then row index, then the items.  The
    row index is a property key, so it is the decimal text of the number. *)
Definition yardStructure (stock : list StockItem)
  : list (string * list (string * list (string * list StockItem))) :=
  fold_left
    (fun structure item =>
       let q := StockItem.quadra item in
       let b := StockItem.bay item in
       if JsText.isEmpty q || JsText.isEmpty b then structure
       else
         let rIdx := getRowIndex (StockItem.local item) in
         update q []
           (fun bays =>
              update b [] (fun rows => pushTo (pretty rIdx) item rows) bays)
           structure)
    stock [].

(** [Object.keys(yardStructure).sort()] *)
Definition sortedQuadras (stock : list StockItem) : list string :=
  sortWith defaultCompare (map fst (yardStructure stock)).

Definition ROW_INDICES : list Z := [5; 4; 3; 2; 1; 0].

(** [yardStructure[quadraName]], an empty object for a missing quadra. *)
Definition baysDataOf (stock : list StockItem) (quadraName : string)
  : list (string * list (string * list StockItem)) :=
  default [] (assoc quadraName (yardStructure stock)).

(** [baysData[bay][rIdx] || []], for a bay of [baysData]. *)
Definition itemsInSlot (baysData : list (string * list (string * list StockItem)))
  (b : string) (rIdx : Z) : list StockItem :=
  match assoc b baysData with
  | Some rows => default [] (assoc (pretty rIdx) rows)
  | None => []
  end.

(** [Object.values(baysData).flatMap(rows => Object.values(rows).flat()).length] *)
Definition totalItemsInQuadra
  (baysData : list (string * list (string * list StockItem))) : nat :=
  List.length (flat_map (fun brs => flat_map snd (snd brs)) baysData).

(** [topItem] of a slot that holds at least one item:
    [itemsInSlot.reduce((prev, curr) =>
       getTier(curr.local) > getTier(prev.local) ? curr : prev, itemsInSlot[0])] *)
Definition topItem (slot : list StockItem) : option StockItem :=
  match slot with
  | [] => None
  | first :: _ =>
      Some (fold_left
              (fun prev curr =>
                 if getTier (StockItem.local prev) <? getTier (StockItem.local curr)
                 then curr else prev)
              slot first)
  end.

(** The comparator of the tooltip of a cell,
    [getTier(b.local) - getTier(a.local)]. *)
Definition byTierDescending (a b : StockItem) : Z :=
  getTier (StockItem.local b) - getTier (StockItem.local a).

(** The row keys of the cells that the map shows. *)
Definition shownRowKeys : list string := map (fun r : Z => pretty r) ROW_INDICES.

(** The rows of a bay after a render: the tooltip of each cell calls
    [itemsInSlot.sort(...)] on the array of the memoised structure, which
    sorts that array in place. *)
Definition renderRows (rows : list (string * list StockItem))
  : list (string * list StockItem) :=
  map (fun kv =>
         (fst kv,
          if existsb (String.eqb (fst kv)) shownRowKeys
          then sortWith byTierDescending (snd kv)
          else snd kv))
    rows.

(** The structure of a quadra after a render of the yard map. *)
Definition renderBays (baysData : list (string * list (string * list StockItem)))
  : list (string * list (string * list StockItem)) :=
  map (fun kv => (fst kv, renderRows (snd kv))) baysData.

(** The structure of a quadra that render number [n] reads, counting from 0,
    while the stock stays the same and [yardStructure] is not computed
    again. *)
Definition baysDataAtRender (stock : list StockItem) (quadraName : string)
  (n : nat) : list (string * list (string * list StockItem)) :=
  Nat.iter n renderBays (baysDataOf stock quadraName).

(** ** The services table (services tab) *)

Module Filters.
Record t := mk {
  importador : string;
  servico : string;
  doc : string;
  quadra : string;
  search : string;
  date : string
}.
End Filters.

(** The columns whose header calls [handleSort]. *)
Inductive SortKey :=
| ByImportador | ByCntr | ByQuadraFull | ByServico | ByRemocoes
| ByAgendamentoFull.

Inductive SortDirection := Asc | Desc.

Module SortConfig.
Record t := mk { key : SortKey; direction : SortDirection }.
End SortConfig.

Definition sortKey_eqb (a b : SortKey) : bool :=
  match a, b with
  | ByImportador, ByImportador | ByCntr, ByCntr | ByQuadraFull, ByQuadraFull
  | ByServico, ByServico | ByRemocoes, ByRemocoes
  | ByAgendamentoFull, ByAgendamentoFull => true
  | _, _ => false
  end.

(** [handleSort], as the updater of [sortConfig]. *)
Definition handleSort (key : SortKey) (prev : SortConfig.t) : SortConfig.t :=
  {| SortConfig.key := key;
     SortConfig.direction :=
       match SortConfig.direction prev with
       | Asc => if sortKey_eqb (SortConfig.key prev) key then Desc else Asc
       | Desc => Asc
       end |}.

(** The filters after [clearFilters]. *)
Definition clearedFilters : Filters.t :=
  Filters.mk "all" "all" "all" "" "" "".

(** [a._rawDate?.getTime() || 0] *)
Definition timeOrZero (item : ScheduleItem) : Z :=
  match ScheduleItem._rawDate item with
  | Some t => Dashboard.orZero t
  | None => 0
  end.

(** [valA < valB] for the values of a sort column. *)
Definition lessBy (key : SortKey) (a b : ScheduleItem) : bool :=
  match key with
  | ByImportador => String.ltb (ScheduleItem.importador a) (ScheduleItem.importador b)
  | ByCntr => String.ltb (ScheduleItem.cntr a) (ScheduleItem.cntr b)
  | ByQuadraFull => String.ltb (ScheduleItem.quadraFull a) (ScheduleItem.quadraFull b)
  | ByServico => String.ltb (ScheduleItem.servico a) (ScheduleItem.servico b)
  | ByRemocoes => ScheduleItem.remocoes a <? ScheduleItem.remocoes b
  | ByAgendamentoFull => timeOrZero a <? timeOrZero b
  end.

(** The comparator of the services table. *)
Definition servicesCompare (cfg : SortConfig.t) (a b : ScheduleItem) : Z :=
  if lessBy (SortConfig.key cfg) a b
  then match SortConfig.direction cfg with Asc => -1 | Desc => 1 end
  else if lessBy (SortConfig.key cfg) b a
  then match SortConfig.direction cfg with Asc => 1 | Desc => -1 end
  else 0.

(** The row test of the services table. *)
Definition passesFilters (localDate : Z -> string) (filters : Filters.t)
  (i : ScheduleItem) : bool :=
  let dateMatch :=
    if JsText.isEmpty (Filters.date filters) then true
    else
      match ScheduleItem._rawDate i with
      | None => false
      | Some d => String.eqb (localDate d) (Filters.date filters)
      end in
  dateMatch
  && (String.eqb (Filters.importador filters) "all"
      || String.eqb (ScheduleItem.importador i) (Filters.importador filters))
  && (String.eqb (Filters.servico filters) "all"
      || String.eqb (ScheduleItem.servico i) (Filters.servico filters))
  && (String.eqb (Filters.doc filters) "all"
      || String.eqb (ScheduleItem.tipoDoc i) (Filters.doc filters))
  && JsText.includes (JsText.toLowerCase (ScheduleItem.cntr i))
       (JsText.toLowerCase (Filters.search filters))
  && JsText.includes (JsText.toLowerCase (ScheduleItem.quadraFull i))
       (JsText.toLowerCase (Filters.quadra filters)).

(** [filteredData] of the services tab. *)
Definition servicesFilteredData (localDate : Z -> string) (filters : Filters.t)
  (sortConfig : SortConfig.t) (data : list ScheduleItem) : list ScheduleItem :=
  sortWith (servicesCompare sortConfig)
    (List.filter (passesFilters localDate filters) data).

(** The order that a sort configuration asks for between two rows, [a]
    before [b]. *)
Definition inSortOrder (cfg : SortConfig.t) (a b : ScheduleItem) : Prop :=
  match SortConfig.direction cfg with
  | Asc => lessBy (SortConfig.key cfg) b a = false
  | Desc => lessBy (SortConfig.key cfg) a b = false
  end.

(** ** The layout file (services/dataProcessor.ts) *)

(** The first field of a string and the fields after it, for a separator of
    one character. *)
Fixpoint splitFields (sep : ascii) (s : string) : string * list string :=
  match s with
  | EmptyString => (EmptyString, [])
  | String c s' =>
      let (w, ws) := splitFields sep s' in
      if Ascii.eqb c sep then (EmptyString, w :: ws) else (String c w, ws)
  end.

(** [s.split(sep)] for a separator of one character. *)
Definition split (sep : ascii) (s : string) : list string :=
  let (w, ws) := splitFields sep s in w :: ws.

(** [arr.join(sep)] *)
Fixpoint join (sep : string) (l : list string) : string :=
  match l with
  | [] => EmptyString
  | x :: l' =>
      match l' with
      | [] => x
      | _ :: _ => x +:+ sep +:+ join sep l'
      end
  end.

Definition lineFeed : ascii := ascii_of_nat 10.
Definition comma : ascii := ascii_of_nat 44.

(** [parseLayoutCSV] *)
Definition parseLayoutCSV (csv : string) : list (list string) :=
  map (fun r => split comma r) (split lineFeed csv).

(** The number of occurrences of a character. *)
Fixpoint countChar (c : ascii) (s : string) : nat :=
  match s with
  | EmptyString => 0%nat
  | String a s' => ((if Ascii.eqb a c then 1 else 0) + countChar c s')%nat
  end.

(** ** The legend of the whole-block view (PlanningTab.tsx) *)

(** [set.add(x)], on the elements of a [Set] in insertion order. *)
Definition setAdd (s : list string) (x : string) : list string :=
  if existsb (String.eqb x) s then s else s ++ [x].

(** The services that the legend visits: bay by bay, row by row, cell by
    cell, those of the occupied cells whose item has a service. *)
Definition shownServices (views : list BayView) : list string :=
  flat_map
    (fun bay =>
       flat_map
         (fun row =>
            flat_map
              (fun cell =>
                 match cell with
                 | Some item =>
                     if JsText.isEmpty (StockItem.servico item) then []
                     else [StockItem.servico item]
                 | None => []
                 end) row)
         (grid bay))
    views.

(** [quadraServices] *)
Definition quadraServices (viewQuadra : option string) (st : AppState)
  : list string :=
  match viewQuadra with
  | None => []
  | Some q =>
      if (String.length q =? 0)%nat then []
      else
        sortWith defaultCompare
          (fold_left setAdd (shownServices (quadraViewData viewQuadra st)) [])
  end.

(** ** Proof automation *)

(** Discharges the comparisons of a range check whose bounds follow from the
    hypotheses by linear arithmetic. *)
Ltac pass_range_checks :=
  repeat match goal with
  | |- context [?a <=? ?b] =>
      replace (a <=? b) with true by (symmetry; apply Z.leb_le; lia)
  | |- context [?a <? ?b] =>
      replace (a <? b) with true by (symmetry; apply Z.ltb_lt; lia)
  end.

(** * Properties *)

(** ** Position decoding *)

Example parseInt_samples :
  Js.parseInt "42" = Some 42
  /\ Js.parseInt " 7x" = Some 7
  /\ Js.parseInt "-3" = Some (-3)
  /\ Js.parseInt "0x1F" = Some 31
  /\ Js.parseInt "" = None
  /\ Js.parseInt "B" = None
  /\ Js.parseInt "-" = None.
Proof. repeat split; reflexivity. Qed.

Example slice_samples :
  Js.slice "A4B5" (-1) None = "5"
  /\ Js.slice "A4B5" (-2) (Some (-1)) = "B"
  /\ Js.slice "X" (-2) (Some (-1)) = ""
  /\ Js.slice "0101A6" (-2) None = "A6"
  /\ Js.substring0 "0101A6" 4 = "0101"
  /\ Js.substring0 "A1" 4 = "A1".
Proof. repeat split; reflexivity. Qed.

Example parsePosition_A4B5 : parsePosition "A4B5" = {| row := 1; tier := 5 |}.
Proof. reflexivity. Qed.

Example parsePosition_12 : parsePosition "12" = {| row := 0; tier := 2 |}.
Proof. reflexivity. Qed.

Example parsePosition_X : parsePosition "X" = {| row := 0; tier := 1 |}.
Proof. reflexivity. Qed.

Lemma substring_one (s : string) (n : nat) (c : ascii) :
  String.get n s = Some c -> String.substring n 1 s = String c EmptyString.
Proof.
  revert n; induction s as [|a s IH]; intros n H; [discriminate|].
  destruct n as [|n]; simpl in *.
  - injection H as ->. now destruct s.
  - now apply IH.
Qed.

(** The row character that the decoders read, for a string of at least two
    characters. *)
Lemma rowChar_slice (loc : string) (c : ascii) :
  (2 <= String.length loc)%nat ->
  String.get (String.length loc - 2) loc = Some c ->
  Js.slice loc (-2) (Some (-1)) = String c EmptyString.
Proof.
  intros Hlen Hget. unfold Js.slice.
  change (-2 <? 0) with true. change (-1 <? 0) with true. cbv iota.
  replace (Z.to_nat (Z.max (Z.of_nat (String.length loc) + -2) 0))
    with (String.length loc - 2)%nat by lia.
  replace (Z.to_nat _) with 1%nat by lia.
  now apply substring_one.
Qed.

Lemma parsePosition_range (loc : string) :
  0 <= row (parsePosition loc) <= 5 /\ 1 <= tier (parsePosition loc) <= 6.
Proof.
  unfold parsePosition.
  destruct (String.length loc <? 2)%nat; simpl; lia.
Qed.

(** C4.  [parsePosition] clamps every location string to rows 0..5 and tiers
    1..6, but the two decoders of the yard map do not: [getRowIndex] returns
    25 for the row letter Z and 8 for the row digit 9, and [getTier] returns
    9 and 0 for the tier digits 9 and 0, on location strings of length at
    least two. *)
Theorem decoders_clamp_only_in_parsePosition :
  (forall loc : string,
      0 <= row (parsePosition loc) <= 5 /\ 1 <= tier (parsePosition loc) <= 6)
  /\ getRowIndex "01Z1" = 25
  /\ getRowIndex "0191" = 8
  /\ getTier "01A9" = 9
  /\ getTier "01A0" = 0.
Proof.
  split; [apply parsePosition_range|].
  repeat split; reflexivity.
Qed.

(** C10.  A location string of length at least two whose second-to-last
    character is the digit 0 decodes to row index 0, by [parsePosition] and
    by [getRowIndex] alike; so do the digit 1 and the letter A in that
    place, hence the row is not injective on these characters. *)
Theorem row_zero_for_digit_zero (loc : string) (c : ascii) :
  (2 <= String.length loc)%nat ->
  String.get (String.length loc - 2) loc = Some c ->
  (c = "0" \/ c = "1" \/ c = "A")%char ->
  row (parsePosition loc) = 0 /\ getRowIndex loc = 0.
Proof.
  intros Hlen Hget Hc.
  unfold parsePosition, getRowIndex.
  destruct (String.length loc <? 2)%nat eqn:E; [apply Nat.ltb_lt in E; lia|].
  rewrite (rowChar_slice loc c Hlen Hget).
  destruct Hc as [-> | [-> | ->]]; split; reflexivity.
Qed.

Lemma row_zero_for_digit_zero_witness :
  row (parsePosition "A401") = 0 /\ getRowIndex "A401" = 0.
Proof.
  apply (row_zero_for_digit_zero "A401" "0");
    [simpl; lia | reflexivity | now left].
Defined.

Example row_of_0_1_A :
  row (parsePosition "A401") = row (parsePosition "A411")
  /\ row (parsePosition "A411") = row (parsePosition "A4A1")
  /\ row (parsePosition "A421") = 1.
Proof. repeat split; reflexivity. Qed.

(** ** The whole-block grid *)

Lemma find_map_pair (P : nat * nat -> bool) (t : nat) (rs : list nat) :
  List.find P (map (pair t) rs)
  = option_map (pair t) (List.find (fun r => P (t, r)) rs).
Proof.
  induction rs as [|r rs IH]; simpl; [reflexivity|].
  destruct (P (t, r)); [reflexivity | exact IH].
Qed.

Lemma find_append {A} (P : A -> bool) (l1 l2 : list A) :
  List.find P (l1 ++ l2)
  = match List.find P l1 with Some x => Some x | None => List.find P l2 end.
Proof.
  induction l1 as [|x l1 IH]; simpl; [reflexivity|].
  destruct (P x); [reflexivity | exact IH].
Qed.

Lemma scanRow_find (g : Grid) (t : nat) (rs : list nat) (item : StockItem) :
  scanRow g t rs item
  = match List.find (fun r => isFree g (t, r)) rs with
    | Some r => (setCell g t r item, true)
    | None => (g, false)
    end.
Proof.
  induction rs as [|r rs IH]; simpl; [reflexivity|].
  unfold isFree at 1; simpl.
  destruct (isNull (cellAt g t r)); [reflexivity | exact IH].
Qed.

Lemma scanTiers_placed (g : Grid) (ts : list nat) (item : StockItem) :
  scanTiers g ts item true = g.
Proof. destruct ts; reflexivity. Qed.

Lemma scanTiers_firstFit (g : Grid) (ts : list nat) (item : StockItem) :
  scanTiers g ts item false = firstFit (flat_map cellsOfTier ts) g item.
Proof.
  induction ts as [|t ts IH]; [reflexivity|].
  cbn [scanTiers flat_map]. rewrite scanRow_find.
  unfold firstFit. rewrite find_append. unfold cellsOfTier at 1.
  rewrite find_map_pair.
  destruct (List.find (fun r => isFree g (t, r)) [0; 1; 2; 3; 4; 5]%nat) as [r|];
    simpl.
  - apply scanTiers_placed.
  - exact IH.
Qed.

Lemma resolveCollision_firstFit (g : Grid) (item : StockItem) :
  resolveCollision g item = firstFit lowestTierFirst g item.
Proof. apply scanTiers_firstFit. Qed.

(** C3, as the code has it.  When the target cell [grid[6 - tier][row]] of
    an item is occupied, the item goes to the first empty cell found by
    scanning from grid index 5, that is from tier 1, the lowest, up to tier
    6, and within each tier from the leftmost row to the right; when no cell
    is empty the grid is left as it is. *)
Theorem collision_first_fit_from_lowest_tier
  (g : Grid) (item other : StockItem) :
  cellAt g (Z.to_nat (6 - tier (parsePosition (StockItem.local item))))
    (Z.to_nat (row (parsePosition (StockItem.local item)))) = Some other ->
  placeItem g item = firstFit lowestTierFirst g item.
Proof.
  intros Hocc. unfold placeItem.
  pose proof (parsePosition_range (StockItem.local item)) as [Hr Ht].
  rewrite Hocc. simpl isNull.
  rewrite resolveCollision_firstFit.
  pass_range_checks. reflexivity.
Qed.

Lemma collision_first_fit_from_lowest_tier_witness :
  cellAt (buildGrid [itemA]) 0 0 = Some itemA
  /\ placeItem (buildGrid [itemA]) itemB
     = firstFit lowestTierFirst (buildGrid [itemA]) itemB.
Proof.
  split; [reflexivity|].
  apply (collision_first_fit_from_lowest_tier (buildGrid [itemA]) itemB itemA).
  reflexivity.
Defined.

(** C3, as stated, fails.  Item A sits at row A, tier 6 (grid index 0, row
    0).  Item B decodes to the same cell.  Scanning from the highest tier
    downward would put B in tier 6, row B (grid index 0, row 1), the first
    empty cell of that order; the code puts B in tier 1, row A (grid index
    5, row 0) and leaves tier 6, row B empty. *)
Lemma collision_not_from_highest_tier :
  parsePosition (StockItem.local itemB) = {| row := 0; tier := 6 |}
  /\ cellAt (buildGrid [itemA]) 0 0 = Some itemA
  /\ firstFit highestTierFirst (buildGrid [itemA]) itemB
     = setCell (buildGrid [itemA]) 0 1 itemB
  /\ placeItem (buildGrid [itemA]) itemB = setCell (buildGrid [itemA]) 5 0 itemB
  /\ cellAt (placeItem (buildGrid [itemA]) itemB) 0 1 = None
  /\ placeItem (buildGrid [itemA]) itemB
     <> firstFit highestTierFirst (buildGrid [itemA]) itemB.
Proof.
  repeat split; try reflexivity.
  vm_compute. discriminate.
Qed.

Lemma wfGrid_empty : wfGrid emptyGrid.
Proof. split; [reflexivity | repeat constructor]. Qed.

Lemma wfGrid_lookup (g : Grid) (t : nat) :
  wfGrid g -> (t < 6)%nat ->
  exists cells, g !! t = Some cells /\ List.length cells = 6%nat.
Proof.
  intros [Hlen Hrows] Ht.
  destruct (lookup_lt_is_Some_2 g t) as [cells Hc]; [rewrite Hlen; exact Ht|].
  exists cells; split; [exact Hc|].
  rewrite Forall_lookup in Hrows. exact (Hrows _ _ Hc).
Qed.

Lemma wfGrid_setCell (g : Grid) (t r : nat) (item : StockItem) :
  wfGrid g -> wfGrid (setCell g t r item).
Proof.
  intros [Hlen Hrows]; split.
  - unfold setCell. rewrite length_alter. exact Hlen.
  - unfold setCell. rewrite Forall_lookup in Hrows |- *.
    intros k cells Hk.
    destruct (decide (t = k)) as [->|Hne].
    + rewrite list_lookup_alter_eq in Hk.
      destruct (g !! k) as [old|] eqn:E; [|discriminate].
      injection Hk as <-. rewrite length_insert. exact (Hrows _ _ E).
    + rewrite list_lookup_alter_ne in Hk by exact Hne. exact (Hrows _ _ Hk).
Qed.

Lemma cellAt_setCell_eq (g : Grid) (t r : nat) (item : StockItem) :
  wfGrid g -> (t < 6)%nat -> (r < 6)%nat ->
  cellAt (setCell g t r item) t r = Some item.
Proof.
  intros Hwf Ht Hr.
  destruct (wfGrid_lookup g t Hwf Ht) as (cells & Hc & Hlen).
  unfold cellAt, setCell. rewrite list_lookup_alter_eq, Hc. simpl.
  rewrite list_lookup_insert_eq by (rewrite Hlen; exact Hr). reflexivity.
Qed.

Lemma cellAt_setCell_ne (g : Grid) (t r t' r' : nat) (item : StockItem) :
  (t, r) <> (t', r') ->
  cellAt (setCell g t r item) t' r' = cellAt g t' r'.
Proof.
  intros Hne. unfold cellAt, setCell.
  destruct (decide (t = t')) as [->|Ht].
  - rewrite list_lookup_alter_eq.
    destruct (g !! t') as [cells|]; simpl; [|reflexivity].
    rewrite list_lookup_insert_ne by congruence. reflexivity.
  - rewrite list_lookup_alter_ne by exact Ht. reflexivity.
Qed.

Lemma in_lowestTierFirst (t r : nat) :
  (t < 6)%nat -> (r < 6)%nat -> In (t, r) lowestTierFirst.
Proof.
  intros Ht Hr.
  do 6 (destruct t as [|t]; [do 6 (destruct r as [|r]; [simpl; tauto|]); lia|]).
  lia.
Qed.

Lemma find_none_existsb {A} (P : A -> bool) (l : list A) :
  List.find P l = None -> existsb P l = false.
Proof.
  induction l as [|x l IH]; simpl; [reflexivity|].
  destruct (P x); [discriminate | exact IH].
Qed.

(** What one round of the loop does to a well-formed grid: nothing when the
    grid is full, otherwise it writes the item into a cell that was empty. *)
Lemma placeItem_cases (g : Grid) (item : StockItem) :
  (hasFreeCell g = false /\ placeItem g item = g)
  \/ (exists c, In c lowestTierFirst /\ isFree g c = true
                /\ placeItem g item = setCell g (fst c) (snd c) item).
Proof.
  unfold placeItem.
  pose proof (parsePosition_range (StockItem.local item)) as [Hr Ht].
  set (p := parsePosition (StockItem.local item)) in *.
  pass_range_checks. cbn [andb].
  destruct (isNull (cellAt g (Z.to_nat (6 - tier p)) (Z.to_nat (row p)))) eqn:E.
  - right. exists (Z.to_nat (6 - tier p), Z.to_nat (row p)).
    split; [apply in_lowestTierFirst; lia|]. split; [exact E | reflexivity].
  - rewrite resolveCollision_firstFit. unfold firstFit.
    destruct (List.find (isFree g) lowestTierFirst) as [c|] eqn:F.
    + right. exists c. apply find_some in F as [Hin Hfree]. auto.
    + left. split; [|reflexivity]. now apply find_none_existsb.
Qed.

Lemma in_lowestTierFirst_bounds (c : nat * nat) :
  In c lowestTierFirst -> (fst c < 6)%nat /\ (snd c < 6)%nat.
Proof.
  intros H. simpl in H.
  repeat (destruct H as [<- | H]; [simpl; lia|]). destruct H.
Qed.

Lemma wfGrid_placeItem (g : Grid) (item : StockItem) :
  wfGrid g -> wfGrid (placeItem g item).
Proof.
  intros Hwf.
  destruct (placeItem_cases g item) as [[_ ->] | (c & _ & _ & ->)];
    [exact Hwf | now apply wfGrid_setCell].
Qed.

(** An occupied cell keeps its item. *)
Lemma placeItem_keeps (g : Grid) (item x : StockItem) (t r : nat) :
  cellAt g t r = Some x -> cellAt (placeItem g item) t r = Some x.
Proof.
  intros Hx.
  destruct (placeItem_cases g item) as [[_ ->] | (c & _ & Hfree & ->)];
    [exact Hx|].
  rewrite cellAt_setCell_ne; [exact Hx|].
  intros Heq. injection Heq as <- <-.
  unfold isFree in Hfree. rewrite Hx in Hfree. discriminate.
Qed.

Lemma hasFreeCell_before (g : Grid) (item : StockItem) :
  hasFreeCell (placeItem g item) = true -> hasFreeCell g = true.
Proof.
  destruct (placeItem_cases g item) as [[_ ->] | (c & Hin & Hfree & _)];
    [auto|].
  intros _. apply existsb_exists. now exists c.
Qed.

Lemma placeItem_places (g : Grid) (item : StockItem) :
  wfGrid g -> hasFreeCell g = true ->
  exists c, In c lowestTierFirst /\ isFree g c = true
            /\ cellAt (placeItem g item) (fst c) (snd c) = Some item.
Proof.
  intros Hwf Hfree.
  destruct (placeItem_cases g item) as [[Hfull _] | (c & Hin & Hc & ->)];
    [congruence|].
  exists c. repeat split; [exact Hin | exact Hc |].
  destruct (in_lowestTierFirst_bounds c Hin).
  now apply cellAt_setCell_eq.
Qed.

Section GridFold.
Variable items : list StockItem.

Lemma wfGrid_fold (g : Grid) :
  wfGrid g -> wfGrid (fold_left placeItem items g).
Proof.
  revert g; induction items as [|x l IH]; intros g Hwf; simpl; [exact Hwf|].
  apply IH. now apply wfGrid_placeItem.
Qed.

Lemma fold_keeps (g : Grid) (x : StockItem) (t r : nat) :
  cellAt g t r = Some x -> cellAt (fold_left placeItem items g) t r = Some x.
Proof.
  revert g; induction items as [|y l IH]; intros g Hx; simpl; [exact Hx|].
  apply IH. now apply placeItem_keeps.
Qed.

Lemma hasFreeCell_fold_before (g : Grid) :
  hasFreeCell (fold_left placeItem items g) = true -> hasFreeCell g = true.
Proof.
  revert g; induction items as [|y l IH]; intros g H; simpl in H; [exact H|].
  apply (hasFreeCell_before g y). now apply IH.
Qed.
End GridFold.

Lemma buildGrid_split (bayItems : list StockItem) (j : nat) (b : StockItem) :
  bayItems !! j = Some b ->
  buildGrid bayItems
  = fold_left placeItem (drop (S j) bayItems)
      (placeItem (buildGrid (take j bayItems)) b).
Proof.
  intros Hj. unfold buildGrid.
  rewrite <- (take_drop_middle bayItems j b Hj) at 1.
  rewrite fold_left_app. reflexivity.
Qed.

Lemma wfGrid_buildGrid (bayItems : list StockItem) : wfGrid (buildGrid bayItems).
Proof. apply wfGrid_fold, wfGrid_empty. Qed.

(** A bay that leaves a free cell in its finished grid had one at every
    earlier round. *)
Lemma free_cell_at_end_was_free (bayItems : list StockItem) (j : nat) :
  hasFreeCell (buildGrid bayItems) = true ->
  hasFreeCell (buildGrid (take j bayItems)) = true.
Proof.
  intros H. unfold buildGrid in *.
  rewrite <- (take_drop j bayItems) in H. rewrite fold_left_app in H.
  now apply hasFreeCell_fold_before in H.
Qed.

(** Every item that meets a grid with a free cell ends up in the finished
    grid, in a cell that was free when its round began. *)
Lemma item_placed (bayItems : list StockItem) (j : nat) (b : StockItem) :
  bayItems !! j = Some b ->
  hasFreeCell (buildGrid (take j bayItems)) = true ->
  exists c, isFree (buildGrid (take j bayItems)) c = true
            /\ cellAt (placeItem (buildGrid (take j bayItems)) b) (fst c) (snd c)
               = Some b
            /\ cellAt (buildGrid bayItems) (fst c) (snd c) = Some b.
Proof.
  intros Hj Hfree.
  destruct (placeItem_places (buildGrid (take j bayItems)) b
              (wfGrid_buildGrid _) Hfree) as (c & _ & Hc & Hb).
  exists c. repeat split; [exact Hc | exact Hb |].
  rewrite (buildGrid_split bayItems j b Hj). now apply fold_keeps.
Qed.

(** C7.  Two stock items of one bay that decode to the same (row, tier), the
    later of which still meets a free cell in the grid, are both in the
    finished grid, in two distinct cells. *)
Theorem same_coordinate_both_placed
  (bayItems : list StockItem) (i j : nat) (a b : StockItem) :
  (i < j)%nat ->
  bayItems !! i = Some a ->
  bayItems !! j = Some b ->
  parsePosition (StockItem.local a) = parsePosition (StockItem.local b) ->
  hasFreeCell (buildGrid (take j bayItems)) = true ->
  exists ca cb : nat * nat,
    ca <> cb
    /\ cellAt (buildGrid bayItems) (fst ca) (snd ca) = Some a
    /\ cellAt (buildGrid bayItems) (fst cb) (snd cb) = Some b.
Proof.
  intros Hij Hi Hj _ Hfree.
  assert (Hi' : take j bayItems !! i = Some a)
    by (rewrite lookup_take_lt by exact Hij; exact Hi).
  assert (Hfree_i : hasFreeCell (buildGrid (take i (take j bayItems))) = true).
  { now apply free_cell_at_end_was_free. }
  destruct (item_placed (take j bayItems) i a Hi' Hfree_i) as (ca & _ & _ & Ha).
  destruct (item_placed bayItems j b Hj Hfree) as (cb & Hcb & Hb' & Hb).
  exists ca, cb. repeat split; [| |exact Hb].
  - intros ->. unfold isFree in Hcb. rewrite Ha in Hcb. discriminate.
  - rewrite (buildGrid_split bayItems j b Hj).
    apply fold_keeps, placeItem_keeps, Ha.
Qed.

Lemma same_coordinate_both_placed_witness :
  exists ca cb : nat * nat,
    ca <> cb
    /\ cellAt (buildGrid [itemC; itemA; itemB]) (fst ca) (snd ca) = Some itemA
    /\ cellAt (buildGrid [itemC; itemA; itemB]) (fst cb) (snd cb) = Some itemB.
Proof.
  apply (same_coordinate_both_placed [itemC; itemA; itemB] 1 2 itemA itemB);
    [lia | reflexivity | reflexivity | reflexivity | reflexivity].
Defined.

Example both_placed_cells :
  cellAt (buildGrid [itemC; itemA; itemB]) 0 0 = Some itemA
  /\ cellAt (buildGrid [itemC; itemA; itemB]) 5 0 = Some itemB
  /\ cellAt (buildGrid [itemC; itemA; itemB]) 5 1 = Some itemC.
Proof. repeat split; reflexivity. Qed.

(** A bay of at most 36 items never fills its grid before the last item. *)

Lemma NoDup_lowestTierFirst : NoDup lowestTierFirst.
Proof. apply (bool_decide_unpack _). vm_compute. exact I. Qed.

Lemma filter_length_same {A} (P P' : A -> bool) (l : list A) :
  (forall x, In x l -> P' x = P x) ->
  List.length (List.filter P' l) = List.length (List.filter P l).
Proof.
  induction l as [|x l IH]; intros Hsame; [reflexivity|].
  simpl. rewrite (Hsame x) by (simpl; tauto).
  assert (List.length (List.filter P' l) = List.length (List.filter P l))
    by (apply IH; intros; apply Hsame; simpl; tauto).
  destruct (P x); simpl; lia.
Qed.

Lemma filter_length_one_change {A} `{EqDecision A}
  (P P' : A -> bool) (c : A) (l : list A) :
  NoDup l ->
  (forall x, In x l -> x <> c -> P' x = P x) ->
  (List.length (List.filter P' l) <= List.length (List.filter P l) + 1)%nat.
Proof.
  intros Hnd. induction Hnd as [|x l Hx Hnd IH]; intros Hsame; [simpl; lia|].
  simpl. destruct (decide (x = c)) as [->|Hne].
  - assert (List.length (List.filter P' l) = List.length (List.filter P l)).
    { apply filter_length_same. intros y Hy. apply Hsame; [simpl; tauto|].
      intros ->. apply Hx. now apply list_elem_of_In. }
    destruct (P' c), (P c); simpl; lia.
  - rewrite (Hsame x) by (simpl; tauto || exact Hne).
    assert (List.length (List.filter P' l) <= List.length (List.filter P l) + 1)%nat
      by (apply IH; intros; apply Hsame; simpl; tauto).
    destruct (P x); simpl; lia.
Qed.

Lemma occupied_placeItem (g : Grid) (item : StockItem) :
  (occupied (placeItem g item) <= occupied g + 1)%nat.
Proof.
  destruct (placeItem_cases g item) as [[_ ->] | (c & _ & _ & ->)]; [lia|].
  unfold occupied.
  apply (filter_length_one_change _ _ c); [apply NoDup_lowestTierFirst|].
  intros x _ Hne. unfold isFree. rewrite cellAt_setCell_ne; [reflexivity|].
  destruct c, x; simpl; congruence.
Qed.

Lemma occupied_fold (items : list StockItem) (g : Grid) :
  (occupied (fold_left placeItem items g) <= occupied g + List.length items)%nat.
Proof.
  revert g; induction items as [|x l IH]; intros g; simpl; [lia|].
  pose proof (IH (placeItem g x)). pose proof (occupied_placeItem g x). lia.
Qed.

Lemma occupied_lt_free (g : Grid) :
  (occupied g < 36)%nat -> hasFreeCell g = true.
Proof.
  intros Hlt. destruct (hasFreeCell g) eqn:E; [reflexivity|].
  exfalso. unfold hasFreeCell in E.
  assert (H36 : occupied g = 36%nat).
  { unfold occupied.
    transitivity (List.length (List.filter (fun _ => true) lowestTierFirst));
      [|reflexivity].
    apply filter_length_same. intros c Hc. apply negb_true_iff.
    destruct (isFree g c) eqn:F; [|reflexivity].
    assert (existsb (isFree g) lowestTierFirst = true)
      by (apply existsb_exists; now exists c).
    congruence. }
  lia.
Qed.

Lemma free_cell_when_at_most_36 (bayItems : list StockItem) (j : nat) :
  (List.length bayItems <= 36)%nat -> (j < List.length bayItems)%nat ->
  hasFreeCell (buildGrid (take j bayItems)) = true.
Proof.
  intros Hlen Hj. apply occupied_lt_free. unfold buildGrid.
  pose proof (occupied_fold (take j bayItems) emptyGrid) as H.
  rewrite length_take in H.
  change (occupied emptyGrid) with 0%nat in H. lia.
Qed.

(** ** Planning queues *)

Lemma occurrences_app (a : string) (l1 l2 : list StockItem) :
  occurrences a (l1 ++ l2) = (occurrences a l1 + occurrences a l2)%nat.
Proof. unfold occurrences. now rewrite List.filter_app, length_app. Qed.

Lemma occurrences_cons (a : string) (x : StockItem) (l : list StockItem) :
  occurrences a (x :: l)
  = ((if sameId a x then 1 else 0) + occurrences a l)%nat.
Proof. unfold occurrences. simpl. now destruct (sameId a x). Qed.

Lemma sameId_true (a : string) (x : StockItem) :
  sameId a x = true <-> StockItem.id x = a.
Proof. unfold sameId. apply String.eqb_eq. Qed.

Lemma find_none_occurrences (a : string) (l : list StockItem) :
  List.find (sameId a) l = None <-> occurrences a l = 0%nat.
Proof.
  induction l as [|x l IH]; [easy|].
  rewrite occurrences_cons. simpl.
  destruct (sameId a x); [split; [discriminate | lia]|].
  rewrite IH. lia.
Qed.

Lemma existsb_occurrences (a : string) (l : list StockItem) :
  existsb (sameId a) l = true <-> (1 <= occurrences a l)%nat.
Proof.
  induction l as [|x l IH]; [simpl; unfold occurrences; simpl; split; [discriminate | lia]|].
  rewrite occurrences_cons. simpl.
  destruct (sameId a x); simpl; [split; [lia | reflexivity]|].
  rewrite IH. lia.
Qed.

Lemma existsb_ids (a : string) (l : list StockItem) :
  existsb (String.eqb a) (ids l) = existsb (sameId a) l.
Proof.
  induction l as [|x l IH]; [reflexivity|].
  simpl. rewrite IH. unfold sameId. now rewrite String.eqb_sym.
Qed.

Lemma distinctIds_occurrences (a : string) (l : list StockItem) :
  distinctIds (ids l) = true -> (occurrences a l <= 1)%nat.
Proof.
  induction l as [|x l IH]; [unfold occurrences; simpl; lia|].
  simpl. intros H. apply andb_true_iff in H as [Hx Hl].
  rewrite occurrences_cons. specialize (IH Hl).
  destruct (sameId a x) eqn:E; [|lia].
  apply sameId_true in E. rewrite E, existsb_ids in Hx.
  apply negb_true_iff in Hx.
  destruct (occurrences a l) as [|n] eqn:O; [lia|].
  assert (existsb (sameId a) l = true) by (apply existsb_occurrences; lia).
  congruence.
Qed.

Lemma NoDup_occurrences (a : string) (l : list StockItem) :
  NoDup (ids l) -> In a (ids l) -> occurrences a l = 1%nat.
Proof.
  induction l as [|x l IH]; [easy|].
  simpl. intros Hnd Hin. apply NoDup_cons in Hnd as [Hx Hnd].
  rewrite occurrences_cons.
  destruct (sameId a x) eqn:E.
  - apply sameId_true in E. subst a.
    destruct (occurrences (StockItem.id x) l) as [|n] eqn:O; [reflexivity|].
    exfalso. apply Hx. apply list_elem_of_In.
    assert (Hex : existsb (sameId (StockItem.id x)) l = true)
      by (apply existsb_occurrences; lia).
    apply existsb_exists in Hex as (y & Hy & Hid).
    apply sameId_true in Hid. rewrite <- Hid. now apply in_map.
  - destruct Hin as [Heq | Hin]; [apply sameId_true in Heq; congruence|].
    now apply IH.
Qed.

Lemma not_in_occurrences (a : string) (l : list StockItem) :
  ~ In a (ids l) -> occurrences a l = 0%nat.
Proof.
  intros Hn. destruct (occurrences a l) as [|n] eqn:O; [reflexivity|].
  exfalso. apply Hn.
  assert (Hex : existsb (sameId a) l = true) by (apply existsb_occurrences; lia).
  apply existsb_exists in Hex as (y & Hy & Hid).
  apply sameId_true in Hid. rewrite <- Hid. now apply in_map.
Qed.

(** The pool filter of [handleDrop]: the slots of an identity that is among
    the dragged items are removed, those of any other identity are kept. *)
Lemma occurrences_pool_filter (a : string) (items pool : list StockItem) :
  occurrences a
    (List.filter
       (fun s => match List.find (sameId (StockItem.id s)) items with
                 | Some _ => false
                 | None => true
                 end) pool)
  = if (occurrences a items =? 0)%nat then occurrences a pool else 0%nat.
Proof.
  induction pool as [|s pool IH].
  - unfold occurrences; simpl. now destruct (_ =? _)%nat.
  - simpl. rewrite occurrences_cons.
    destruct (sameId a s) eqn:E.
    + apply sameId_true in E. rewrite E.
      destruct (List.find (sameId a) items) eqn:F.
      * rewrite IH.
        destruct (occurrences a items =? 0)%nat eqn:Z; [|reflexivity].
        apply Nat.eqb_eq, find_none_occurrences in Z. congruence.
      * rewrite occurrences_cons, IH.
        apply find_none_occurrences in F. rewrite F. simpl.
        assert (sameId a s = true) as -> by now apply sameId_true.
        reflexivity.
    + destruct (List.find (sameId (StockItem.id s)) items).
      * rewrite IH. now destruct (_ =? _)%nat.
      * rewrite occurrences_cons, E, IH. now destruct (_ =? _)%nat.
Qed.

Lemma occurrences_remove (a itemId : string) (q : list StockItem) :
  occurrences a (List.filter (fun i => negb (sameId itemId i)) q)
  = if String.eqb a itemId then 0%nat else occurrences a q.
Proof.
  induction q as [|x q IH]; [unfold occurrences; simpl; now destruct (String.eqb _ _)|].
  simpl. rewrite occurrences_cons.
  destruct (sameId itemId x) eqn:E; simpl.
  - rewrite IH. apply sameId_true in E.
    destruct (String.eqb a itemId) eqn:A; [reflexivity|].
    assert (sameId a x = false) as ->; [|reflexivity].
    apply not_true_iff_false. rewrite sameId_true. apply String.eqb_neq in A.
    congruence.
  - rewrite occurrences_cons, IH.
    destruct (String.eqb a itemId) eqn:A; [|reflexivity].
    apply String.eqb_eq in A. subst. now rewrite E.
Qed.

Lemma places_split (a : string) (st : AppState) :
  places a st
  = (occurrences a (stockData st) + queuesOccurrences a (planningState st))%nat.
Proof. reflexivity. Qed.

Lemma queuesOccurrences_setQueue
  (a : string) (ps : PlanningState) (m : StackerId) (q : list StockItem) :
  (queuesOccurrences a (setQueue ps m q) + occurrences a (queueOf ps m)
   = queuesOccurrences a ps + occurrences a q)%nat.
Proof. destruct m; unfold queuesOccurrences; simpl; lia. Qed.

Lemma queueOf_le_queues (a : string) (ps : PlanningState) (m : StackerId) :
  (occurrences a (queueOf ps m) <= queuesOccurrences a ps)%nat.
Proof. destruct m; unfold queuesOccurrences; simpl; lia. Qed.

(** One handler call keeps the number of places of every identity, provided
    no identity has more than one place and an [Assign] drags distinct pool
    members. *)
Lemma step_places (st : AppState) (act : Action) (a : string) :
  (forall x, places x st <= 1)%nat ->
  match act with Assign _ items => assignable items st = true | _ => True end ->
  places a (step st act) = places a st.
Proof.
  intros Hone Hvalid. specialize (Hone a). rewrite places_split in Hone.
  destruct act as [m items | m itemId | m]; simpl.
  - rewrite !places_split. cbn [stockData planningState handleDrop].
    pose proof (queuesOccurrences_setQueue a (planningState st) m
                  (queueOf (planningState st) m ++ items)) as Hq.
    rewrite occurrences_app in Hq. rewrite occurrences_pool_filter.
    apply andb_true_iff in Hvalid as [Hdist Hpool].
    pose proof (distinctIds_occurrences a items Hdist) as Hle.
    destruct (occurrences a items =? 0)%nat eqn:Z.
    + apply Nat.eqb_eq in Z. lia.
    + apply Nat.eqb_neq in Z.
      assert (Hex : existsb (sameId a) items = true)
        by (apply existsb_occurrences; lia).
      apply existsb_exists in Hex as (i & Hi & Hid). apply sameId_true in Hid.
      rewrite forallb_forall in Hpool. specialize (Hpool i Hi).
      rewrite Hid in Hpool. apply existsb_occurrences in Hpool. lia.
  - unfold handleRemoveFromPlan.
    destruct (List.find (sameId itemId) (queueOf (planningState st) m))
      as [item|] eqn:F; [|reflexivity].
    rewrite !places_split. cbn [stockData planningState].
    pose proof (queuesOccurrences_setQueue a (planningState st) m
                  (List.filter (fun i => negb (sameId itemId i))
                     (queueOf (planningState st) m))) as Hq.
    rewrite occurrences_remove in Hq.
    rewrite occurrences_app, occurrences_cons.
    change (occurrences a []) with 0%nat.
    apply find_some in F as [Hin Hid].
    pose proof (queueOf_le_queues a (planningState st) m) as Hle.
    assert (sameId a item = String.eqb a itemId) as ->.
    { apply sameId_true in Hid. unfold sameId. rewrite Hid. apply String.eqb_sym. }
    destruct (String.eqb a itemId) eqn:A; [|lia].
    apply String.eqb_eq in A. subst a.
    assert (1 <= occurrences itemId (queueOf (planningState st) m))%nat.
    { apply existsb_occurrences, existsb_exists. now exists item. }
    lia.
  - rewrite !places_split. cbn [stockData planningState handleClearPlan].
    pose proof (queuesOccurrences_setQueue a (planningState st) m []) as Hq.
    change (occurrences a []) with 0%nat in Hq.
    rewrite occurrences_app. lia.
Qed.

Lemma run_places (acts : list Action) (st : AppState) (a : string) :
  (forall x, places x st <= 1)%nat ->
  wellFormedRun acts st = true ->
  places a (run acts st) = places a st.
Proof.
  revert st; induction acts as [|act acts IH]; intros st Hone Hwf; [reflexivity|].
  simpl in Hwf. apply andb_true_iff in Hwf as [Hact Hrest].
  assert (Hv : match act with
               | Assign _ items => assignable items st = true
               | _ => True
               end) by (destruct act; auto).
  simpl. rewrite IH; [now apply step_places | | exact Hrest].
  intros x. rewrite step_places by assumption. apply Hone.
Qed.

Lemma wellFormedRun_take (acts : list Action) (st : AppState) (k : nat) :
  wellFormedRun acts st = true -> wellFormedRun (take k acts) st = true.
Proof.
  revert st k; induction acts as [|act acts IH]; intros st k Hwf;
    [now destruct k|].
  destruct k as [|k]; [reflexivity|].
  simpl in *. apply andb_true_iff in Hwf as [-> Hrest]. simpl. now apply IH.
Qed.

Lemma initial_places (st0 : AppState) (a : string) :
  initialState st0 ->
  (In a (ids (stockData st0)) -> places a st0 = 1%nat)
  /\ (~ In a (ids (stockData st0)) -> places a st0 = 0%nat).
Proof.
  intros [Hq Hnd]. rewrite places_split, Hq.
  change (queuesOccurrences a emptyPlanning) with 0%nat.
  split; intros Hin.
  - rewrite NoDup_occurrences by assumption. reflexivity.
  - rewrite not_in_occurrences by assumption. reflexivity.
Qed.

Lemma initial_places_le (st0 : AppState) (a : string) :
  initialState st0 -> (places a st0 <= 1)%nat.
Proof.
  intros Hinit. destruct (initial_places st0 a Hinit) as [H1 H0].
  destruct (in_dec String.string_dec a (ids (stockData st0))) as [Hin|Hout].
  - rewrite (H1 Hin). lia.
  - rewrite (H0 Hout). lia.
Qed.

Lemma existsb_false_occurrences (a : string) (l : list StockItem) :
  existsb (sameId a) l = false <-> occurrences a l = 0%nat.
Proof.
  rewrite <- not_true_iff_false, existsb_occurrences. lia.
Qed.

(** What one place means: the identity is in the pool and in no queue, or
    out of the pool and exactly once in exactly one queue. *)
Lemma one_place_exclusive (a : string) (st : AppState) :
  places a st = 1%nat ->
  (inPool a st = true
   /\ occurrences a (stockData st) = 1%nat
   /\ forall m, inQueue a m st = false)
  \/ (inPool a st = false
      /\ exists m, occurrences a (queueOf (planningState st) m) = 1%nat
                   /\ forall m', m' <> m -> inQueue a m' st = false).
Proof.
  unfold places, queuesOccurrences, inPool, inQueue. intros H.
  destruct (occurrences a (stockData st)) as [|n] eqn:Hp.
  - right. split; [now apply existsb_false_occurrences|].
    destruct (occurrences a (stacker1 (planningState st))) as [|n1] eqn:H1;
      [destruct (occurrences a (stacker2 (planningState st))) as [|n2] eqn:H2|].
    + exists Stacker3. split; [simpl; lia|].
      intros [] Hne; try congruence; now apply existsb_false_occurrences.
    + exists Stacker2. split; [simpl; lia|].
      intros [] Hne; try congruence; apply existsb_false_occurrences; simpl; lia.
    + exists Stacker1. split; [simpl; lia|].
      intros [] Hne; try congruence; apply existsb_false_occurrences; simpl; lia.
  - left. split; [apply existsb_occurrences; lia|]. split; [lia|].
    intros []; apply existsb_false_occurrences; simpl; lia.
Qed.

(** C1, as the code has it.  Start with every stock item in the pool, once,
    and the queues empty, and apply any sequence of Assign, Unassign and
    ClearQueue calls in which every Assign drags distinct identities that
    are in the pool at that moment.  Then after every prefix of the sequence
    each identity of the initial stock holds exactly one place among the
    pool slots and the slots of the three queues. *)
Theorem one_place_per_item
  (st0 : AppState) (acts : list Action) (k : nat) (a : string) :
  initialState st0 ->
  wellFormedRun acts st0 = true ->
  In a (ids (stockData st0)) ->
  places a (run (take k acts) st0) = 1%nat.
Proof.
  intros Hinit Hwf Hin.
  rewrite run_places;
    [| intros x; now apply initial_places_le | now apply wellFormedRun_take].
  now apply (initial_places st0 a Hinit).
Qed.

Lemma sampleState_initial : initialState sampleState.
Proof.
  split; [reflexivity|].
  apply (bool_decide_unpack _). vm_compute. exact I.
Qed.

Lemma one_place_per_item_witness :
  places (StockItem.id itemA) (run (take 3 sampleActions) sampleState) = 1%nat.
Proof.
  apply (one_place_per_item sampleState sampleActions 3 (StockItem.id itemA)).
  - exact sampleState_initial.
  - reflexivity.
  - simpl. tauto.
Defined.

Example sample_run_positions :
  inQueue (StockItem.id itemA) Stacker2 (run sampleActions sampleState) = true
  /\ inQueue (StockItem.id itemB) Stacker2 (run sampleActions sampleState) = true
  /\ inPool (StockItem.id itemC) (run sampleActions sampleState) = true.
Proof. repeat split; reflexivity. Qed.

(** C1, as stated, fails.  From the state with every item in the pool, drop
    item A on the plan of stacker 1, then drop it again (it is still shown,
    and draggable, in the whole-block view) on the plan of stacker 2: its
    identity is now in two queues. *)
Lemma assign_twice_duplicates :
  initialState sampleState
  /\ In (StockItem.id itemA) (ids (stockData sampleState))
  /\ inQueue (StockItem.id itemA) Stacker1
       (run [Assign Stacker1 [itemA]; Assign Stacker2 [itemA]] sampleState) = true
  /\ inQueue (StockItem.id itemA) Stacker2
       (run [Assign Stacker1 [itemA]; Assign Stacker2 [itemA]] sampleState) = true
  /\ places (StockItem.id itemA)
       (run [Assign Stacker1 [itemA]; Assign Stacker2 [itemA]] sampleState) = 2%nat.
Proof.
  split; [exact sampleState_initial|].
  split; [simpl; tauto|].
  repeat split; reflexivity.
Qed.

Lemma existsb_sameId_app (a : string) (l1 l2 : list StockItem) :
  existsb (sameId a) (l1 ++ l2) = existsb (sameId a) l1 || existsb (sameId a) l2.
Proof. apply existsb_app. Qed.

Lemma queueOf_setQueue_eq (ps : PlanningState) (m : StackerId) (q : list StockItem) :
  queueOf (setQueue ps m q) m = q.
Proof. now destruct m. Qed.

Lemma queueOf_setQueue_ne
  (ps : PlanningState) (m m' : StackerId) (q : list StockItem) :
  m' <> m -> queueOf (setQueue ps m q) m' = queueOf ps m'.
Proof. destruct m, m'; simpl; congruence. Qed.

(** C2, as the code has it.  [handleDrop] has no membership check.  For a
    dragged item whose identity is not in the pool, the pool still does not
    hold that identity after the call and the other queues are unchanged,
    but the named queue receives all the dragged items, this one included,
    appended in order. *)
Theorem assign_of_absent_item
  (m : StackerId) (items : list StockItem) (st : AppState) (i : StockItem) :
  In i items ->
  inPool (StockItem.id i) st = false ->
  inPool (StockItem.id i) (handleDrop m (Some items) st) = false
  /\ queueOf (planningState (handleDrop m (Some items) st)) m
     = queueOf (planningState st) m ++ items
  /\ inQueue (StockItem.id i) m (handleDrop m (Some items) st) = true
  /\ (forall m', m' <> m ->
        queueOf (planningState (handleDrop m (Some items) st)) m'
        = queueOf (planningState st) m').
Proof.
  intros Hin Hpool. cbn [handleDrop planningState stockData].
  repeat split.
  - unfold inPool in *. cbn [stockData].
    apply not_true_iff_false. intros Hex.
    apply existsb_exists in Hex as (s & Hs & Hid).
    apply filter_In in Hs as [Hs _].
    assert (existsb (sameId (StockItem.id i)) (stockData st) = true)
      by (apply existsb_exists; now exists s).
    congruence.
  - apply queueOf_setQueue_eq.
  - unfold inQueue. cbn [planningState].
    rewrite queueOf_setQueue_eq, existsb_sameId_app.
    apply orb_true_iff. right. apply existsb_exists. exists i.
    split; [exact Hin | now apply sameId_true].
  - intros m' Hne. now apply queueOf_setQueue_ne.
Qed.

Lemma assign_of_absent_item_witness :
  inPool (StockItem.id itemA)
    (handleDrop Stacker2 (Some [itemA]) (run [Assign Stacker1 [itemA]] sampleState))
  = false
  /\ queueOf (planningState
       (handleDrop Stacker2 (Some [itemA]) (run [Assign Stacker1 [itemA]] sampleState)))
       Stacker2
     = queueOf (planningState (run [Assign Stacker1 [itemA]] sampleState)) Stacker2
       ++ [itemA]
  /\ inQueue (StockItem.id itemA) Stacker2
       (handleDrop Stacker2 (Some [itemA]) (run [Assign Stacker1 [itemA]] sampleState))
     = true
  /\ (forall m', m' <> Stacker2 ->
        queueOf (planningState
          (handleDrop Stacker2 (Some [itemA]) (run [Assign Stacker1 [itemA]] sampleState)))
          m'
        = queueOf (planningState (run [Assign Stacker1 [itemA]] sampleState)) m').
Proof.
  apply (assign_of_absent_item Stacker2 [itemA]
           (run [Assign Stacker1 [itemA]] sampleState) itemA).
  - simpl. tauto.
  - reflexivity.
Defined.

(** C2, as stated, fails.  After item A went to stacker 1 it is not in the
    pool; dropping it on the empty plan of stacker 2 is not a no-op: that
    queue now holds it. *)
Lemma absent_item_enters_queue :
  inPool (StockItem.id itemA) (run [Assign Stacker1 [itemA]] sampleState) = false
  /\ queueOf (planningState (run [Assign Stacker1 [itemA]] sampleState)) Stacker2
     = []
  /\ queueOf (planningState
       (handleDrop Stacker2 (Some [itemA]) (run [Assign Stacker1 [itemA]] sampleState)))
       Stacker2
     = [itemA].
Proof. repeat split; reflexivity. Qed.

(** ** Estimated times *)



(** *** Double arithmetic *)

Section DoubleFacts.
Import Double.
Local Open Scope Q_scope.










































End DoubleFacts.

(** *** The estimates of a queue *)




Example estimate_default_config :
  getEstimatedTime defaultConfig 0 = Some (8, 0)
  /\ getEstimatedTime defaultConfig 1 = Some (8, 4)
  /\ getEstimatedTime defaultConfig 15 = Some (9, 0).
Proof. vm_compute. repeat split. Qed.

Example estimate_wraps_at_midnight :
  getEstimatedTime {| start := "23:30"; mph := 2 |} 1 = Some (0, 0)
  /\ getEstimatedTime {| start := "23:30"; mph := 0 |} 1 = Some (0, 30)
  /\ getEstimatedTime {| start := "24:00"; mph := 15 |} 1 = Some (0, 4)
  /\ getEstimatedTime {| start := "24:30"; mph := 15 |} 1 = None
  /\ getEstimatedTime {| start := ""; mph := 15 |} 1 = None.
Proof. vm_compute. repeat split. Qed.


(** ** Sorting *)

Lemma insertSorted_perm {A} (cmp : A -> A -> Z) (x : A) (l : list A) :
  Permutation (insertSorted cmp x l) (x :: l).
Proof.
  induction l as [|y l IH]; simpl; [reflexivity|].
  destruct (cmp x y <=? 0); [reflexivity|].
  rewrite IH. apply perm_swap.
Qed.

Lemma sortWith_perm {A} (cmp : A -> A -> Z) (l : list A) :
  Permutation (sortWith cmp l) l.
Proof.
  induction l as [|x l IH]; simpl; [reflexivity|].
  unfold sortWith in *. simpl. rewrite insertSorted_perm. now constructor.
Qed.

Lemma sumOf_perm {A} (f : A -> Z) (l l' : list A) :
  Permutation l l' -> sumOf f l = sumOf f l'.
Proof. induction 1; simpl; lia. Qed.

Section SortedByComparator.
Context {A : Type} (cmp : A -> A -> Z) (P : A -> Prop).

(** On the elements that satisfy [P] the comparator is a total preorder. *)
Hypothesis cmp_total :
  forall x y, P x -> P y -> cmp x y <= 0 \/ cmp y x <= 0.
Hypothesis cmp_trans :
  forall x y z, P x -> P y -> P z ->
                cmp x y <= 0 -> cmp y z <= 0 -> cmp x z <= 0.

Lemma insertSorted_Forall (Q : A -> Prop) (x : A) (l : list A) :
  Q x -> Forall Q l -> Forall Q (insertSorted cmp x l).
Proof.
  intros Hx Hl. rewrite Forall_forall in *. intros y Hy.
  apply list_elem_of_In in Hy.
  apply (Permutation_in _ (insertSorted_perm cmp x l)) in Hy as [<- | Hy];
    [exact Hx | apply Hl; now apply list_elem_of_In].
Qed.

Lemma insertSorted_sorted (x : A) (l : list A) :
  P x -> Forall P l -> StronglySorted (fun x y => cmp x y <= 0) l ->
  StronglySorted (fun x y => cmp x y <= 0) (insertSorted cmp x l).
Proof.
  intros Hx Hl Hs. induction Hs as [|y l Hs IH Hy]; simpl.
  - repeat constructor.
  - apply Forall_cons in Hl as [HPy HPl].
    destruct (cmp x y <=? 0) eqn:E.
    + apply Z.leb_le in E. constructor; [now constructor|].
      constructor; [exact E|].
      rewrite Forall_forall in Hy, HPl |- *. intros z Hz.
      apply (cmp_trans x y z);
        [exact Hx | exact HPy | now apply HPl | exact E | now apply Hy].
    + apply Z.leb_gt in E. constructor; [now apply IH|].
      apply insertSorted_Forall; [|exact Hy].
      destruct (cmp_total x y Hx HPy) as [H|H]; [lia | exact H].
Qed.

Lemma sortWith_sorted (l : list A) :
  Forall P l -> StronglySorted (fun x y => cmp x y <= 0) (sortWith cmp l).
Proof.
  induction l as [|x l IH]; intros Hl; [constructor|].
  apply Forall_cons in Hl as [Hx Hl]. unfold sortWith in *. simpl.
  apply insertSorted_sorted; [exact Hx | | now apply IH].
  apply Forall_forall. intros y Hy. rewrite Forall_forall in Hl. apply Hl.
  apply list_elem_of_In. apply list_elem_of_In in Hy.
  now apply (Permutation_in _ (sortWith_perm cmp l)).
Qed.
End SortedByComparator.

(** ** Bay ordering *)

Lemma StronglySorted_weaken {A} (R R' : A -> A -> Prop) (P : A -> Prop)
  (l : list A) :
  (forall x y, P x -> P y -> R x y -> R' x y) ->
  Forall P l -> StronglySorted R l -> StronglySorted R' l.
Proof.
  intros HR HP Hs. induction Hs as [|x l Hs IH Hx]; [constructor|].
  apply Forall_cons in HP as [HPx HPl].
  constructor; [now apply IH|].
  rewrite Forall_forall in Hx, HPl |- *. intros y Hy.
  apply HR; [exact HPx | now apply HPl | now apply Hx].
Qed.

Lemma sortWith_Forall {A} (cmp : A -> A -> Z) (P : A -> Prop) (l : list A) :
  Forall P l -> Forall P (sortWith cmp l).
Proof.
  intros H. rewrite Forall_forall in *. intros x Hx. apply H.
  apply list_elem_of_In. apply list_elem_of_In in Hx.
  now apply (Permutation_in _ (sortWith_perm cmp l)).
Qed.

(** C9, as the code has it.  In the yard map the bays of a quadra are a
    rearrangement of the bay labels that is ascending by the number spelled
    by the digits of each label whenever every label contains a digit, and
    ascending for [localeCompare] whenever no label contains one. *)
Theorem sortedBays_order
  (localeCompare : string -> string -> Z) (bayKeys : list string) :
  Permutation (sortedBays localeCompare bayKeys) bayKeys
  /\ (Forall (fun a => bayNumber a <> None) bayKeys ->
      StronglySorted byBayNumber (sortedBays localeCompare bayKeys))
  /\ (Forall (fun a => bayNumber a = None) bayKeys ->
      totalPreorder localeCompare ->
      StronglySorted (fun a b => localeCompare a b <= 0)
        (sortedBays localeCompare bayKeys)).
Proof.
  split; [apply sortWith_perm|]. split.
  - intros Hnum.
    apply (StronglySorted_weaken
             (fun a b => compareBays localeCompare a b <= 0) _
             (fun a => bayNumber a <> None)).
    + intros x y Hx Hy. unfold compareBays, byBayNumber.
      destruct (bayNumber x), (bayNumber y); try congruence. lia.
    + now apply sortWith_Forall.
    + apply (sortWith_sorted _ (fun a => bayNumber a <> None)); [| |exact Hnum].
      * intros x y Hx Hy. unfold compareBays.
        destruct (bayNumber x), (bayNumber y); try congruence. lia.
      * intros x y z Hx Hy Hz. unfold compareBays.
        destruct (bayNumber x), (bayNumber y), (bayNumber z); try congruence. lia.
  - intros Hnone [Htotal Htrans].
    apply (StronglySorted_weaken
             (fun a b => compareBays localeCompare a b <= 0) _
             (fun a => bayNumber a = None)).
    + intros x y Hx Hy. unfold compareBays. now rewrite Hx.
    + now apply sortWith_Forall.
    + apply (sortWith_sorted _ (fun a => bayNumber a = None)); [| |exact Hnone].
      * intros x y Hx Hy. unfold compareBays. rewrite Hx, Hy. apply Htotal.
      * intros x y z Hx Hy Hz. unfold compareBays. rewrite Hx, Hy.
        apply Htrans.
Qed.

Lemma sortedBays_order_witness :
  StronglySorted byBayNumber (sortedBays defaultCompare ["0110"; "01A2"; "0101"]).
Proof.
  apply (sortedBays_order defaultCompare ["0110"; "01A2"; "0101"]).
  repeat constructor; discriminate.
Defined.

Example sortedBays_sample :
  sortedBays defaultCompare ["0110"; "01A2"; "0101"] = ["01A2"; "0101"; "0110"].
Proof. reflexivity. Qed.

(** The whole-block view of the planning tab orders its bays by the default
    string sort of the labels. *)
Lemma quadraViewData_bay_order (q : string) (st : AppState) :
  q <> "" ->
  map bayName (quadraViewData (Some q) st)
  = sortWith defaultCompare
      (map fst
         (groupByBay
            (List.filter (fun i => String.eqb (StockItem.quadra i) q) (stockData st)
             ++ List.filter (fun i => String.eqb (StockItem.quadra i) q)
                  (allPlanned (planningState st))))).
Proof.
  intros Hq. unfold quadraViewData.
  destruct q; [congruence|]. simpl String.length. cbn [Nat.eqb].
  rewrite map_map. simpl. apply map_id.
Qed.

(** C9, as stated, fails.  In the whole-block view the labels A1B2 and A110
    both contain a number, 12 and 110, yet A110 comes first.  In the yard
    map, with a collation that agrees with the code-unit order on these
    labels, the labels AA10, AAB2 and AACD, the last without a number, come
    out as AAB2, AA10, AACD, which is not their lexicographic order. *)
Lemma bay_order_not_as_claimed :
  map bayName
    (quadraViewData (Some "A1")
       {| stockData := [itemD; itemE]; planningState := emptyPlanning |})
  = ["A110"; "A1B2"]
  /\ bayNumber "A110" = Some 110
  /\ bayNumber "A1B2" = Some 12
  /\ sortedBays defaultCompare ["AA10"; "AAB2"; "AACD"] = ["AAB2"; "AA10"; "AACD"]
  /\ bayNumber "AACD" = None
  /\ defaultCompare "AA10" "AAB2" = -1.
Proof. repeat split; reflexivity. Qed.

(** ** Dashboard aggregations *)

Lemma sumOf_map {A B} (f : B -> Z) (g : A -> B) (l : list A) :
  sumOf f (map g l) = sumOf (fun x => f (g x)) l.
Proof. induction l as [|x l IH]; simpl; [reflexivity | now rewrite IH]. Qed.

Lemma sumOf_ext {A} (f g : A -> Z) (l : list A) :
  (forall x, f x = g x) -> sumOf f l = sumOf g l.
Proof. intros H. induction l as [|x l IH]; simpl; [reflexivity | now rewrite H, IH]. Qed.

(** Adding [delta] under one key adds [delta] to the sum over all keys. *)
Lemma sumOf_update {V} (g : V -> Z) (k : string) (init : V) (f : V -> V)
  (delta : Z) (acc : list (string * V)) :
  g init = 0 ->
  (forall d, g (f d) = g d + delta) ->
  sumOf (fun kv => g (snd kv)) (update k init f acc)
  = sumOf (fun kv => g (snd kv)) acc + delta.
Proof.
  intros Hinit Hf. induction acc as [|[k' v] acc IH]; simpl.
  - rewrite Hf, Hinit. lia.
  - destruct (String.eqb k' k); simpl; [rewrite Hf | rewrite IH]; lia.
Qed.

Lemma totalRemocoes_fold (l : list ScheduleItem) (s0 : Z) :
  fold_left (fun sum item => sum + Dashboard.orZero (ScheduleItem.remocoes item)) l s0
  = s0 + sumOf ScheduleItem.remocoes l.
Proof.
  revert s0; induction l as [|x l IH]; intros s0; simpl; [lia|].
  rewrite IH. unfold Dashboard.orZero.
  destruct (ScheduleItem.remocoes x =? 0) eqn:E; [apply Z.eqb_eq in E|]; lia.
Qed.

Lemma totalRemocoes_sum (l : list ScheduleItem) :
  Dashboard.totalRemocoes l = sumOf ScheduleItem.remocoes l.
Proof. unfold Dashboard.totalRemocoes. now rewrite totalRemocoes_fold. Qed.

Lemma orZero_id (x : Z) : Dashboard.orZero x = x.
Proof.
  unfold Dashboard.orZero. destruct (x =? 0) eqn:E; [apply Z.eqb_eq in E|]; lia.
Qed.

Lemma serviceAcc_sum (now : Z) (l : list ScheduleItem)
  (acc : list (string * ServiceStatData.t)) :
  sumOf (fun kv => ServiceStatData.remocoes (snd kv))
    (fold_left
       (fun acc curr =>
          update (Dashboard.serviceKey curr) Dashboard.emptyServiceStat
            (Dashboard.addToService now curr) acc) l acc)
  = sumOf (fun kv => ServiceStatData.remocoes (snd kv)) acc
    + sumOf ScheduleItem.remocoes l.
Proof.
  revert acc; induction l as [|x l IH]; intros acc; simpl; [lia|].
  rewrite IH.
  rewrite (sumOf_update ServiceStatData.remocoes _ _ _ (ScheduleItem.remocoes x));
    [lia | reflexivity |].
  intros d. unfold Dashboard.addToService. rewrite orZero_id.
  destruct (ScheduleItem._rawDate x) as [t|]; [destruct (t <? now)|]; reflexivity.
Qed.

Lemma quadraAcc_sum (l : list ScheduleItem)
  (acc : list (string * QuadraStatData.t)) :
  sumOf (fun kv => QuadraStatData.remocoes (snd kv))
    (fold_left
       (fun acc curr =>
          update (Dashboard.quadraKey curr) Dashboard.emptyQuadraStat
            (Dashboard.addToQuadra curr) acc) l acc)
  = sumOf (fun kv => QuadraStatData.remocoes (snd kv)) acc
    + sumOf ScheduleItem.remocoes l.
Proof.
  revert acc; induction l as [|x l IH]; intros acc; simpl; [lia|].
  rewrite IH.
  rewrite (sumOf_update QuadraStatData.remocoes _ _ _ (ScheduleItem.remocoes x));
    [lia | reflexivity |].
  intros d. unfold Dashboard.addToQuadra. now rewrite orZero_id.
Qed.

(** The removals of the entries add up to the removals of the items that
    were reduced into them. *)
Lemma entries_total (now : Z) (filtered : list ScheduleItem) :
  sumOf ServiceStat.remocoes (Dashboard.serviceStats now filtered)
  = sumOf ScheduleItem.remocoes filtered
  /\ sumOf QuadraStat.remocoes (Dashboard.quadraStats filtered)
     = sumOf ScheduleItem.remocoes filtered.
Proof.
  split.
  - unfold Dashboard.serviceStats.
    rewrite (sumOf_perm _ _ _ (sortWith_perm _ _)), sumOf_map.
    unfold Dashboard.serviceAcc.
    rewrite (sumOf_ext _ (fun kv => ServiceStatData.remocoes (snd kv)))
      by (now intros [k d]).
    rewrite serviceAcc_sum. simpl. lia.
  - unfold Dashboard.quadraStats.
    rewrite (sumOf_perm _ _ _ (sortWith_perm _ _)), sumOf_map.
    unfold Dashboard.quadraAcc.
    rewrite (sumOf_ext _ (fun kv => QuadraStatData.remocoes (snd kv)))
      by (now intros [k d]).
    rewrite quadraAcc_sum. simpl. lia.
Qed.

(** The reducer on [{}] throws exactly when an item of an inherited name
    has a date; otherwise it is the reducer of the items of the other
    names. *)
Lemma serviceReduce_spec (now : Z) (l : list ScheduleItem)
  (acc : list (string * ServiceStatData.t)) :
  serviceReduce now l acc
  = if existsb (fun i => isInherited (Dashboard.serviceKey i) && hasDate i) l
    then Threw
    else Returned
           (fold_left
              (fun acc curr =>
                 update (Dashboard.serviceKey curr) Dashboard.emptyServiceStat
                   (Dashboard.addToService now curr) acc)
              (List.filter (fun i => negb (isInherited (Dashboard.serviceKey i))) l)
              acc).
Proof.
  revert acc. induction l as [|x l IH]; intros acc; [reflexivity|].
  cbn [serviceReduce existsb List.filter]. unfold serviceRound.
  destruct (isInherited (Dashboard.serviceKey x)); cbn [negb andb orb].
  - destruct (hasDate x); [reflexivity | apply IH].
  - rewrite IH. reflexivity.
Qed.

Lemma serviceStatsOnObject_spec (now : Z) (l : list ScheduleItem) :
  serviceStatsOnObject now l
  = if existsb (fun i => isInherited (Dashboard.serviceKey i) && hasDate i) l
    then Threw
    else Returned
           (Dashboard.serviceStats now
              (List.filter (fun i => negb (isInherited (Dashboard.serviceKey i))) l)).
Proof.
  unfold serviceStatsOnObject. rewrite serviceReduce_spec.
  destruct (existsb _ l); reflexivity.
Qed.

Lemma sumOf_by_name {A} (f : A -> Z) (p : A -> bool) (l : list A) :
  sumOf f (List.filter (fun x => negb (p x)) l) + sumOf f (List.filter p l)
  = sumOf f l.
Proof.
  induction l as [|x l IH]; [reflexivity|].
  simpl. destruct (p x); simpl; lia.
Qed.

(** C6, and where the code breaks it.  The removals of the quadra stats add
    up to the total of the filtered items, whatever the items and the date
    filter.  The service stats are reduced on an object literal: an item
    whose service is named like a member of [Object.prototype] gets no
    entry, so the removals of the service stats fall short of the total by
    the removals of these items, and the reducer throws when such an item
    has a date.  A schedule of two rows, one for the service [constructor]
    with 2 removals and one for [IMPORT] with 1, gives service stats that
    add up to 1 against a total of 3. *)
Theorem service_totals_miss_inherited_names :
  (forall (localDate : Z -> string) (selectedDate : string) (now : Z)
          (scheduleData : list ScheduleItem),
      let filtered := Dashboard.filteredData localDate selectedDate scheduleData in
      sumOf QuadraStat.remocoes (Dashboard.quadraStats filtered)
      = Dashboard.totalRemocoes filtered
      /\ match serviceStatsOnObject now filtered with
         | Returned stats =>
             sumOf ServiceStat.remocoes stats
             + Dashboard.totalRemocoes
                 (List.filter (fun i => isInherited (Dashboard.serviceKey i)) filtered)
             = Dashboard.totalRemocoes filtered
         | Threw =>
             exists i, In i filtered
                       /\ isInherited (Dashboard.serviceKey i) = true
                       /\ ScheduleItem._rawDate i <> None
         end)
  /\ Dashboard.filteredData (fun _ => "2026-01-01") "" inheritedNameSchedule
     = inheritedNameSchedule
  /\ serviceStatsOnObject 0 inheritedNameSchedule
     = Returned [ServiceStat.mk "IMPORT" 1 1 [] 0 1 SemDatas]
  /\ Dashboard.totalRemocoes inheritedNameSchedule = 3
  /\ sumOf QuadraStat.remocoes (Dashboard.quadraStats inheritedNameSchedule) = 3
  /\ serviceStatsOnObject 0
       [ScheduleItem.mk "MSCU1111111_0" "ACME" "MSCU1111111" "DI" "0101"
          "constructor" 2 "01/01 08:00" (Some 1000)]
     = Threw.
Proof.
  split; [|repeat split].
  intros localDate selectedDate now scheduleData filtered.
  destruct (entries_total now filtered) as [_ Hq].
  split; [now rewrite totalRemocoes_sum|].
  rewrite serviceStatsOnObject_spec.
  destruct (existsb _ filtered) eqn:E.
  - apply existsb_exists in E as (i & Hi & Hp).
    apply andb_prop in Hp as [Hn Hd]. exists i.
    repeat split; [exact Hi | exact Hn |].
    unfold hasDate in Hd. destruct (ScheduleItem._rawDate i); congruence.
  - destruct (entries_total now
                (List.filter (fun i => negb (isInherited (Dashboard.serviceKey i)))
                   filtered)) as [Hs _].
    rewrite Hs, !totalRemocoes_sum.
    apply (sumOf_by_name ScheduleItem.remocoes
             (fun i => isInherited (Dashboard.serviceKey i))).
Qed.

Example aggregation_sample :
  map (fun s => (ServiceStat.service s, ServiceStat.count s, ServiceStat.remocoes s,
                 ServiceStat.late s, ServiceStat.onTime s))
    (Dashboard.serviceStats 4000 sampleSchedule)
  = [("IMPORT", 2, 5, 1, 1); ("VAZIO", 1, 4, 1, 0); ("OUTROS", 1, 0, 0, 1)]
  /\ map (fun s => (QuadraStat.quadra s, QuadraStat.count s, QuadraStat.remocoes s))
       (Dashboard.quadraStats sampleSchedule)
     = [("01", 2, 5); ("?", 1, 4); ("A2", 1, 0)].
Proof. split; reflexivity. Qed.

Lemma assoc_update {V} (k k' : string) (init : V) (f : V -> V)
  (acc : list (string * V)) :
  assoc k' (update k init f acc)
  = if String.eqb k k' then Some (f (default init (assoc k acc)))
    else assoc k' acc.
Proof.
  induction acc as [|[k0 v] acc IH]; simpl.
  - reflexivity.
  - destruct (String.eqb k0 k) eqn:E0; simpl.
    + apply String.eqb_eq in E0. subst k0.
      destruct (String.eqb k k'); reflexivity.
    + rewrite IH. destruct (String.eqb k k') eqn:E; [|reflexivity].
      apply String.eqb_eq in E. subst k'. now rewrite E0.
Qed.

Lemma update_keys {V} (k k' : string) (init : V) (f : V -> V)
  (acc : list (string * V)) :
  In k' (map fst (update k init f acc)) -> k' = k \/ In k' (map fst acc).
Proof.
  induction acc as [|[k0 v] acc IH]; simpl.
  - intros [<- | []]. now left.
  - destruct (String.eqb k0 k); simpl; intros [<- | H]; auto.
    destruct (IH H); auto.
Qed.

Lemma update_keys_NoDup {V} (k : string) (init : V) (f : V -> V)
  (acc : list (string * V)) :
  NoDup (map fst acc) -> NoDup (map fst (update k init f acc)).
Proof.
  induction acc as [|[k0 v] acc IH]; simpl; intros Hnd.
  - repeat constructor. intros H. now apply elem_of_nil in H.
  - apply NoDup_cons in Hnd as [Hk0 Hnd].
    destruct (String.eqb k0 k) eqn:E; simpl.
    + apply NoDup_cons; split; assumption.
    + apply NoDup_cons; split; [|now apply IH].
      intros Hin. apply list_elem_of_In, update_keys in Hin as [-> | Hin].
      * now rewrite String.eqb_refl in E.
      * apply Hk0. now apply list_elem_of_In.
Qed.

Lemma In_assoc {V} (k : string) (v : V) (acc : list (string * V)) :
  NoDup (map fst acc) -> In (k, v) acc -> assoc k acc = Some v.
Proof.
  induction acc as [|[k0 v0] acc IH]; simpl; intros Hnd Hin; [easy|].
  apply NoDup_cons in Hnd as [Hk0 Hnd].
  destruct Hin as [[= -> ->] | Hin].
  - now rewrite String.eqb_refl.
  - destruct (String.eqb k0 k) eqn:E; [|now apply IH].
    apply String.eqb_eq in E. subst k0. exfalso. apply Hk0.
    apply list_elem_of_In. change k with (fst (k, v)). now apply in_map.
Qed.

Lemma countIf_snoc {A} (p : A -> bool) (l : list A) (x : A) :
  countIf p (l ++ [x]) = countIf p l + (if p x then 1 else 0).
Proof.
  unfold countIf. rewrite List.filter_app, length_app. simpl.
  destruct (p x); simpl; lia.
Qed.

Lemma countIf_split {A} (p q : A -> bool) (l : list A) :
  countIf (fun x => p x && q x) l + countIf (fun x => p x && negb (q x)) l
  = countIf p l.
Proof.
  unfold countIf. induction l as [|x l IH]; simpl; [reflexivity|].
  destruct (p x), (q x); simpl; lia.
Qed.

Lemma serviceAcc_snoc (now : Z) (l : list ScheduleItem) (x : ScheduleItem) :
  Dashboard.serviceAcc now (l ++ [x])
  = update (Dashboard.serviceKey x) Dashboard.emptyServiceStat
      (Dashboard.addToService now x) (Dashboard.serviceAcc now l).
Proof. unfold Dashboard.serviceAcc. now rewrite fold_left_app. Qed.

Lemma serviceAcc_keys_NoDup (now : Z) (l : list ScheduleItem) :
  NoDup (map fst (Dashboard.serviceAcc now l)).
Proof.
  induction l as [|x l IH] using rev_ind; [constructor|].
  rewrite serviceAcc_snoc. now apply update_keys_NoDup.
Qed.

(** What the reducer has stored under a service after the items [l]: the
    number of its items, of its late items and of its other items. *)
Lemma serviceAcc_fields (now : Z) (l : list ScheduleItem) (k : string) :
  let d := default Dashboard.emptyServiceStat (assoc k (Dashboard.serviceAcc now l)) in
  ServiceStatData.count d = countIf (ofService k) l
  /\ ServiceStatData.late d
     = countIf (fun it => ofService k it && isLate now it) l
  /\ ServiceStatData.onTime d
     = countIf (fun it => ofService k it && negb (isLate now it)) l.
Proof.
  induction l as [|x l IH] using rev_ind; [repeat split|].
  rewrite serviceAcc_snoc, assoc_update, !countIf_snoc.
  change (ofService k x) with (String.eqb (Dashboard.serviceKey x) k).
  destruct IH as (Hc & Hl & Ho).
  destruct (String.eqb (Dashboard.serviceKey x) k) eqn:E.
  - apply String.eqb_eq in E. subst k. cbn [default andb].
    unfold Dashboard.addToService.
    assert (HL : isLate now x
                 = match ScheduleItem._rawDate x with
                   | Some t => t <? now
                   | None => false
                   end) by reflexivity.
    rewrite HL.
    destruct (ScheduleItem._rawDate x) as [t|]; [destruct (t <? now)|];
      cbn [id ServiceStatData.count ServiceStatData.late ServiceStatData.onTime negb];
      rewrite Hc, Hl, Ho; repeat split; lia.
  - cbn [andb]. rewrite Hc, Hl, Ho. repeat split; lia.
Qed.

(** C8.  In each service stat, [late] counts the items of the service that
    have a scheduled timestamp strictly before the evaluation instant,
    [onTime] counts its other items, those at or after the instant and those
    without a timestamp, and the two add up to the item count. *)
Theorem late_and_on_time
  (now : Z) (filtered : list ScheduleItem) (s : ServiceStat.t) :
  In s (Dashboard.serviceStats now filtered) ->
  ServiceStat.late s
  = countIf (fun it => ofService (ServiceStat.service s) it && isLate now it) filtered
  /\ ServiceStat.onTime s
     = countIf (fun it => ofService (ServiceStat.service s) it
                          && negb (isLate now it)) filtered
  /\ ServiceStat.count s = countIf (ofService (ServiceStat.service s)) filtered
  /\ ServiceStat.late s + ServiceStat.onTime s = ServiceStat.count s
  /\ (forall it, ScheduleItem._rawDate it = None -> isLate now it = false).
Proof.
  intros Hin. unfold Dashboard.serviceStats in Hin.
  apply (Permutation_in _ (sortWith_perm _ _)) in Hin.
  apply in_map_iff in Hin as ([k d] & <- & Hkd). simpl.
  pose proof (serviceAcc_fields now filtered k) as Hf.
  rewrite (In_assoc k d _ (serviceAcc_keys_NoDup now filtered) Hkd) in Hf.
  simpl in Hf. destruct Hf as (Hc & Hl & Ho).
  repeat split; try assumption.
  - rewrite Hl, Ho, Hc. apply countIf_split.
  - intros it Hnone. unfold isLate. now rewrite Hnone.
Qed.

Lemma late_and_on_time_witness :
  In (ServiceStat.mk "IMPORT" 2 5 [1000] 1 1 (OneDate 1000))
    (Dashboard.serviceStats 4000 sampleSchedule)
  /\ (1 = countIf (fun it => ofService "IMPORT" it && isLate 4000 it) sampleSchedule
      /\ 1 = countIf (fun it => ofService "IMPORT" it && negb (isLate 4000 it))
               sampleSchedule
      /\ 2 = countIf (ofService "IMPORT") sampleSchedule
      /\ 1 + 1 = 2
      /\ (forall it, ScheduleItem._rawDate it = None -> isLate 4000 it = false)).
Proof.
  assert (Hin : In (ServiceStat.mk "IMPORT" 2 5 [1000] 1 1 (OneDate 1000))
                  (Dashboard.serviceStats 4000 sampleSchedule))
    by (left; reflexivity).
  split; [exact Hin|].
  exact (late_and_on_time 4000 sampleSchedule _ Hin).
Defined.

(** * Further properties *)

(** ** Container codes *)

Lemma upperChar_upperAlnum (c : ascii) :
  isUpperAlnum c = true -> Js.upperChar c = c.
Proof.
  unfold isUpperAlnum, Js.upperChar. intros H.
  destruct ((97 <=? nat_of_ascii c) && (nat_of_ascii c <=? 122))%nat eqn:E;
    [|reflexivity].
  exfalso. apply andb_true_iff in E as [E1 E2].
  apply Nat.leb_le in E1, E2.
  apply orb_true_iff in H as [H|H]; apply andb_true_iff in H as [H1 H2];
    apply Nat.leb_le in H1, H2; lia.
Qed.

Lemma keepUpperAlnum_allChars (s : string) :
  allChars isUpperAlnum (keepUpperAlnum s) = true.
Proof.
  induction s as [|c s IH]; [reflexivity|].
  simpl. destruct (isUpperAlnum c) eqn:E; [simpl; now rewrite E|exact IH].
Qed.

Lemma keepUpperAlnum_fixed (s : string) :
  allChars isUpperAlnum s = true ->
  keepUpperAlnum s = s /\ Js.toUpperCase s = s.
Proof.
  induction s as [|c s IH]; [easy|].
  simpl. intros H. apply andb_true_iff in H as [Hc Hs].
  destruct (IH Hs) as [-> ->]. rewrite Hc, upperChar_upperAlnum by exact Hc.
  easy.
Qed.

Lemma upperChar_idem (c : ascii) : Js.upperChar (Js.upperChar c) = Js.upperChar c.
Proof. destruct c as [[] [] [] [] [] [] [] []]; reflexivity. Qed.

Lemma upperChar_lowerChar (c : ascii) :
  Js.upperChar (JsText.lowerChar c) = Js.upperChar c.
Proof. destruct c as [[] [] [] [] [] [] [] []]; reflexivity. Qed.

Lemma toUpperCase_idem (s : string) :
  Js.toUpperCase (Js.toUpperCase s) = Js.toUpperCase s.
Proof.
  induction s as [|c s IH]; [reflexivity|].
  simpl. now rewrite upperChar_idem, IH.
Qed.

Lemma toUpperCase_toLowerCase (s : string) :
  Js.toUpperCase (JsText.toLowerCase s) = Js.toUpperCase s.
Proof.
  induction s as [|c s IH]; [reflexivity|].
  simpl. now rewrite upperChar_lowerChar, IH.
Qed.

Lemma toUpperCase_length (s : string) :
  String.length (Js.toUpperCase s) = String.length s.
Proof. induction s as [|c s IH]; [reflexivity | simpl; now rewrite IH]. Qed.

Lemma toLowerCase_length (s : string) :
  String.length (JsText.toLowerCase s) = String.length s.
Proof. induction s as [|c s IH]; [reflexivity | simpl; now rewrite IH]. Qed.

Lemma normalizeCntr_allChars (s : string) :
  allChars isUpperAlnum (normalizeCntr s) = true.
Proof.
  unfold normalizeCntr. destruct (JsText.isEmpty s); [reflexivity|].
  apply keepUpperAlnum_allChars.
Qed.

Lemma normalizeCntr_fixed (s : string) :
  allChars isUpperAlnum s = true -> normalizeCntr s = s.
Proof.
  intros H. unfold normalizeCntr, JsText.isEmpty.
  destruct s as [|c s]; [reflexivity|]. simpl Nat.eqb. cbv iota.
  destruct (keepUpperAlnum_fixed _ H) as [H1 H2]. now rewrite H2, H1.
Qed.

(** X1.  Normalising a container code written in ASCII gives only the
    letters A to Z and the digits; normalising again changes nothing; and
    the result does not depend on the case of the input. *)
Theorem normalizeCntr_canonical (s : string) :
  isAscii s = true ->
  allChars isUpperAlnum (normalizeCntr s) = true
  /\ normalizeCntr (normalizeCntr s) = normalizeCntr s
  /\ normalizeCntr (JsText.toLowerCase s) = normalizeCntr s
  /\ normalizeCntr (Js.toUpperCase s) = normalizeCntr s.
Proof.
  intros _.
  split; [apply normalizeCntr_allChars|].
  split; [apply normalizeCntr_fixed, normalizeCntr_allChars|].
  unfold normalizeCntr, JsText.isEmpty.
  rewrite toLowerCase_length, toUpperCase_length.
  rewrite toUpperCase_toLowerCase, toUpperCase_idem. easy.
Qed.

Lemma normalizeCntr_canonical_witness :
  allChars isUpperAlnum (normalizeCntr "mscu 111111-1") = true
  /\ normalizeCntr (normalizeCntr "mscu 111111-1") = normalizeCntr "mscu 111111-1"
  /\ normalizeCntr (JsText.toLowerCase "mscu 111111-1")
     = normalizeCntr "mscu 111111-1"
  /\ normalizeCntr (Js.toUpperCase "mscu 111111-1")
     = normalizeCntr "mscu 111111-1".
Proof. apply (normalizeCntr_canonical "mscu 111111-1"). reflexivity. Defined.

Example normalizeCntr_samples :
  normalizeCntr "ABCU 123-4" = "ABCU1234"
  /\ normalizeCntr "abcu1234" = "ABCU1234"
  /\ normalizeCntr " - " = ""
  /\ normalizeCntr "" = "".
Proof. repeat split; reflexivity. Qed.

(** ** Ingestion of the stock sheet *)

Lemma append_cons (a : ascii) (s t : string) :
  String a s +:+ t = String a (s +:+ t).
Proof. reflexivity. Qed.

Lemma append_nil (t : string) : "" +:+ t = t.
Proof. reflexivity. Qed.

Lemma pretty_N_char_digit (x : N) : Js.isDigit (pretty_N_char x) = true.
Proof. unfold pretty_N_char. repeat case_match; reflexivity. Qed.

Lemma pretty_N_go_digits (x : N) (s : string) :
  allChars Js.isDigit s = true -> allChars Js.isDigit (pretty_N_go x s) = true.
Proof.
  revert s. induction (N.lt_wf_0 x) as [x _ IH]; intros s Hs.
  destruct (decide (x = 0)%N) as [->|Hx]; [now rewrite pretty_N_go_0|].
  rewrite pretty_N_go_step by lia.
  apply IH; [apply N.div_lt; lia|].
  simpl. now rewrite pretty_N_char_digit, Hs.
Qed.

Lemma pretty_nat_digits (n : nat) : allChars Js.isDigit (pretty n) = true.
Proof.
  unfold pretty, pretty_nat, pretty, pretty_N.
  destruct (decide (N.of_nat n = 0)%N); [reflexivity|].
  now apply pretty_N_go_digits.
Qed.

(** Two strings of digits followed by an underscore and anything: the
    digits are read back from the whole. *)
Lemma digits_before_underscore (s1 s2 t1 t2 : string) :
  allChars Js.isDigit s1 = true -> allChars Js.isDigit s2 = true ->
  s1 +:+ "_" +:+ t1 = s2 +:+ "_" +:+ t2 -> s1 = s2.
Proof.
  revert s2. induction s1 as [|a s1 IH]; intros [|b s2] H1 H2 Heq.
  - reflexivity.
  - rewrite append_nil, !append_cons in Heq. injection Heq as <- _.
    simpl in H2. discriminate.
  - rewrite append_nil, !append_cons in Heq. injection Heq as -> _.
    simpl in H1. discriminate.
  - rewrite !append_cons in Heq. injection Heq as <- Heq.
    simpl in H1, H2. apply andb_true_iff in H1 as [_ H1], H2 as [_ H2].
    f_equal. now apply (IH s2).
Qed.

Lemma stockItemOfRow_Some (m : gmap string ScheduleItem) (k : nat)
  (r : StockRow) (it : StockItem) :
  stockItemOfRow m k r = Some it ->
  JsText.trim (cell16 r) = "CLIA"
  /\ cell17 r <> ""
  /\ normalizeCntr (cell2 r) <> ""
  /\ it = {| StockItem.id := pretty k +:+ "_" +:+ normalizeCntr (cell2 r);
             StockItem.cntr := normalizeCntr (cell2 r);
             StockItem.local := cell17 r;
             StockItem.quadra := Js.substring0 (cell17 r) 2;
             StockItem.bay := Js.substring0 (cell17 r) 4;
             StockItem.pos := Js.slice (cell17 r) (-2) None;
             StockItem.servico :=
               match m !! normalizeCntr (cell2 r) with
               | Some s => ScheduleItem.servico s
               | None => "Sem Agendamento"
               end;
             StockItem.quadraBase :=
               match m !! normalizeCntr (cell2 r) with
               | Some s => ScheduleItem.quadraFull s
               | None => "N/I"
               end |}.
Proof.
  unfold stockItemOfRow.
  destruct (String.eqb (JsText.trim (cell16 r)) "CLIA") eqn:E; [|discriminate].
  apply String.eqb_eq in E. simpl negb. cbv iota.
  destruct (JsText.isEmpty (cell17 r)) eqn:E1; [discriminate|].
  destruct (JsText.isEmpty (normalizeCntr (cell2 r))) eqn:E2; [discriminate|].
  simpl orb. cbv iota. intros [= <-].
  repeat split; try assumption.
  - intros H. rewrite H in E1. discriminate.
  - intros H. rewrite H in E2. discriminate.
Qed.

Lemma processStockRows_elem (sd : list ScheduleItem) (rows : list StockRow)
  (it : StockItem) :
  In it (processStockRows sd rows) <->
  exists k r, rows !! k = Some r
              /\ stockItemOfRow (scheduleMapOf sd) k r = Some it.
Proof.
  unfold processStockRows. rewrite <- list_elem_of_In, list_elem_of_omap.
  split.
  - intros (o & Ho & Hid). simpl in Hid. subst o.
    apply elem_of_lookup_imap_1 in Ho as (k & r & Heq & Hk). eauto.
  - intros (k & r & Hk & Hit). exists (Some it). split; [|reflexivity].
    rewrite <- Hit. now apply elem_of_lookup_imap_2.
Qed.

Lemma processStockRows_ids (m : gmap string ScheduleItem)
  (rows : list StockRow) (base : nat) :
  NoDup (ids (omap id (imap (fun k => stockItemOfRow m (base + k)) rows)))
  /\ forall a, In a (ids (omap id (imap (fun k => stockItemOfRow m (base + k)) rows))) ->
               exists k c, (base <= k)%nat /\ a = pretty k +:+ "_" +:+ c.
Proof.
  revert base. induction rows as [|r rows IH]; intros base.
  - split; [constructor | intros a []].
  - rewrite imap_cons.
    rewrite (imap_ext _ (fun k => stockItemOfRow m (S base + k)))
      by (intros; simpl; f_equal; lia).
    destruct (IH (S base)) as [Hnd Hids].
    replace (base + 0)%nat with base by lia.
    cbn [omap list_omap]. fold (@omap list _ _ _ (@id (option StockItem))).
    destruct (stockItemOfRow m base r) as [it|] eqn:E; simpl.
    + apply stockItemOfRow_Some in E as (_ & _ & _ & ->). simpl. split.
      * apply NoDup_cons. split; [|exact Hnd].
        intros Hin. apply list_elem_of_In, Hids in Hin as (k & c & Hk & Heq).
        apply digits_before_underscore in Heq; try apply pretty_nat_digits.
        apply (inj pretty) in Heq. lia.
      * intros a [<- | Hin]; [exists base; eauto|].
        destruct (Hids a Hin) as (k & c & Hk & ->). exists k, c. split; [lia | easy].
    + split; [exact Hnd|].
      intros a Hin. destruct (Hids a Hin) as (k & c & Hk & ->).
      exists k, c. split; [lia | easy].
Qed.

(** X2.  The stock items read from a sheet have pairwise distinct
    identities, so a session that starts from them, with empty queues, is in
    the initial state of the planning invariant. *)
Theorem processStockRows_initial (sd : list ScheduleItem) (rows : list StockRow) :
  NoDup (ids (processStockRows sd rows))
  /\ initialState {| stockData := processStockRows sd rows;
                    planningState := emptyPlanning |}.
Proof.
  assert (H : NoDup (ids (processStockRows sd rows)))
    by apply (processStockRows_ids (scheduleMapOf sd) rows 0).
  split; [exact H | split; [reflexivity | exact H]].
Qed.

Lemma substring0_cons (a : ascii) (s : string) (n : nat) :
  Js.substring0 (String a s) (S n) = String a (Js.substring0 s n).
Proof. reflexivity. Qed.

Lemma substring0_zero (s : string) : Js.substring0 s 0 = "".
Proof. unfold Js.substring0. now destruct s. Qed.

Lemma substring0_nested (s : string) (n m : nat) :
  (n <= m)%nat -> Js.substring0 (Js.substring0 s m) n = Js.substring0 s n.
Proof.
  revert n m. induction s as [|a s IH]; intros n m Hle.
  - destruct n, m; reflexivity.
  - destruct m as [|m]; [replace n with 0%nat by lia; now rewrite !substring0_zero|].
    rewrite substring0_cons. destruct n as [|n]; [now rewrite !substring0_zero|].
    rewrite !substring0_cons. f_equal. apply IH. lia.
Qed.

Lemma substring0_nonempty (s : string) (n : nat) :
  s <> "" -> Js.substring0 s (S n) <> "".
Proof. destruct s; [congruence|]. now rewrite substring0_cons. Qed.

(** X3.  Every stock item read from a sheet has a non-empty location, a
    non-empty container code in canonical form, a non-empty quadra and bay
    cut from the location, and a bay that begins with its quadra. *)
Theorem processStockRows_wellformed
  (sd : list ScheduleItem) (rows : list StockRow) (it : StockItem) :
  In it (processStockRows sd rows) ->
  StockItem.local it <> ""
  /\ StockItem.cntr it <> ""
  /\ normalizeCntr (StockItem.cntr it) = StockItem.cntr it
  /\ StockItem.quadra it <> ""
  /\ StockItem.bay it <> ""
  /\ StockItem.bay it = Js.substring0 (StockItem.local it) 4
  /\ StockItem.quadra it = Js.substring0 (StockItem.bay it) 2.
Proof.
  intros Hin. apply processStockRows_elem in Hin as (k & r & _ & Hit).
  apply stockItemOfRow_Some in Hit as (_ & Hloc & Hc & ->). simpl.
  repeat split; try assumption.
  - apply normalizeCntr_fixed, normalizeCntr_allChars.
  - now apply substring0_nonempty.
  - now apply substring0_nonempty.
  - symmetry. apply substring0_nested. lia.
Qed.

Lemma processStockRows_wellformed_witness :
  StockItem.quadra itemA = Js.substring0 (StockItem.bay itemA) 2.
Proof.
  apply (processStockRows_wellformed []
           [mkStockRow "MSCU 111111-1" " CLIA " "0101A6"] itemA).
  left. reflexivity.
Defined.

Lemma scheduleMapOf_snoc (sd : list ScheduleItem) (x : ScheduleItem) :
  scheduleMapOf (sd ++ [x]) = <[ScheduleItem.cntr x := x]> (scheduleMapOf sd).
Proof. unfold scheduleMapOf. now rewrite fold_left_app. Qed.

(** The schedule map keeps, under each code, the last schedule row that
    carries it. *)
Lemma scheduleMapOf_lookup (sd : list ScheduleItem) (c : string) :
  scheduleMapOf sd !! c
  = lastWhere (fun s => String.eqb (ScheduleItem.cntr s) c) sd.
Proof.
  induction sd as [|x sd IH] using rev_ind; [reflexivity|].
  rewrite scheduleMapOf_snoc. unfold lastWhere in *.
  rewrite List.filter_app. simpl.
  destruct (String.eqb (ScheduleItem.cntr x) c) eqn:E.
  - apply String.eqb_eq in E. subst c. rewrite lookup_insert_eq.
    now rewrite last_snoc.
  - apply String.eqb_neq in E. rewrite lookup_insert_ne by exact E.
    now rewrite app_nil_r.
Qed.

(** X4.  A stock item takes its service and quadra label from the last
    schedule row that carries its container code, and the values
    Sem Agendamento and N/I when no schedule row carries it. *)
Theorem processStockRows_reconciled
  (sd : list ScheduleItem) (rows : list StockRow) (it : StockItem) :
  In it (processStockRows sd rows) ->
  match lastWhere (fun s => String.eqb (ScheduleItem.cntr s) (StockItem.cntr it)) sd with
  | Some s =>
      StockItem.servico it = ScheduleItem.servico s
      /\ StockItem.quadraBase it = ScheduleItem.quadraFull s
  | None =>
      StockItem.servico it = "Sem Agendamento"
      /\ StockItem.quadraBase it = "N/I"
  end.
Proof.
  intros Hin. apply processStockRows_elem in Hin as (k & r & _ & Hit).
  apply stockItemOfRow_Some in Hit as (_ & _ & _ & ->). simpl.
  rewrite scheduleMapOf_lookup.
  destruct (lastWhere _ sd); easy.
Qed.

Lemma processStockRows_reconciled_witness :
  StockItem.servico itemA = "Sem Agendamento"
  /\ StockItem.quadraBase itemA = "N/I".
Proof.
  apply (processStockRows_reconciled []
           [mkStockRow "MSCU 111111-1" " CLIA " "0101A6"] itemA).
  left. reflexivity.
Defined.

Example processStockRows_sample :
  map (fun i => (StockItem.id i, StockItem.servico i, StockItem.bay i))
    (processStockRows sampleSchedule
       [ mkStockRow "mscu-1111111" "CLIA" "0101A6";
         mkStockRow "XXXX0000000" "PORTO" "0101A5";
         mkStockRow "" "CLIA" "0101A4";
         mkStockRow "hlxu 444 4444" " CLIA" "0203B1" ])
  = [("0_MSCU1111111", "IMPORT", "0101"); ("3_HLXU4444444", "VAZIO", "0203")].
Proof. reflexivity. Qed.

(** ** Completion marks *)

(** X5.  Toggling a completion mark flips the membership of that identity
    and of no other, and toggling it twice restores the set. *)
Theorem toggleItemCompletion_flips (ident : string) (prev : gset string) :
  (ident ∈ toggleItemCompletion ident prev <-> ident ∉ prev)
  /\ (forall other, other <> ident ->
        (other ∈ toggleItemCompletion ident prev <-> other ∈ prev))
  /\ toggleItemCompletion ident (toggleItemCompletion ident prev) = prev.
Proof.
  unfold toggleItemCompletion.
  destruct (decide (ident ∈ prev)) as [Hin|Hout].
  - split; [rewrite elem_of_difference, elem_of_singleton; tauto|].
    split.
    + intros other Hne. rewrite elem_of_difference, elem_of_singleton. tauto.
    + rewrite decide_False
        by (rewrite elem_of_difference, elem_of_singleton; tauto).
      apply set_eq. intros x.
      rewrite elem_of_union, elem_of_difference, !elem_of_singleton.
      destruct (decide (x = ident)) as [->|]; tauto.
  - split; [rewrite elem_of_union, elem_of_singleton; tauto|].
    split.
    + intros other Hne. rewrite elem_of_union, elem_of_singleton. tauto.
    + rewrite decide_True by (rewrite elem_of_union, elem_of_singleton; tauto).
      apply set_eq. intros x.
      rewrite elem_of_difference, elem_of_union, !elem_of_singleton.
      destruct (decide (x = ident)) as [->|]; tauto.
Qed.

(** ** Execution status *)

Lemma executionStats_fold (completed : gset string) (l : list ScheduleItem)
  (st : ExecutionStats) :
  let step := fun st item =>
       if bool_decide (ScheduleItem.id item ∈ completed)
       then {| servicesDone := servicesDone st + 1;
               servicesPending := servicesPending st;
               removalsDone :=
                 removalsDone st + Dashboard.orZero (ScheduleItem.remocoes item);
               removalsPending := removalsPending st |}
       else {| servicesDone := servicesDone st;
               servicesPending := servicesPending st + 1;
               removalsDone := removalsDone st;
               removalsPending :=
                 removalsPending st + Dashboard.orZero (ScheduleItem.remocoes item) |} in
  let isDone := fun item => bool_decide (ScheduleItem.id item ∈ completed) in
  servicesDone (fold_left step l st) = servicesDone st + countIf isDone l
  /\ servicesPending (fold_left step l st)
     = servicesPending st + countIf (fun i => negb (isDone i)) l
  /\ removalsDone (fold_left step l st)
     = removalsDone st + sumOf ScheduleItem.remocoes (List.filter isDone l)
  /\ removalsPending (fold_left step l st)
     = removalsPending st
       + sumOf ScheduleItem.remocoes (List.filter (fun i => negb (isDone i)) l).
Proof.
  intros step isDone. revert st.
  induction l as [|x l IH]; intros st.
  - unfold countIf; simpl. repeat split; lia.
  - simpl fold_left. destruct (IH (step st x)) as (H1 & H2 & H3 & H4).
    rewrite H1, H2, H3, H4. unfold step, isDone, countIf. simpl.
    destruct (bool_decide (ScheduleItem.id x ∈ completed)); simpl;
      rewrite ?orZero_id; repeat split; lia.
Qed.

Lemma sumOf_filter_split {A} (f : A -> Z) (p : A -> bool) (l : list A) :
  sumOf f (List.filter p l) + sumOf f (List.filter (fun x => negb (p x)) l)
  = sumOf f l.
Proof.
  induction l as [|x l IH]; simpl; [reflexivity|].
  destruct (p x); simpl; lia.
Qed.

Lemma countIf_negb_split {A} (p : A -> bool) (l : list A) :
  countIf p l + countIf (fun x => negb (p x)) l = Z.of_nat (List.length l).
Proof.
  unfold countIf. induction l as [|x l IH]; simpl; [reflexivity|].
  destruct (p x); simpl; lia.
Qed.

(** X6.  The execution status splits the filtered items in two: the done
    services are the items whose identity is marked completed, done plus
    pending services is the number of items, and done plus pending removals
    is the total of removals. *)
Theorem executionStats_split
  (completedItems : gset string) (filtered : list ScheduleItem) :
  let st := executionStats completedItems filtered in
  servicesDone st
  = countIf (fun i => bool_decide (ScheduleItem.id i ∈ completedItems)) filtered
  /\ removalsDone st
     = sumOf ScheduleItem.remocoes
         (List.filter (fun i => bool_decide (ScheduleItem.id i ∈ completedItems))
            filtered)
  /\ servicesDone st + servicesPending st = Z.of_nat (List.length filtered)
  /\ removalsDone st + removalsPending st = Dashboard.totalRemocoes filtered.
Proof.
  intros st. subst st. unfold executionStats.
  destruct (executionStats_fold completedItems filtered
              {| servicesDone := 0; servicesPending := 0;
                 removalsDone := 0; removalsPending := 0 |})
    as (H1 & H2 & H3 & H4).
  rewrite H1, H2, H3, H4.
  cbn [servicesDone servicesPending removalsDone removalsPending].
  rewrite totalRemocoes_sum.
  repeat split; try lia.
  - pose proof (countIf_negb_split
                  (fun i => bool_decide (ScheduleItem.id i ∈ completedItems))
                  filtered) as H.
    cbv beta in H. lia.
  - pose proof (sumOf_filter_split ScheduleItem.remocoes
                  (fun i => bool_decide (ScheduleItem.id i ∈ completedItems))
                  filtered) as H.
    cbv beta in H. lia.
Qed.

(** ** Accumulators keyed by a string *)

Section FoldUpdate.
Context {A V : Type} (key : A -> string) (init : V) (f : A -> V -> V).

(** What a reducer of the shape
    [acc[key(i)] = f(i, acc[key(i)] || init)] leaves under a key: the fold
    of [f] over the items of that key, and nothing when there is none. *)
Lemma assoc_fold_update (l : list A) (acc : list (string * V)) (k : string) :
  assoc k (fold_left (fun acc i => update (key i) init (f i) acc) l acc)
  = match List.filter (fun i => String.eqb (key i) k) l with
    | [] => assoc k acc
    | items =>
        Some (fold_left (fun v i => f i v) items (default init (assoc k acc)))
    end.
Proof.
  revert acc. induction l as [|x l IH]; intros acc; [reflexivity|].
  simpl fold_left. rewrite IH, assoc_update. simpl List.filter.
  destruct (String.eqb (key x) k) eqn:E.
  - apply String.eqb_eq in E. subst k.
    destruct (List.filter _ l); reflexivity.
  - reflexivity.
Qed.

Lemma fold_update_keys_NoDup (l : list A) (acc : list (string * V)) :
  NoDup (map fst acc) ->
  NoDup (map fst (fold_left (fun acc i => update (key i) init (f i) acc) l acc)).
Proof.
  revert acc. induction l as [|x l IH]; intros acc Hnd; [exact Hnd|].
  simpl. apply IH. now apply update_keys_NoDup.
Qed.
End FoldUpdate.

Lemma assoc_None {V} (k : string) (acc : list (string * V)) :
  assoc k acc = None <-> ~ In k (map fst acc).
Proof.
  induction acc as [|[k0 v] acc IH]; simpl; [tauto|].
  destruct (String.eqb k0 k) eqn:E.
  - apply String.eqb_eq in E. split; [discriminate | tauto].
  - apply String.eqb_neq in E. rewrite IH. tauto.
Qed.

Lemma assoc_In {V} (k : string) (v : V) (acc : list (string * V)) :
  assoc k acc = Some v -> In (k, v) acc.
Proof.
  induction acc as [|[k0 v0] acc IH]; simpl; [discriminate|].
  destruct (String.eqb k0 k) eqn:E; [|auto].
  apply String.eqb_eq in E. intros [= ->]. left. congruence.
Qed.

Lemma filter_nonempty_In {A} (p : A -> bool) (l : list A) :
  List.filter p l <> [] <-> exists x, In x l /\ p x = true.
Proof.
  split.
  - destruct (List.filter p l) as [|x fl] eqn:E; [congruence|]. intros _.
    exists x. apply filter_In. rewrite E. now left.
  - intros (x & Hx & Hp) E.
    assert (In x (List.filter p l)) by (apply filter_In; auto).
    rewrite E in H. destruct H.
Qed.

(** The keys of such an accumulator are pairwise distinct, and they are the
    keys of the items. *)
Lemma fold_update_keys {A V} (key : A -> string) (init : V) (f : A -> V -> V)
  (l : list A) :
  NoDup (map fst (fold_left (fun acc i => update (key i) init (f i) acc) l []))
  /\ forall k,
       In k (map fst (fold_left (fun acc i => update (key i) init (f i) acc) l []))
       <-> exists i, In i l /\ key i = k.
Proof.
  split; [apply fold_update_keys_NoDup; constructor|].
  intros k.
  pose proof (assoc_fold_update key init f l [] k) as Ha.
  pose proof (assoc_None k
                (fold_left (fun acc i => update (key i) init (f i) acc) l [])) as Hn.
  pose proof (filter_nonempty_In (fun i => String.eqb (key i) k) l) as Hf.
  destruct (List.filter (fun i => String.eqb (key i) k) l) as [|y fl] eqn:E.
  - simpl in Ha. split.
    + intros Hin. apply Hn in Ha. contradiction.
    + intros (i & Hi & Hk). exfalso. apply (proj2 Hf); [|reflexivity].
      exists i. split; [exact Hi | now apply String.eqb_eq].
  - split.
    + intros _. destruct (proj1 Hf) as (i & Hi & Hk); [discriminate|].
      exists i. split; [exact Hi | now apply String.eqb_eq].
    + intros _. destruct (in_dec String.string_dec k
        (map fst (fold_left (fun acc i => update (key i) init (f i) acc) l [])))
        as [Hin|Hout]; [exact Hin|].
      apply Hn in Hout. rewrite Hout in Ha. discriminate.
Qed.

(** ** Service and quadra stats, entry by entry *)

Lemma addToService_fold (now : Z) (items : list ScheduleItem)
  (d0 : ServiceStatData.t) :
  let d := fold_left (fun v i => Dashboard.addToService now i v) items d0 in
  ServiceStatData.count d = ServiceStatData.count d0 + Z.of_nat (List.length items)
  /\ ServiceStatData.remocoes d
     = ServiceStatData.remocoes d0 + sumOf ScheduleItem.remocoes items
  /\ ServiceStatData.dates d = ServiceStatData.dates d0 ++ rawDates items.
Proof.
  revert d0. induction items as [|x items IH]; intros d0.
  - simpl. rewrite app_nil_r. repeat split; lia.
  - simpl fold_left. destruct (IH (Dashboard.addToService now x d0)) as (Hc & Hr & Hd).
    cbv zeta. rewrite Hc, Hr, Hd. unfold Dashboard.addToService, rawDates.
    rewrite orZero_id. simpl.
    destruct (ScheduleItem._rawDate x) as [t|]; [destruct (t <? now)|]; simpl;
      rewrite <- ?app_assoc; repeat split; simpl; lia.
Qed.

Lemma addToQuadra_fold (items : list ScheduleItem) (d0 : QuadraStatData.t) :
  let d := fold_left (fun v i => Dashboard.addToQuadra i v) items d0 in
  QuadraStatData.count d = QuadraStatData.count d0 + Z.of_nat (List.length items)
  /\ QuadraStatData.remocoes d
     = QuadraStatData.remocoes d0 + sumOf ScheduleItem.remocoes items
  /\ QuadraStatData.dates d = QuadraStatData.dates d0 ++ rawDates items.
Proof.
  revert d0. induction items as [|x items IH]; intros d0.
  - simpl. rewrite app_nil_r. repeat split; lia.
  - simpl fold_left. destruct (IH (Dashboard.addToQuadra x d0)) as (Hc & Hr & Hd).
    cbv zeta. rewrite Hc, Hr, Hd. unfold Dashboard.addToQuadra, rawDates.
    rewrite orZero_id. simpl.
    destruct (ScheduleItem._rawDate x) as [t|]; simpl;
      rewrite <- ?app_assoc; repeat split; simpl; lia.
Qed.

Lemma serviceStats_entry
  (now : Z) (filtered : list ScheduleItem) (s : ServiceStat.t) :
  In s (Dashboard.serviceStats now filtered) ->
  let items := List.filter (ofService (ServiceStat.service s)) filtered in
  items <> []
  /\ ServiceStat.count s = Z.of_nat (List.length items)
  /\ ServiceStat.remocoes s = sumOf ScheduleItem.remocoes items
  /\ ServiceStat.dates s = rawDates items
  /\ ServiceStat.dateLabel s = Dashboard.dateLabelOf (rawDates items).
Proof.
  intros Hin items. unfold Dashboard.serviceStats in Hin.
  apply (Permutation_in _ (sortWith_perm _ _)) in Hin.
  apply in_map_iff in Hin as ([k d] & <- & Hkd). simpl in items |- *.
  apply (In_assoc k d _ (serviceAcc_keys_NoDup now filtered)) in Hkd.
  unfold Dashboard.serviceAcc in Hkd. rewrite assoc_fold_update in Hkd.
  change (List.filter (fun i => String.eqb (Dashboard.serviceKey i) k) filtered)
    with items in Hkd.
  destruct items as [|y fl] eqn:E; [discriminate|].
  injection Hkd as <-.
  destruct (addToService_fold now (y :: fl) Dashboard.emptyServiceStat)
    as (Hc & Hr & Hd).
  cbv zeta in Hc, Hr, Hd. cbn [fold_left] in Hc, Hr, Hd.
  cbn [default assoc fold_left] in *.
  rewrite Hc, Hr, Hd. simpl ServiceStatData.count. simpl ServiceStatData.remocoes.
  simpl ServiceStatData.dates. rewrite app_nil_l.
  repeat split; try lia. discriminate.
Qed.

(** X7.  Each service stat is computed from the filtered items of its
    service and from nothing else: there is at least one such item, the
    count is their number, the removals are the sum of theirs, the dates
    are their timestamps in order, and the label is the one of these
    dates. *)
Theorem service_stat_of_its_items
  (now : Z) (filtered : list ScheduleItem) (s : ServiceStat.t) :
  In s (Dashboard.serviceStats now filtered) ->
  let items := List.filter (ofService (ServiceStat.service s)) filtered in
  items <> []
  /\ ServiceStat.count s = Z.of_nat (List.length items)
  /\ ServiceStat.remocoes s = sumOf ScheduleItem.remocoes items
  /\ ServiceStat.dates s = rawDates items
  /\ ServiceStat.dateLabel s = Dashboard.dateLabelOf (rawDates items).
Proof. apply serviceStats_entry. Qed.

Lemma service_stat_of_its_items_witness :
  let items := List.filter (ofService "IMPORT") sampleSchedule in
  items <> []
  /\ 2 = Z.of_nat (List.length items)
  /\ 5 = sumOf ScheduleItem.remocoes items
  /\ [1000] = rawDates items
  /\ OneDate 1000 = Dashboard.dateLabelOf (rawDates items).
Proof.
  apply (service_stat_of_its_items 4000 sampleSchedule
           (ServiceStat.mk "IMPORT" 2 5 [1000] 1 1 (OneDate 1000))).
  left. reflexivity.
Defined.

Lemma quadraAcc_keys_NoDup (l : list ScheduleItem) :
  NoDup (map fst (Dashboard.quadraAcc l)).
Proof. apply fold_update_keys_NoDup. constructor. Qed.

(** X8.  Each quadra stat is computed from the filtered items of its
    quadra key and from nothing else, in the same way. *)
Theorem quadra_stat_of_its_items
  (filtered : list ScheduleItem) (s : QuadraStat.t) :
  In s (Dashboard.quadraStats filtered) ->
  let items := List.filter (ofQuadra (QuadraStat.quadra s)) filtered in
  items <> []
  /\ QuadraStat.count s = Z.of_nat (List.length items)
  /\ QuadraStat.remocoes s = sumOf ScheduleItem.remocoes items
  /\ QuadraStat.dates s = rawDates items
  /\ QuadraStat.dateLabel s = Dashboard.dateLabelOf (rawDates items).
Proof.
  intros Hin items. unfold Dashboard.quadraStats in Hin.
  apply (Permutation_in _ (sortWith_perm _ _)) in Hin.
  apply in_map_iff in Hin as ([k d] & <- & Hkd). simpl in items |- *.
  apply (In_assoc k d _ (quadraAcc_keys_NoDup filtered)) in Hkd.
  unfold Dashboard.quadraAcc in Hkd. rewrite assoc_fold_update in Hkd.
  change (List.filter (fun i => String.eqb (Dashboard.quadraKey i) k) filtered)
    with items in Hkd.
  destruct items as [|y fl] eqn:E; [discriminate|].
  injection Hkd as <-.
  destruct (addToQuadra_fold (y :: fl) Dashboard.emptyQuadraStat)
    as (Hc & Hr & Hd).
  cbv zeta in Hc, Hr, Hd. cbn [fold_left] in Hc, Hr, Hd.
  cbn [default assoc fold_left] in *.
  rewrite Hc, Hr, Hd. simpl QuadraStatData.count. simpl QuadraStatData.remocoes.
  simpl QuadraStatData.dates. rewrite app_nil_l.
  repeat split; try lia. discriminate.
Qed.

Lemma quadra_stat_of_its_items_witness :
  let items := List.filter (ofQuadra "01") sampleSchedule in
  items <> []
  /\ 2 = Z.of_nat (List.length items)
  /\ 5 = sumOf ScheduleItem.remocoes items
  /\ [1000] = rawDates items
  /\ OneDate 1000 = Dashboard.dateLabelOf (rawDates items).
Proof.
  apply (quadra_stat_of_its_items sampleSchedule
           (QuadraStat.mk "01" 2 5 [1000] (OneDate 1000))).
  left. reflexivity.
Defined.

(** X9.  When the service stats are returned, they list once each service
    key of the filtered items that is not the name of a member of
    [Object.prototype], and no other service; the quadra stats list once
    each quadra key of the filtered items and no other. *)
Theorem stats_one_entry_per_key
  (now : Z) (filtered : list ScheduleItem) (stats : list ServiceStat.t) :
  serviceStatsOnObject now filtered = Returned stats ->
  NoDup (map ServiceStat.service stats)
  /\ (forall k, In k (map ServiceStat.service stats)
                <-> isInherited k = false
                    /\ exists i, In i filtered /\ Dashboard.serviceKey i = k)
  /\ NoDup (map QuadraStat.quadra (Dashboard.quadraStats filtered))
  /\ (forall k, In k (map QuadraStat.quadra (Dashboard.quadraStats filtered))
                <-> exists i, In i filtered /\ Dashboard.quadraKey i = k).
Proof.
  rewrite serviceStatsOnObject_spec.
  destruct (existsb _ filtered); [discriminate|]. intros [= <-].
  set (own := List.filter
                (fun i => negb (isInherited (Dashboard.serviceKey i))) filtered).
  assert (Hs : Permutation
                 (map ServiceStat.service (Dashboard.serviceStats now own))
                 (map fst (Dashboard.serviceAcc now own))).
  { unfold Dashboard.serviceStats. rewrite (sortWith_perm _ _), map_map.
    erewrite map_ext; [reflexivity | now intros [k d]]. }
  assert (Hq : Permutation
                 (map QuadraStat.quadra (Dashboard.quadraStats filtered))
                 (map fst (Dashboard.quadraAcc filtered))).
  { unfold Dashboard.quadraStats. rewrite (sortWith_perm _ _), map_map.
    erewrite map_ext; [reflexivity | now intros [k d]]. }
  destruct (fold_update_keys Dashboard.serviceKey Dashboard.emptyServiceStat
              (Dashboard.addToService now) own) as [Hnd1 Hk1].
  destruct (fold_update_keys Dashboard.quadraKey Dashboard.emptyQuadraStat
              Dashboard.addToQuadra filtered) as [Hnd2 Hk2].
  split; [now rewrite Hs|]. split; [|split].
  - intros k. split.
    + intros Hin. apply (Permutation_in _ Hs), Hk1 in Hin as (i & Hi & <-).
      apply filter_In in Hi as [Hi Hn]. apply negb_true_iff in Hn.
      split; [exact Hn | now exists i].
    + intros (Hn & i & Hi & <-).
      apply (Permutation_in _ (Permutation_sym Hs)), Hk1. exists i.
      split; [|reflexivity]. apply filter_In. split; [exact Hi|].
      now apply negb_true_iff.
  - now rewrite Hq.
  - intros k. split.
    + intros Hin. apply Hk2. now apply (Permutation_in _ Hq).
    + intros Hin. apply (Permutation_in _ (Permutation_sym Hq)). now apply Hk2.
Qed.

Lemma stats_one_entry_per_key_witness :
  NoDup (map ServiceStat.service [ServiceStat.mk "IMPORT" 1 1 [] 0 1 SemDatas])
  /\ (forall k, In k (map ServiceStat.service
                        [ServiceStat.mk "IMPORT" 1 1 [] 0 1 SemDatas])
                <-> isInherited k = false
                    /\ exists i, In i inheritedNameSchedule
                                 /\ Dashboard.serviceKey i = k)
  /\ NoDup (map QuadraStat.quadra (Dashboard.quadraStats inheritedNameSchedule))
  /\ (forall k, In k (map QuadraStat.quadra
                        (Dashboard.quadraStats inheritedNameSchedule))
                <-> exists i, In i inheritedNameSchedule
                              /\ Dashboard.quadraKey i = k).
Proof.
  apply (stats_one_entry_per_key 0 inheritedNameSchedule). reflexivity.
Defined.

(** X10.  Both stat lists come out in descending order of removals. *)
Theorem stats_sorted_by_removals (now : Z) (filtered : list ScheduleItem) :
  StronglySorted (fun a b => ServiceStat.remocoes a >= ServiceStat.remocoes b)
    (Dashboard.serviceStats now filtered)
  /\ StronglySorted (fun a b => QuadraStat.remocoes a >= QuadraStat.remocoes b)
       (Dashboard.quadraStats filtered).
Proof.
  split.
  - apply (StronglySorted_weaken
             (fun a b => ServiceStat.remocoes b - ServiceStat.remocoes a <= 0) _
             (fun _ => True)).
    + intros; lia.
    + apply Forall_forall. auto.
    + apply (sortWith_sorted _ (fun _ => True)); try (intros; lia).
      apply Forall_forall. auto.
  - apply (StronglySorted_weaken
             (fun a b => QuadraStat.remocoes b - QuadraStat.remocoes a <= 0) _
             (fun _ => True)).
    + intros; lia.
    + apply Forall_forall. auto.
    + apply (sortWith_sorted _ (fun _ => True)); try (intros; lia).
      apply Forall_forall. auto.
Qed.

(** ** Date labels *)

Lemma fold_min_spec (ds : list Z) (d : Z) :
  In (fold_left Z.min ds d) (d :: ds)
  /\ forall x, In x (d :: ds) -> fold_left Z.min ds d <= x.
Proof.
  revert d. induction ds as [|y ds IH]; intros d.
  - simpl. split; [tauto | intros x [<- | []]; lia].
  - simpl fold_left. destruct (IH (Z.min d y)) as [Hin Hle]. split.
    + destruct Hin as [Heq | Hin]; [|simpl; tauto].
      rewrite <- Heq. destruct (Z.min_spec d y) as [[_ ->] | [_ ->]]; simpl; tauto.
    + intros x Hx.
      assert (fold_left Z.min ds (Z.min d y) <= Z.min d y) by (apply Hle; now left).
      destruct Hx as [<- | [<- | Hx]]; [lia | lia |].
      apply Hle. now right.
Qed.

Lemma fold_max_spec (ds : list Z) (d : Z) :
  In (fold_left Z.max ds d) (d :: ds)
  /\ forall x, In x (d :: ds) -> x <= fold_left Z.max ds d.
Proof.
  revert d. induction ds as [|y ds IH]; intros d.
  - simpl. split; [tauto | intros x [<- | []]; lia].
  - simpl fold_left. destruct (IH (Z.max d y)) as [Hin Hle]. split.
    + destruct Hin as [Heq | Hin]; [|simpl; tauto].
      rewrite <- Heq. destruct (Z.max_spec d y) as [[_ ->] | [_ ->]]; simpl; tauto.
    + intros x Hx.
      assert (Z.max d y <= fold_left Z.max ds (Z.max d y)) by (apply Hle; now left).
      destruct Hx as [<- | [<- | Hx]]; [lia | lia |].
      apply Hle. now right.
Qed.

(** The label over valid time values. *)
Lemma dateLabelOf_cases (dates : list Z) :
  match Dashboard.dateLabelOf dates with
  | SemDatas => dates = []
  | OneDate d => In d dates /\ forall x, In x dates -> x = d
  | DateRange dmin dmax =>
      dmin < dmax /\ In dmin dates /\ In dmax dates
      /\ forall x, In x dates -> dmin <= x <= dmax
  end.
Proof.
  destruct dates as [|d ds]; [reflexivity|].
  unfold Dashboard.dateLabelOf.
  destruct (fold_min_spec ds d) as [Hmin Hle].
  destruct (fold_max_spec ds d) as [Hmax Hge].
  destruct (fold_left Z.min ds d =? fold_left Z.max ds d) eqn:E.
  - apply Z.eqb_eq in E. split; [exact Hmin|].
    intros x Hx. specialize (Hle x Hx). specialize (Hge x Hx). lia.
  - apply Z.eqb_neq in E. repeat split; try assumption.
    + specialize (Hle _ Hmax). lia.
    + now apply Hle.
    + now apply Hge.
Qed.

Lemma fold_minTime_nan (ds : list TimeValue) :
  fold_left minTime ds TimeNaN = TimeNaN.
Proof. induction ds as [|y ds IH]; [reflexivity | exact IH]. Qed.

Lemma fold_maxTime_nan (ds : list TimeValue) :
  fold_left maxTime ds TimeNaN = TimeNaN.
Proof. induction ds as [|y ds IH]; [reflexivity | exact IH]. Qed.

Lemma fold_minTime_valid (l : list Z) (d : Z) :
  fold_left minTime (map TimeOf l) (TimeOf d) = TimeOf (fold_left Z.min l d).
Proof. revert d. induction l as [|y l IH]; intros d; [reflexivity | apply IH]. Qed.

Lemma fold_maxTime_valid (l : list Z) (d : Z) :
  fold_left maxTime (map TimeOf l) (TimeOf d) = TimeOf (fold_left Z.max l d).
Proof. revert d. induction l as [|y l IH]; intros d; [reflexivity | apply IH]. Qed.

(** One NaN among the arguments makes [Math.min] and [Math.max] NaN. *)
Lemma fold_time_with_nan (ds : list TimeValue) (d : TimeValue) :
  In TimeNaN (d :: ds) ->
  fold_left minTime ds d = TimeNaN /\ fold_left maxTime ds d = TimeNaN.
Proof.
  revert d. induction ds as [|y ds IH]; intros d Hin.
  - destruct Hin as [-> | []]. split; reflexivity.
  - cbn [fold_left]. destruct d as [t|].
    + destruct Hin as [Hin | Hin]; [discriminate|].
      destruct y as [u|].
      * destruct Hin as [Hin | Hin]; [discriminate|].
        split; apply IH; now right.
      * split; [apply fold_minTime_nan | apply fold_maxTime_nan].
    + destruct y; split; (apply fold_minTime_nan || apply fold_maxTime_nan).
Qed.

Lemma times_valid_or_nan (dates : list TimeValue) :
  In TimeNaN dates \/ exists l, dates = map TimeOf l.
Proof.
  induction dates as [|[t|] dates IH].
  - right. now exists [].
  - destruct IH as [H | (l & ->)]; [left; now right | right; now exists (t :: l)].
  - left. now left.
Qed.

Lemma dateLabelOfTimes_valid (l : list Z) :
  dateLabelOfTimes (map TimeOf l) = labelOfValid (Dashboard.dateLabelOf l).
Proof.
  destruct l as [|d l]; [reflexivity|].
  unfold dateLabelOfTimes, Dashboard.dateLabelOf. cbn [map].
  rewrite fold_minTime_valid, fold_maxTime_valid. cbn [sameTime].
  destruct (_ =? _); reflexivity.
Qed.

Lemma dateLabelOfTimes_nan (dates : list TimeValue) :
  In TimeNaN dates -> dateLabelOfTimes dates = DatesFromTo TimeNaN TimeNaN.
Proof.
  intros Hin. destruct dates as [|d ds]; [destruct Hin|].
  unfold dateLabelOfTimes. destruct (fold_time_with_nan ds d Hin) as [-> ->].
  reflexivity.
Qed.

(** X11.  The date label says no dates exactly for an entry without
    timestamps.  When a timestamp is NaN, the number of an Invalid Date, the
    label is a range from the date of NaN to the date of NaN, also for an
    entry of one timestamp.  Otherwise it is a single date when all
    timestamps are that one, and else a range from the earliest to the
    latest timestamp, both taken from the list and different.  Over valid
    time values it is the label of the stats. *)
Theorem dateLabelOfTimes_spec (dates : list TimeValue) :
  (match dateLabelOfTimes dates with
   | NoDates => dates = []
   | SingleDate d =>
       exists t, d = TimeOf t /\ In d dates /\ forall x, In x dates -> x = d
   | DatesFromTo dmin dmax =>
       (In TimeNaN dates /\ dmin = TimeNaN /\ dmax = TimeNaN)
       \/ exists a b,
            dmin = TimeOf a /\ dmax = TimeOf b /\ a < b
            /\ In dmin dates /\ In dmax dates
            /\ forall x, In x dates -> exists t, x = TimeOf t /\ a <= t <= b
   end)
  /\ (In TimeNaN dates -> dateLabelOfTimes dates = DatesFromTo TimeNaN TimeNaN)
  /\ (forall l, dates = map TimeOf l ->
                dateLabelOfTimes dates = labelOfValid (Dashboard.dateLabelOf l)).
Proof.
  split; [|split; [apply dateLabelOfTimes_nan |
                   intros l ->; apply dateLabelOfTimes_valid]].
  destruct (times_valid_or_nan dates) as [Hnan | (l & ->)].
  - rewrite (dateLabelOfTimes_nan dates Hnan). left. auto.
  - rewrite dateLabelOfTimes_valid.
    pose proof (dateLabelOf_cases l) as H.
    destruct (Dashboard.dateLabelOf l) as [|d|a b]; cbn [labelOfValid].
    + now rewrite H.
    + destruct H as [Hin Hall]. exists d. split; [reflexivity|].
      split; [now apply in_map|].
      intros x Hx. apply in_map_iff in Hx as (t & <- & Ht). f_equal. now apply Hall.
    + destruct H as (Hlt & Ha & Hb & Hall). right. exists a, b.
      repeat split; try assumption; try (now apply in_map).
      intros x Hx. apply in_map_iff in Hx as (t & <- & Ht). exists t.
      split; [reflexivity | now apply Hall].
Qed.

Example dateLabelOfTimes_sample :
  dateLabelOfTimes [TimeNaN] = DatesFromTo TimeNaN TimeNaN
  /\ dateLabelOfTimes [TimeOf 1000] = SingleDate (TimeOf 1000)
  /\ dateLabelOfTimes [TimeOf 3000; TimeNaN; TimeOf 1000]
     = DatesFromTo TimeNaN TimeNaN
  /\ dateLabelOfTimes [TimeOf 3000; TimeOf 1000; TimeOf 3000]
     = DatesFromTo (TimeOf 1000) (TimeOf 3000).
Proof. repeat split; reflexivity. Qed.

(** ** The date filter *)




Example date_filter_sample :
  map ScheduleItem.id
    (Dashboard.filteredData
       (fun d => if d <? 2000 then "2026-01-01" else "2026-01-02")
       "2026-01-01" (sampleSchedule ++ sampleSchedule))
  = ["MSCU1111111_0"; "MSCU1111111_0"].
Proof. reflexivity. Qed.

(** ** Planning handlers, one call at a time *)

(** X13.  Clearing a plan empties that queue, appends its items to the pool
    in queue order, leaves the other queues alone and keeps, in any state,
    the number of places of every identity. *)
Theorem handleClearPlan_returns_all (m : StackerId) (st : AppState) :
  queueOf (planningState (handleClearPlan m st)) m = []
  /\ stockData (handleClearPlan m st)
     = stockData st ++ queueOf (planningState st) m
  /\ (forall m', m' <> m ->
        queueOf (planningState (handleClearPlan m st)) m'
        = queueOf (planningState st) m')
  /\ (forall a, places a (handleClearPlan m st) = places a st).
Proof.
  unfold handleClearPlan. cbn [planningState stockData].
  split; [apply queueOf_setQueue_eq|]. split; [reflexivity|].
  split; [intros m' Hne; now apply queueOf_setQueue_ne|].
  intros a. rewrite !places_split. cbn [stockData planningState].
  pose proof (queuesOccurrences_setQueue a (planningState st) m []) as Hq.
  change (occurrences a []) with 0%nat in Hq.
  rewrite occurrences_app. lia.
Qed.

Lemma filter_none_sameId (a : string) (q : list StockItem) :
  existsb (sameId a) q = false ->
  List.filter (fun i => negb (sameId a i)) q = q.
Proof.
  induction q as [|x q IH]; [reflexivity|].
  simpl. intros H. apply orb_false_iff in H as [-> Hq]. simpl.
  now rewrite IH.
Qed.

Lemma find_none_existsb_iff {A} (p : A -> bool) (l : list A) :
  List.find p l = None <-> existsb p l = false.
Proof.
  induction l as [|x l IH]; simpl; [tauto|].
  destruct (p x); simpl; [split; discriminate | exact IH].
Qed.

(** What [find] returns is the first element that passes the test. *)
Lemma find_first {A} (p : A -> bool) (l : list A) (x : A) :
  List.find p l = Some x ->
  exists before after,
    l = before ++ x :: after /\ p x = true
    /\ Forall (fun y => p y = false) before.
Proof.
  induction l as [|y l IH]; [discriminate|].
  simpl. destruct (p y) eqn:E.
  - intros [= <-]. exists [], l. repeat split; [exact E | constructor].
  - intros H. destruct (IH H) as (before & after & -> & Hx & Hall).
    exists (y :: before), after. repeat split; [exact Hx|].
    constructor; assumption.
Qed.

(** X14.  Unassign changes nothing exactly when the identity is not in the
    active queue.  When it is there, the pool gains at its end the first
    item of the queue that has that identity, the queue loses every slot of
    that identity and keeps its other items in order, and the other queues
    are untouched. *)
Theorem handleRemoveFromPlan_effect
  (m : StackerId) (itemId : string) (st : AppState) :
  (handleRemoveFromPlan m itemId st = st <-> inQueue itemId m st = false)
  /\ (inQueue itemId m st = true ->
      exists before item after,
        queueOf (planningState st) m = before ++ item :: after
        /\ StockItem.id item = itemId
        /\ Forall (fun y => StockItem.id y <> itemId) before
        /\ stockData (handleRemoveFromPlan m itemId st) = stockData st ++ [item]
        /\ queueOf (planningState (handleRemoveFromPlan m itemId st)) m
           = List.filter (fun i => negb (sameId itemId i))
               (queueOf (planningState st) m)
        /\ inQueue itemId m (handleRemoveFromPlan m itemId st) = false
        /\ forall m', m' <> m ->
             queueOf (planningState (handleRemoveFromPlan m itemId st)) m'
             = queueOf (planningState st) m').
Proof.
  unfold handleRemoveFromPlan, inQueue.
  destruct (List.find (sameId itemId) (queueOf (planningState st) m))
    as [item|] eqn:F.
  - assert (Hin : existsb (sameId itemId) (queueOf (planningState st) m) = true).
    { apply not_false_iff_true. intros H.
      apply find_none_existsb_iff in H. congruence. }
    split.
    + split; [|congruence]. intros Heq. exfalso.
      apply (f_equal (fun s => List.length (stockData s))) in Heq.
      cbn [stockData] in Heq. rewrite length_app in Heq. simpl in Heq. lia.
    + intros _. apply find_first in F as (before & after & Hq & Hid & Hbefore).
      apply sameId_true in Hid.
      exists before, item, after. cbn [stockData planningState].
      rewrite queueOf_setQueue_eq.
      split; [exact Hq|]. split; [exact Hid|]. split; [|repeat split].
      * apply Forall_forall. intros y Hy Hsame.
        rewrite Forall_forall in Hbefore. specialize (Hbefore y Hy).
        apply sameId_true in Hsame. congruence.
      * apply not_true_iff_false. intros Hex.
        apply existsb_exists in Hex as (y & Hy & Hsame).
        apply filter_In in Hy as [_ Hy]. rewrite Hsame in Hy. discriminate.
      * intros m' Hne. now apply queueOf_setQueue_ne.
  - apply find_none_existsb_iff in F. split; [tauto | congruence].
Qed.

Lemma handleRemoveFromPlan_effect_witness :
  let st := run [Assign Stacker1 [itemC; itemA; itemA]] sampleState in
  exists before item after,
    queueOf (planningState st) Stacker1 = before ++ item :: after
    /\ StockItem.id item = StockItem.id itemA
    /\ Forall (fun y => StockItem.id y <> StockItem.id itemA) before
    /\ stockData (handleRemoveFromPlan Stacker1 (StockItem.id itemA) st)
       = stockData st ++ [item]
    /\ queueOf (planningState
                  (handleRemoveFromPlan Stacker1 (StockItem.id itemA) st)) Stacker1
       = List.filter (fun i => negb (sameId (StockItem.id itemA) i))
           (queueOf (planningState st) Stacker1)
    /\ inQueue (StockItem.id itemA) Stacker1
         (handleRemoveFromPlan Stacker1 (StockItem.id itemA) st) = false
    /\ forall m', m' <> Stacker1 ->
         queueOf (planningState
                    (handleRemoveFromPlan Stacker1 (StockItem.id itemA) st)) m'
         = queueOf (planningState st) m'.
Proof.
  apply (handleRemoveFromPlan_effect Stacker1 (StockItem.id itemA)
           (run [Assign Stacker1 [itemC; itemA; itemA]] sampleState)).
  reflexivity.
Defined.

Lemma find_app_none {A} (p : A -> bool) (l1 l2 : list A) :
  existsb p l1 = false -> List.find p (l1 ++ l2) = List.find p l2.
Proof.
  intros H. rewrite find_append.
  apply find_none_existsb_iff in H. now rewrite H.
Qed.

Lemma pool_filter_single (x : StockItem) (pool : list StockItem) :
  List.filter
    (fun s => match List.find (sameId (StockItem.id s)) [x] with
              | Some _ => false
              | None => true
              end) pool
  = List.filter (fun s => negb (sameId (StockItem.id x) s)) pool.
Proof.
  apply filter_ext. intros s. simpl. unfold sameId.
  rewrite (String.eqb_sym (StockItem.id x)).
  now destruct (String.eqb (StockItem.id s) (StockItem.id x)).
Qed.

Lemma filter_single_perm (x : StockItem) (pool : list StockItem) :
  NoDup (ids pool) -> In x pool ->
  Permutation (List.filter (fun s => negb (sameId (StockItem.id x) s)) pool ++ [x])
    pool.
Proof.
  induction pool as [|y pool IH]; [easy|].
  simpl. intros Hnd Hin. apply NoDup_cons in Hnd as [Hy Hnd].
  destruct Hin as [-> | Hin].
  - assert (sameId (StockItem.id x) x = true) as -> by now apply sameId_true.
    simpl. rewrite filter_none_sameId.
    + rewrite Permutation_app_comm. reflexivity.
    + apply not_true_iff_false. intros Hex.
      apply existsb_exists in Hex as (z & Hz & Hid). apply sameId_true in Hid.
      apply Hy. apply list_elem_of_In. rewrite <- Hid. now apply in_map.
  - assert (sameId (StockItem.id x) y = false) as ->.
    { apply not_true_iff_false. intros Hid. apply sameId_true in Hid.
      apply Hy. apply list_elem_of_In. rewrite Hid. now apply in_map. }
    simpl. constructor. now apply IH.
Qed.

(** X15.  Assigning one item to a queue that does not hold its identity and
    unassigning it again restores that queue and leaves the others alone;
    the pool ends with the item moved to its end, so it is a rearrangement
    of the old pool when the item came from a pool of distinct
    identities. *)
Theorem assign_then_unassign (m : StackerId) (x : StockItem) (st : AppState) :
  inQueue (StockItem.id x) m st = false ->
  let st' := handleRemoveFromPlan m (StockItem.id x) (handleDrop m (Some [x]) st) in
  planningState st' = planningState st
  /\ stockData st'
     = List.filter (fun s => negb (sameId (StockItem.id x) s)) (stockData st) ++ [x]
  /\ (NoDup (ids (stockData st)) -> In x (stockData st) ->
      Permutation (stockData st') (stockData st)).
Proof.
  intros Hq st'. subst st'. unfold inQueue in Hq.
  unfold handleRemoveFromPlan, handleDrop. cbn [planningState stockData].
  rewrite pool_filter_single.
  rewrite queueOf_setQueue_eq, (find_app_none _ _ _ Hq). cbn [List.find].
  assert (sameId (StockItem.id x) x = true) as Hx by now apply sameId_true.
  rewrite Hx. cbn [planningState stockData].
  rewrite List.filter_app, (filter_none_sameId _ _ Hq).
  cbn [List.filter]. rewrite Hx. cbn [negb]. rewrite app_nil_r.
  split.
  - destruct m, (planningState st); reflexivity.
  - split; [reflexivity|]. intros Hnd Hin. now apply filter_single_perm.
Qed.

Lemma assign_then_unassign_witness :
  let st' := handleRemoveFromPlan Stacker2 (StockItem.id itemB)
               (handleDrop Stacker2 (Some [itemB]) sampleState) in
  planningState st' = planningState sampleState
  /\ stockData st'
     = List.filter (fun s => negb (sameId (StockItem.id itemB) s))
         (stockData sampleState) ++ [itemB]
  /\ (NoDup (ids (stockData sampleState)) -> In itemB (stockData sampleState) ->
      Permutation (stockData st') (stockData sampleState)).
Proof.
  apply (assign_then_unassign Stacker2 itemB sampleState). reflexivity.
Defined.

(** ** Grouping *)

Lemma fold_left_snoc {A} (l acc : list A) :
  fold_left (fun v i => v ++ [i]) l acc = acc ++ l.
Proof.
  revert acc. induction l as [|x l IH]; intros acc; simpl.
  - now rewrite app_nil_r.
  - rewrite IH, <- app_assoc. reflexivity.
Qed.

(** The group stored under a key holds the items of that key, in order. *)
Lemma assoc_groupBy {A} (key : A -> string) (l : list A) (k : string) :
  default [] (assoc k (fold_left (fun acc i => pushTo (key i) i acc) l []))
  = List.filter (fun i => String.eqb (key i) k) l.
Proof.
  unfold pushTo.
  rewrite (assoc_fold_update key [] (fun i xs => xs ++ [i]) l [] k).
  destruct (List.filter _ l) as [|y fl]; [reflexivity|].
  simpl. now rewrite fold_left_snoc.
Qed.

Lemma flat_update {V X} (flat : V -> list X) (k : string) (init : V)
  (f : V -> V) (x : X) (acc : list (string * V)) :
  flat init = [] ->
  (forall v, Permutation (flat (f v)) (flat v ++ [x])) ->
  Permutation (flat_map (fun kv => flat (snd kv)) (update k init f acc))
    (flat_map (fun kv => flat (snd kv)) acc ++ [x]).
Proof.
  intros Hinit Hf. induction acc as [|[k0 v] acc IH]; simpl.
  - rewrite app_nil_r, Hf, Hinit. reflexivity.
  - destruct (String.eqb k0 k); simpl.
    + rewrite Hf, <- !app_assoc. apply Permutation_app_head.
      apply Permutation_app_comm.
    + rewrite IH, app_assoc. reflexivity.
Qed.

Lemma flat_pushTo {A} (k : string) (x : A) (groups : list (string * list A)) :
  Permutation (flat_map snd (pushTo k x groups)) (flat_map snd groups ++ [x]).
Proof.
  unfold pushTo.
  apply (flat_update (fun xs => xs) k [] (fun xs => xs ++ [x]) x groups);
    [reflexivity | reflexivity].
Qed.

(** ** The stock tree *)

Lemma stockTree_units_fold (l : list StockItem)
  (acc : list (string * list (string * list StockItem))) :
  Permutation
    (stockTreeUnits
       (fold_left
          (fun groups item =>
             update (StockItem.quadra item) []
               (fun bays => pushTo (StockItem.bay item) item bays) groups)
          l acc))
    (stockTreeUnits acc ++ l).
Proof.
  revert acc. induction l as [|x l IH]; intros acc; simpl.
  - now rewrite app_nil_r.
  - rewrite IH. unfold stockTreeUnits.
    rewrite (flat_update (fun bays => flat_map snd bays) _ _ _ x);
      [ | reflexivity | intros v; apply flat_pushTo].
    rewrite <- app_assoc. reflexivity.
Qed.

Lemma filter_filter {A} (p q : A -> bool) (l : list A) :
  List.filter p (List.filter q l) = List.filter (fun x => q x && p x) l.
Proof.
  induction l as [|x l IH]; [reflexivity|].
  simpl. destruct (q x); simpl; [destruct (p x)|]; now rewrite IH.
Qed.

(** X16.  For a search term and services written in ASCII, the stock tree
    lists, under each quadra and bay, the filtered stock items of that
    quadra and bay in stock order; all the units it shows are a
    rearrangement of the filtered items, so none is lost or shown twice; and
    the search does not depend on the case of the term. *)
Theorem stockTree_groups (stockSearchTerm : string) (stock : list StockItem) :
  isAscii stockSearchTerm = true ->
  Forall (fun i => isAscii (StockItem.servico i) = true) stock ->
  let filtered := stockFilteredItems stockSearchTerm stock in
  let tree := stockTree stockSearchTerm stock in
  (forall q b,
      unitsOf tree q b
      = List.filter
          (fun i => String.eqb (StockItem.quadra i) q
                    && String.eqb (StockItem.bay i) b) filtered)
  /\ Permutation (stockTreeUnits tree) filtered
  /\ stockTree (JsText.toLowerCase stockSearchTerm) stock = tree.
Proof.
  intros _ _ filtered tree. subst tree. unfold stockTree. fold filtered.
  split; [|split].
  - intros q b. unfold unitsOf.
    rewrite (assoc_fold_update StockItem.quadra []
               (fun item bays => pushTo (StockItem.bay item) item bays)
               filtered [] q).
    rewrite <- filter_filter.
    destruct (List.filter (fun i => String.eqb (StockItem.quadra i) q) filtered)
      as [|y fl] eqn:E; [reflexivity|].
    cbn [assoc default]. apply (assoc_groupBy StockItem.bay (y :: fl) b).
  - apply (stockTree_units_fold filtered []).
  - unfold filtered, stockFilteredItems, stockSearchKey.
    now rewrite toUpperCase_toLowerCase.
Qed.

Lemma stockTree_groups_witness :
  let filtered := stockFilteredItems " mscu" [itemA; itemD; itemB; itemC] in
  let tree := stockTree " mscu" [itemA; itemD; itemB; itemC] in
  (forall q b,
      unitsOf tree q b
      = List.filter
          (fun i => String.eqb (StockItem.quadra i) q
                    && String.eqb (StockItem.bay i) b) filtered)
  /\ Permutation (stockTreeUnits tree) filtered
  /\ stockTree (JsText.toLowerCase " mscu") [itemA; itemD; itemB; itemC] = tree.
Proof.
  apply (stockTree_groups " mscu" [itemA; itemD; itemB; itemC]);
    [reflexivity | repeat constructor].
Defined.

Example stockTree_sample :
  stockTree " mscu" [itemA; itemB; itemC; itemD]
  = [("01", [("0101", [itemA])])]
  /\ unitsOf (stockTree "" [itemA; itemD; itemB; itemC]) "01" "0101"
     = [itemA; itemB; itemC].
Proof. split; reflexivity. Qed.

(** ** Productivity summary *)

Lemma fold_left_count {A} (l : list A) (n : Z) :
  fold_left (fun v (_ : A) => v + 1) l n = n + Z.of_nat (List.length l).
Proof.
  revert n. induction l as [|x l IH]; intros n; simpl fold_left; [simpl; lia|].
  rewrite IH. simpl List.length. lia.
Qed.

Lemma baySummary_sum (l : list StockItem) (acc : list (string * Z)) :
  sumOf snd
    (fold_left (fun acc curr => update (StockItem.bay curr) 0 (fun n => n + 1) acc)
       l acc)
  = sumOf snd acc + Z.of_nat (List.length l).
Proof.
  revert acc. induction l as [|x l IH]; intros acc; simpl fold_left; [simpl; lia|].
  rewrite IH.
  pose proof (sumOf_update (fun n => n) (StockItem.bay x) 0 (fun n => n + 1) 1
                acc eq_refl (fun d => eq_refl)) as H.
  cbv beta in H.
  change (fun kv : string * Z => snd kv) with (@snd string Z) in H.
  rewrite H. simpl List.length. lia.
Qed.

(** X17.  The productivity summary has one entry per bay of the plan, each
    bay of the plan has one, the entry of a bay counts the plan items of
    that bay, and the counts add up to the number of moves. *)
Theorem baySummary_counts (currentPlan : list StockItem) :
  NoDup (map fst (baySummary currentPlan))
  /\ (forall b, In b (map fst (baySummary currentPlan))
                <-> exists i, In i currentPlan /\ StockItem.bay i = b)
  /\ (forall b, default 0 (assoc b (baySummary currentPlan))
                = countIf (fun i => String.eqb (StockItem.bay i) b) currentPlan)
  /\ sumOf snd (baySummary currentPlan) = Z.of_nat (List.length currentPlan).
Proof.
  unfold baySummary.
  destruct (fold_update_keys StockItem.bay 0 (fun (_ : StockItem) n => n + 1)
              currentPlan) as [Hnd Hk].
  split; [exact Hnd|]. split; [exact Hk|]. split.
  - intros b.
    rewrite (assoc_fold_update StockItem.bay 0 (fun (_ : StockItem) n => n + 1)
               currentPlan [] b).
    unfold countIf.
    destruct (List.filter _ currentPlan) as [|y fl]; [reflexivity|].
    cbn [assoc default]. rewrite fold_left_count. unfold id. lia.
  - rewrite baySummary_sum. simpl. lia.
Qed.

Example baySummary_sample :
  baySummary [itemA; itemD; itemB] = [("0101", 2); ("A1B2", 1)].
Proof. reflexivity. Qed.

(** ** Searching the plan *)

Lemma prefix_spec (sub s : string) :
  String.prefix sub s = true <-> exists post, s = sub +:+ post.
Proof.
  revert s. induction sub as [|a sub IH]; intros s.
  - split; [intros _; now exists s | intros _; now destruct s].
  - destruct s as [|b s]; simpl.
    + split; [discriminate | intros (post & H); discriminate].
    + destruct (ascii_dec a b) as [->|Hne].
      * rewrite IH. split; intros (post & H); exists post.
        -- rewrite append_cons. now f_equal.
        -- rewrite append_cons in H. now injection H.
      * split; [discriminate|]. intros (post & H).
        rewrite append_cons in H. injection H as H _. congruence.
Qed.

(** [includes] is the substring test. *)
Lemma includes_spec (s sub : string) :
  JsText.includes s sub = true <-> exists pre post, s = pre +:+ sub +:+ post.
Proof.
  induction s as [|a s IH].
  - change (JsText.includes "" sub) with (String.prefix sub "" || false).
    rewrite orb_false_r, prefix_spec. split.
    + intros (post & H). now exists "", post.
    + intros ([|b pre] & post & H); [now exists post|].
      rewrite append_cons in H. discriminate.
  - change (JsText.includes (String a s) sub)
      with (String.prefix sub (String a s) || JsText.includes s sub).
    rewrite orb_true_iff, prefix_spec, IH. split.
    + intros [(post & H) | (pre & post & H)].
      * now exists "", post.
      * exists (String a pre), post. rewrite append_cons. now f_equal.
    + intros ([|b pre] & post & H).
      * left. now exists post.
      * right. rewrite append_cons in H. injection H as _ H. now exists pre, post.
Qed.

Lemma findIndexFrom_spec {A} (p : A -> bool) (l : list A) (i : Z) :
  0 <= i ->
  (findIndexFrom p l i = -1 /\ forall x, In x l -> p x = false)
  \/ exists (k : nat) (x : A),
       findIndexFrom p l i = i + Z.of_nat k
       /\ l !! k = Some x /\ p x = true
       /\ forall (j : nat) (y : A), (j < k)%nat -> l !! j = Some y -> p y = false.
Proof.
  revert i. induction l as [|x l IH]; intros i Hi.
  - left. split; [reflexivity | intros x []].
  - simpl. destruct (p x) eqn:E.
    + right. exists 0%nat, x. repeat split; [lia | exact E | intros; lia].
    + destruct (IH (i + 1)) as [[Hm Hall] | (k & y & Hr & Hk & Hp & Hbefore)];
        [lia | |].
      * left. split; [exact Hm|]. intros z [<- | Hz]; auto.
      * right. exists (S k), y. repeat split; [lia | exact Hk | exact Hp |].
        intros [|j] z Hj Hz; [simpl in Hz; congruence|].
        apply (Hbefore j z); [lia | exact Hz].
Qed.

(** X18.  For a term written in ASCII, the search gives -1 for an empty
    term or when no container code of the plan contains the upper-cased
    term; otherwise it gives the index of the first plan item whose code
    contains it.  The case of the term does not matter. *)
Theorem searchResultIndex_first_match
  (searchTerm : string) (currentPlan : list StockItem) :
  isAscii searchTerm = true ->
  let hit := fun i =>
    JsText.includes (StockItem.cntr i) (Js.toUpperCase searchTerm) in
  ((searchResultIndex searchTerm currentPlan = -1
    /\ (searchTerm = "" \/ forall x, In x currentPlan -> hit x = false))
   \/ exists (k : nat) (x : StockItem),
        searchResultIndex searchTerm currentPlan = Z.of_nat k
        /\ searchTerm <> ""
        /\ currentPlan !! k = Some x /\ hit x = true
        /\ forall (j : nat) (y : StockItem),
             (j < k)%nat -> currentPlan !! j = Some y -> hit y = false)
  /\ searchResultIndex (JsText.toLowerCase searchTerm) currentPlan
     = searchResultIndex searchTerm currentPlan.
Proof.
  intros _ hit. split.
  - unfold searchResultIndex, JsText.isEmpty.
    destruct searchTerm as [|c t]; [left; auto|].
    cbn [String.length Nat.eqb].
    destruct (findIndexFrom_spec hit currentPlan 0)
      as [[Hm Hall] | (k & x & Hr & Hk & Hp & Hb)]; [lia | |].
    + left. split; [exact Hm | now right].
    + right. exists k, x. split; [|split; [discriminate | auto]].
      rewrite <- (Z.add_0_l (Z.of_nat k)). exact Hr.
  - unfold searchResultIndex, JsText.isEmpty.
    now rewrite toLowerCase_length, toUpperCase_toLowerCase.
Qed.

Lemma searchResultIndex_first_match_witness :
  let hit := fun i => JsText.includes (StockItem.cntr i) (Js.toUpperCase "tghu") in
  ((searchResultIndex "tghu" [itemA; itemB; itemC] = -1
    /\ ("tghu" = "" \/ forall x, In x [itemA; itemB; itemC] -> hit x = false))
   \/ exists (k : nat) (x : StockItem),
        searchResultIndex "tghu" [itemA; itemB; itemC] = Z.of_nat k
        /\ "tghu" <> ""
        /\ [itemA; itemB; itemC] !! k = Some x /\ hit x = true
        /\ forall (j : nat) (y : StockItem),
             (j < k)%nat -> [itemA; itemB; itemC] !! j = Some y -> hit y = false)
  /\ searchResultIndex (JsText.toLowerCase "tghu") [itemA; itemB; itemC]
     = searchResultIndex "tghu" [itemA; itemB; itemC].
Proof.
  apply (searchResultIndex_first_match "tghu" [itemA; itemB; itemC]). reflexivity.
Defined.

Example searchResultIndex_sample :
  searchResultIndex "tghu" [itemA; itemB; itemC] = 1
  /\ searchResultIndex "U" [itemA; itemB; itemC] = 0
  /\ searchResultIndex "ZZZ" [itemA; itemB; itemC] = -1
  /\ searchResultIndex "" [itemA; itemB; itemC] = -1.
Proof. repeat split; reflexivity. Qed.

(** ** Planned identities *)

Lemma elem_of_allPlannedIds (a : string) (ps : PlanningState) :
  a ∈ allPlannedIds ps <-> exists m, existsb (sameId a) (queueOf ps m) = true.
Proof.
  unfold allPlannedIds, allPlanned. rewrite elem_of_list_to_set, list_elem_of_In.
  unfold ids. rewrite in_map_iff. split.
  - intros (x & Hid & Hx). apply in_app_or in Hx as [Hx | Hx];
      [|apply in_app_or in Hx as [Hx | Hx]].
    + exists Stacker1. apply existsb_exists. exists x. now rewrite sameId_true.
    + exists Stacker2. apply existsb_exists. exists x. now rewrite sameId_true.
    + exists Stacker3. apply existsb_exists. exists x. now rewrite sameId_true.
  - intros (m & Hex). apply existsb_exists in Hex as (x & Hx & Hid).
    apply sameId_true in Hid. exists x. split; [exact Hid|].
    destruct m; simpl in Hx; rewrite !in_app_iff; tauto.
Qed.

(** X19.  An identity is marked as planned exactly when some queue holds
    it; and in a state where the identity has exactly one place, it is
    marked as planned exactly when it is not in the pool. *)
Theorem allPlannedIds_marks_queued (a : string) (st : AppState) :
  (a ∈ allPlannedIds (planningState st) <-> exists m, inQueue a m st = true)
  /\ (places a st = 1%nat ->
      (a ∈ allPlannedIds (planningState st) <-> inPool a st = false)).
Proof.
  split; [apply elem_of_allPlannedIds|].
  intros Hone. rewrite elem_of_allPlannedIds.
  destruct (one_place_exclusive a st Hone)
    as [(Hpool & _ & Hq) | (Hpool & m & Hm & _)].
  - split; [|congruence]. intros (m & Hex). specialize (Hq m).
    unfold inQueue in Hq. congruence.
  - split; [auto|]. intros _. exists m. apply existsb_occurrences. lia.
Qed.

Lemma allPlannedIds_marks_queued_witness :
  StockItem.id itemA ∈ allPlannedIds (planningState (run [Assign Stacker1 [itemA]] sampleState))
  <-> inPool (StockItem.id itemA) (run [Assign Stacker1 [itemA]] sampleState) = false.
Proof.
  apply (allPlannedIds_marks_queued (StockItem.id itemA)
           (run [Assign Stacker1 [itemA]] sampleState)).
  reflexivity.
Defined.

(** ** The grid without collisions, and its occupancy *)

Lemma targetCell_bounds (x : StockItem) :
  (fst (targetCell x) < 6)%nat /\ (snd (targetCell x) < 6)%nat.
Proof.
  unfold targetCell. simpl.
  pose proof (parsePosition_range (StockItem.local x)). lia.
Qed.

Lemma placeItem_target_free (g : Grid) (x : StockItem) :
  cellAt g (fst (targetCell x)) (snd (targetCell x)) = None ->
  placeItem g x = setCell g (fst (targetCell x)) (snd (targetCell x)) x.
Proof.
  unfold targetCell, placeItem. simpl. intros Hfree.
  pose proof (parsePosition_range (StockItem.local x)) as [Hr Ht].
  rewrite Hfree. simpl isNull. pass_range_checks. reflexivity.
Qed.

Lemma no_collision_fold (l : list StockItem) (g : Grid) :
  wfGrid g ->
  NoDup (map targetCell l) ->
  (forall x, In x l -> cellAt g (fst (targetCell x)) (snd (targetCell x)) = None) ->
  forall x, In x l ->
    cellAt (fold_left placeItem l g) (fst (targetCell x)) (snd (targetCell x))
    = Some x.
Proof.
  revert g. induction l as [|y l IH]; intros g Hwf Hnd Hfree x Hx; [destruct Hx|].
  simpl in Hnd. apply NoDup_cons in Hnd as [Hy Hnd]. simpl fold_left.
  assert (Hplace : placeItem g y
                   = setCell g (fst (targetCell y)) (snd (targetCell y)) y)
    by (apply placeItem_target_free, Hfree; now left).
  destruct (targetCell_bounds y) as [Hb1 Hb2].
  destruct Hx as [<- | Hx].
  - apply fold_keeps. rewrite Hplace. now apply cellAt_setCell_eq.
  - apply IH; [now apply wfGrid_placeItem | exact Hnd | | exact Hx].
    intros z Hz. rewrite Hplace, cellAt_setCell_ne; [apply Hfree; now right|].
    intros Heq. apply Hy. apply list_elem_of_In.
    replace (targetCell y) with (targetCell z)
      by (destruct (targetCell y), (targetCell z); simpl in *; congruence).
    now apply in_map.
Qed.

(** X21.  When the items of a bay decode to pairwise different cells, the
    finished grid shows every one of them in its own decoded cell: tier
    [6 - t] at grid index [t], row by row. *)
Theorem no_collision_exact_cells (bayItems : list StockItem) (x : StockItem) :
  NoDup (map targetCell bayItems) ->
  In x bayItems ->
  cellAt (buildGrid bayItems) (fst (targetCell x)) (snd (targetCell x)) = Some x.
Proof.
  intros Hnd Hx. unfold buildGrid.
  apply no_collision_fold; [apply wfGrid_empty | exact Hnd | | exact Hx].
  intros z _. destruct (targetCell_bounds z) as [H1 H2].
  destruct (targetCell z) as [t r]. simpl in *.
  do 6 (destruct t as [|t]; [do 6 (destruct r as [|r]; [reflexivity|]); lia|]).
  lia.
Qed.

Lemma no_collision_exact_cells_witness :
  cellAt (buildGrid [itemC; itemA]) (fst (targetCell itemC)) (snd (targetCell itemC))
  = Some itemC.
Proof.
  apply (no_collision_exact_cells [itemC; itemA] itemC).
  - apply (bool_decide_unpack _). vm_compute. exact I.
  - left. reflexivity.
Defined.

Lemma filter_length_one_more {A} `{EqDecision A}
  (P P' : A -> bool) (c : A) (l : list A) :
  NoDup l -> In c l -> P c = false -> P' c = true ->
  (forall x, In x l -> x <> c -> P' x = P x) ->
  List.length (List.filter P' l) = S (List.length (List.filter P l)).
Proof.
  intros Hnd. induction Hnd as [|x l Hx Hnd IH]; intros Hin Hc Hc' Hsame;
    [destruct Hin|].
  simpl. destruct (decide (x = c)) as [->|Hne].
  - rewrite Hc, Hc'. simpl. f_equal. apply filter_length_same.
    intros y Hy. apply Hsame; [simpl; tauto|].
    intros ->. apply Hx. now apply list_elem_of_In.
  - rewrite (Hsame x) by (simpl; tauto || exact Hne).
    assert (List.length (List.filter P' l) = S (List.length (List.filter P l))).
    { apply IH; try assumption.
      - destruct Hin as [Heq | Hin]; [congruence | exact Hin].
      - intros; apply Hsame; simpl; tauto. }
    destruct (P x); simpl; lia.
Qed.

Lemma occupied_placeItem_exact (g : Grid) (item : StockItem) :
  wfGrid g ->
  occupied (placeItem g item)
  = if hasFreeCell g then S (occupied g) else occupied g.
Proof.
  intros Hwf.
  destruct (placeItem_cases g item) as [[Hfull ->] | (c & Hin & Hfree & ->)].
  - now rewrite Hfull.
  - assert (hasFreeCell g = true) as ->
      by (apply existsb_exists; now exists c).
    unfold occupied.
    apply (filter_length_one_more _ _ c); [apply NoDup_lowestTierFirst | exact Hin | | |].
    + now rewrite Hfree.
    + destruct (in_lowestTierFirst_bounds c Hin).
      unfold isFree. now rewrite cellAt_setCell_eq.
    + intros x _ Hne. unfold isFree. rewrite cellAt_setCell_ne; [reflexivity|].
      destruct c, x; simpl; congruence.
Qed.

Lemma occupied_le_36 (g : Grid) : (occupied g <= 36)%nat.
Proof.
  unfold occupied.
  change 36%nat with (List.length lowestTierFirst).
  apply filter_length_le.
Qed.

Lemma hasFreeCell_occupied (g : Grid) :
  hasFreeCell g = true <-> (occupied g < 36)%nat.
Proof.
  split; [|apply occupied_lt_free].
  intros H. apply existsb_exists in H as (c & Hin & Hfree).
  unfold occupied.
  assert (Hlt : forall (l : list (nat * nat)),
             In c l ->
             (List.length (List.filter (fun c0 => negb (isFree g c0)) l)
              < List.length l)%nat).
  { induction l as [|y l IH]; intros Hy; [destruct Hy|].
    simpl. pose proof (filter_length_le (fun c0 => negb (isFree g c0)) l).
    destruct Hy as [-> | Hy].
    - rewrite Hfree. simpl. lia.
    - specialize (IH Hy). destruct (negb (isFree g y)); simpl; lia. }
  apply (Hlt lowestTierFirst Hin).
Qed.

Lemma occupied_fold_exact (items : list StockItem) (g : Grid) :
  wfGrid g ->
  occupied (fold_left placeItem items g)
  = Nat.min (occupied g + List.length items) 36.
Proof.
  revert g. induction items as [|x l IH]; intros g Hwf.
  - simpl. pose proof (occupied_le_36 g). lia.
  - simpl fold_left. rewrite IH by now apply wfGrid_placeItem.
    rewrite occupied_placeItem_exact by exact Hwf.
    pose proof (occupied_le_36 g). pose proof (hasFreeCell_occupied g) as Hf.
    destruct (hasFreeCell g); simpl List.length.
    + lia.
    + assert (~ (occupied g < 36)%nat) by (intros H'; apply Hf in H'; discriminate).
      lia.
Qed.

Lemma placeItem_content (g : Grid) (item x : StockItem) (t r : nat) :
  cellAt (placeItem g item) t r = Some x -> cellAt g t r = Some x \/ x = item.
Proof.
  destruct (placeItem_cases g item) as [[_ ->] | (c & _ & _ & ->)]; [auto|].
  destruct (decide ((fst c, snd c) = (t, r))) as [Heq|Hne].
  - injection Heq as <- <-. intros H.
    destruct (decide ((fst c < 6)%nat /\ (snd c < 6)%nat)) as [[H1 H2]|Hout].
    + unfold cellAt, setCell in *. rewrite list_lookup_alter_eq in H.
      destruct (g !! fst c) as [cells|]; simpl in H; [|discriminate].
      destruct (decide (snd c < List.length cells)%nat).
      * rewrite list_lookup_insert_eq in H by assumption. right. congruence.
      * rewrite list_insert_ge in H by lia. now left.
    + unfold cellAt, setCell in *. rewrite list_lookup_alter_eq in H.
      destruct (g !! fst c) as [cells|]; simpl in H; [|discriminate].
      destruct (decide (snd c < List.length cells)%nat).
      * rewrite list_lookup_insert_eq in H by assumption. right. congruence.
      * rewrite list_insert_ge in H by lia. now left.
  - rewrite cellAt_setCell_ne by exact Hne. now left.
Qed.

Lemma fold_content (items : list StockItem) (g : Grid) (x : StockItem) (t r : nat) :
  cellAt (fold_left placeItem items g) t r = Some x ->
  cellAt g t r = Some x \/ In x items.
Proof.
  revert g. induction items as [|y l IH]; intros g H; [now left|].
  simpl in H. apply IH in H as [H | H]; [|right; now right].
  apply placeItem_content in H as [H | ->]; [now left | right; now left].
Qed.

(** X22.  The finished grid of a bay holds as many items as the bay has, up
    to its 36 cells: the items that arrive at a full grid are left out.
    Whatever a cell shows is an item of the bay. *)
Theorem buildGrid_occupancy (bayItems : list StockItem) :
  occupied (buildGrid bayItems) = Nat.min (List.length bayItems) 36
  /\ forall t r x, cellAt (buildGrid bayItems) t r = Some x -> In x bayItems.
Proof.
  split.
  - unfold buildGrid. rewrite occupied_fold_exact by apply wfGrid_empty.
    reflexivity.
  - intros t r x H. unfold buildGrid in H. apply fold_content in H as [H | H];
      [|exact H].
    exfalso. unfold cellAt, emptyGrid in H.
    destruct (replicate 6 (replicate 6 None) !! t) as [cells|] eqn:E; [|discriminate].
    apply lookup_replicate_1 in E as [-> _].
    destruct (replicate 6 None !! r) as [c|] eqn:E'; [|discriminate].
    apply lookup_replicate_1 in E' as [-> _]. discriminate.
Qed.

(** ** The whole-block view, bay by bay *)

Lemma find_assoc {V} (k : string) (acc : list (string * V)) :
  match List.find (fun kv => String.eqb (fst kv) k) acc with
  | Some kv => Some (snd kv)
  | None => None
  end = assoc k acc.
Proof.
  induction acc as [|[k0 v] acc IH]; [reflexivity|].
  simpl. destruct (String.eqb k0 k); [reflexivity | exact IH].
Qed.

Lemma bayItems_of_view (b : string) (items : list StockItem) :
  match List.find (fun kv => String.eqb (fst kv) b) (groupByBay items) with
  | Some kv => snd kv
  | None => []
  end = List.filter (fun i => String.eqb (StockItem.bay i) b) items.
Proof.
  rewrite <- (assoc_groupBy StockItem.bay items b).
  fold (groupByBay items). rewrite <- find_assoc.
  now destruct (List.find _ _).
Qed.

Lemma quadraViewData_unfold (q : string) (st : AppState) :
  q <> "" ->
  quadraViewData (Some q) st
  = map (fun b =>
           let bayItems :=
             List.filter (fun i => String.eqb (StockItem.bay i) b) (quadraItems q st) in
           {| bayName := b; grid := buildGrid bayItems;
              total := List.length bayItems |})
      (sortWith defaultCompare (map fst (groupByBay (quadraItems q st)))).
Proof.
  intros Hq. unfold quadraViewData.
  destruct q as [|c q]; [congruence|]. cbn [String.length Nat.eqb].
  fold (quadraItems (String c q) st).
  apply map_ext. intros b. cbv zeta. now rewrite bayItems_of_view.
Qed.

Lemma groupByBay_keys (items : list StockItem) :
  NoDup (map fst (groupByBay items))
  /\ forall b, In b (map fst (groupByBay items))
               <-> exists i, In i items /\ StockItem.bay i = b.
Proof.
  unfold groupByBay, pushTo.
  apply (fold_update_keys StockItem.bay [] (fun i xs => xs ++ [i]) items).
Qed.

Lemma groupByBay_flat (items : list StockItem) :
  Permutation (flat_map snd (groupByBay items)) items.
Proof.
  unfold groupByBay.
  assert (H : forall l acc,
             Permutation
               (flat_map snd
                  (fold_left (fun bays i => pushTo (StockItem.bay i) i bays) l acc))
               (flat_map snd acc ++ l)).
  { induction l as [|x l IH]; intros acc; simpl; [now rewrite app_nil_r|].
    rewrite IH, flat_pushTo, <- app_assoc. reflexivity. }
  apply (H items []).
Qed.

Lemma sum_lengths {A} (groups : list (string * list A)) :
  fold_right (fun kv n => (List.length (snd kv) + n)%nat) 0%nat groups
  = List.length (flat_map snd groups).
Proof.
  induction groups as [|[k v] groups IH]; [reflexivity|].
  simpl. rewrite length_app, IH. reflexivity.
Qed.

Lemma fold_right_map_sum {A B} (f : B -> nat) (g : A -> B) (l : list A) :
  fold_right (fun v n => (f v + n)%nat) 0%nat (map g l)
  = fold_right (fun a n => (f (g a) + n)%nat) 0%nat l.
Proof. induction l as [|x l IH]; simpl; congruence. Qed.

(** X23.  For a quadra that is open in the whole-block view, every bay
    shown has the items of that quadra and bay, from the pool and from the
    queues, as its unit total and as the input of its grid; it has at least
    one unit; and the totals of the bays add up to the number of items of
    the quadra.  With no quadra open the view is empty. *)
Theorem quadraViewData_bays (q : string) (st : AppState) :
  q <> "" ->
  (forall v, In v (quadraViewData (Some q) st) ->
     let bayItems :=
       List.filter (fun i => String.eqb (StockItem.bay i) (bayName v))
         (quadraItems q st) in
     bayItems <> []
     /\ total v = List.length bayItems
     /\ grid v = buildGrid bayItems)
  /\ fold_right (fun v n => (total v + n)%nat) 0%nat (quadraViewData (Some q) st)
     = List.length (quadraItems q st)
  /\ quadraViewData None st = []
  /\ quadraViewData (Some "") st = [].
Proof.
  intros Hq. rewrite (quadraViewData_unfold q st Hq).
  destruct (groupByBay_keys (quadraItems q st)) as [Hnd Hkeys].
  split; [|split; [|split; reflexivity]].
  - intros v Hv. apply in_map_iff in Hv as (b & <- & Hb). cbn [bayName total grid].
    split; [|split; reflexivity].
    apply (Permutation_in _ (sortWith_perm _ _)) in Hb.
    apply Hkeys in Hb as (i & Hi & Hbay).
    apply filter_nonempty_In. exists i. split; [exact Hi | now apply String.eqb_eq].
  - transitivity
      (fold_right (fun b n =>
           (List.length (List.filter (fun i => String.eqb (StockItem.bay i) b)
                           (quadraItems q st)) + n)%nat) 0%nat
         (sortWith defaultCompare (map fst (groupByBay (quadraItems q st))))).
    { rewrite fold_right_map_sum. reflexivity. }
    transitivity
      (fold_right (fun b n =>
           (List.length (List.filter (fun i => String.eqb (StockItem.bay i) b)
                           (quadraItems q st)) + n)%nat) 0%nat
         (map fst (groupByBay (quadraItems q st)))).
    { generalize (sortWith_perm defaultCompare
                    (map fst (groupByBay (quadraItems q st)))).
      generalize (map fst (groupByBay (quadraItems q st))).
      generalize (sortWith defaultCompare (map fst (groupByBay (quadraItems q st)))).
      intros l1 l2 Hp. induction Hp; simpl; lia. }
    rewrite <- (Permutation_length (groupByBay_flat (quadraItems q st))).
    rewrite <- sum_lengths.
    assert (Hall : forall kv, In kv (groupByBay (quadraItems q st)) ->
               List.filter (fun i => String.eqb (StockItem.bay i) (fst kv))
                 (quadraItems q st) = snd kv).
    { intros [k v] Hkv. simpl.
      rewrite <- (assoc_groupBy StockItem.bay (quadraItems q st) k).
      fold (groupByBay (quadraItems q st)).
      now rewrite (In_assoc k v _ Hnd Hkv). }
    revert Hall. generalize (groupByBay (quadraItems q st)).
    induction l as [|kv l IH]; intros Hall; [reflexivity|].
    simpl. rewrite (Hall kv) by now left.
    rewrite IH; [reflexivity|]. intros kv' Hkv'. apply Hall. now right.
Qed.

Lemma quadraViewData_bays_witness :
  fold_right (fun v n => (total v + n)%nat) 0%nat
    (quadraViewData (Some "01") (run [Assign Stacker1 [itemA]] sampleState))
  = List.length (quadraItems "01" (run [Assign Stacker1 [itemA]] sampleState)).
Proof.
  apply (quadraViewData_bays "01" (run [Assign Stacker1 [itemA]] sampleState)).
  discriminate.
Defined.

(** ** The default string sort *)

Lemma defaultCompare_leb (a b : string) :
  defaultCompare a b <= 0 <-> String.leb a b = true.
Proof.
  unfold defaultCompare, String.leb.
  destruct (String.compare a b); split; (lia || discriminate || reflexivity).
Qed.

Lemma leb_trans (a b c : string) :
  String.leb a b = true -> String.leb b c = true -> String.leb a c = true.
Proof.
  intros H1 H2. apply Is_true_true.
  change (String.le a c). transitivity b; apply Is_true_true; assumption.
Qed.

Lemma defaultCompare_totalPreorder : totalPreorder defaultCompare.
Proof.
  split.
  - intros x y. rewrite !defaultCompare_leb. apply String.leb_total.
  - intros x y z. rewrite !defaultCompare_leb. apply leb_trans.
Qed.

(** The default sort puts strings in ascending order of their code units. *)
Lemma defaultSort_sorted (l : list string) :
  StronglySorted (fun a b => String.leb a b = true) (sortWith defaultCompare l).
Proof.
  destruct defaultCompare_totalPreorder as [Htotal Htrans].
  apply (StronglySorted_weaken (fun a b => defaultCompare a b <= 0) _ (fun _ => True)).
  - intros x y _ _. apply defaultCompare_leb.
  - apply Forall_forall. auto.
  - apply (sortWith_sorted _ (fun _ => True)).
    + intros x y _ _. apply Htotal.
    + intros x y z _ _ _. apply Htrans.
    + apply Forall_forall. auto.
Qed.

Lemma leb_ne_ltb (a b : string) :
  String.leb a b = true -> a <> b -> String.ltb a b = true.
Proof.
  unfold String.leb, String.ltb. intros Hle Hne.
  destruct (String.compare a b) eqn:E; [|reflexivity|discriminate].
  apply String.compare_eq_iff in E. contradiction.
Qed.

Lemma sorted_strict (l : list string) :
  StronglySorted (fun a b => String.leb a b = true) l -> NoDup l ->
  StronglySorted (fun a b => String.ltb a b = true) l.
Proof.
  intros Hs. induction Hs as [|a l Hs IH Ha]; intros Hnd; [constructor|].
  apply NoDup_cons in Hnd as [Hnotin Hnd].
  constructor; [now apply IH|].
  rewrite Forall_forall in Ha |- *. intros x Hx.
  apply leb_ne_ltb; [now apply Ha | intros ->; contradiction].
Qed.

(** X24.  The bays of the whole-block view are the bays of the items of the
    quadra, each once, in strictly ascending order of their labels as
    strings of code units. *)
Theorem quadraViewData_bay_names (q : string) (st : AppState) :
  q <> "" ->
  StronglySorted (fun a b => String.ltb a b = true)
    (map bayName (quadraViewData (Some q) st))
  /\ forall b, In b (map bayName (quadraViewData (Some q) st))
               <-> exists i, In i (quadraItems q st) /\ StockItem.bay i = b.
Proof.
  intros Hq. rewrite (quadraViewData_unfold q st Hq), map_map. cbn [bayName].
  rewrite map_id.
  destruct (groupByBay_keys (quadraItems q st)) as [Hnd Hkeys].
  split.
  - apply sorted_strict; [apply defaultSort_sorted|].
    now rewrite (sortWith_perm defaultCompare _).
  - intros b. rewrite <- Hkeys. split; intros H.
    + now apply (Permutation_in _ (sortWith_perm defaultCompare _)).
    + now apply (Permutation_in _
                   (Permutation_sym (sortWith_perm defaultCompare _))).
Qed.

Lemma quadraViewData_bay_names_witness :
  StronglySorted (fun a b => String.ltb a b = true)
    (map bayName
       (quadraViewData (Some "A1")
          {| stockData := [itemD; itemE]; planningState := emptyPlanning |})).
Proof.
  apply (quadraViewData_bay_names "A1"
           {| stockData := [itemD; itemE]; planningState := emptyPlanning |}).
  discriminate.
Defined.

(** ** The yard map *)

Lemma fold_left_skip {A S} (skip : A -> bool) (f : S -> A -> S)
  (l : list A) (acc : S) :
  fold_left (fun s x => if skip x then s else f s x) l acc
  = fold_left f (List.filter (fun x => negb (skip x)) l) acc.
Proof.
  revert acc. induction l as [|x l IH]; intros acc; [reflexivity|].
  simpl. destruct (skip x); simpl; apply IH.
Qed.

(** The items that the yard map takes: those with a quadra and a bay. *)
Lemma yardStructure_unfold (stock : list StockItem) :
  yardStructure stock
  = fold_left
      (fun structure item =>
         update (StockItem.quadra item) []
           (fun bays =>
              update (StockItem.bay item) []
                (fun rows =>
                   pushTo (pretty (getRowIndex (StockItem.local item))) item rows)
                bays)
           structure)
      (List.filter
         (fun i => negb (JsText.isEmpty (StockItem.quadra i)
                         || JsText.isEmpty (StockItem.bay i))) stock)
      [].
Proof.
  unfold yardStructure. cbv zeta.
  apply (fold_left_skip
           (fun i => JsText.isEmpty (StockItem.quadra i)
                     || JsText.isEmpty (StockItem.bay i))).
Qed.

Lemma baysDataOf_unfold (stock : list StockItem) (q : string) :
  baysDataOf stock q
  = fold_left
      (fun bays item =>
         update (StockItem.bay item) []
           (fun rows =>
              pushTo (pretty (getRowIndex (StockItem.local item))) item rows)
           bays)
      (List.filter
         (fun i => negb (JsText.isEmpty (StockItem.quadra i)
                         || JsText.isEmpty (StockItem.bay i))
                   && String.eqb (StockItem.quadra i) q) stock)
      [].
Proof.
  unfold baysDataOf. rewrite yardStructure_unfold.
  rewrite (assoc_fold_update StockItem.quadra []
             (fun item bays =>
                update (StockItem.bay item) []
                  (fun rows =>
                     pushTo (pretty (getRowIndex (StockItem.local item))) item rows)
                  bays) _ [] q).
  rewrite filter_filter.
  destruct (List.filter _ stock); reflexivity.
Qed.

Lemma grouped_units_fold {A} (k1 k2 : A -> string) (l : list A)
  (acc : list (string * list (string * list A))) :
  Permutation
    (flat_map (fun brs => flat_map snd (snd brs))
       (fold_left
          (fun groups item =>
             update (k1 item) [] (fun sub => pushTo (k2 item) item sub) groups)
          l acc))
    (flat_map (fun brs => flat_map snd (snd brs)) acc ++ l).
Proof.
  revert acc. induction l as [|x l IH]; intros acc; simpl.
  - now rewrite app_nil_r.
  - rewrite IH.
    rewrite (flat_update (fun sub => flat_map snd sub) _ _ _ x);
      [ | reflexivity | intros v; apply flat_pushTo].
    rewrite <- app_assoc. reflexivity.
Qed.

Lemma pretty_eqb (a b : Z) :
  String.eqb (pretty a) (pretty b) = (a =? b).
Proof.
  destruct (Z.eqb_spec a b) as [->|Hne].
  - apply String.eqb_refl.
  - apply String.eqb_neq. intros H. apply Hne. now apply (inj pretty).
Qed.

Lemma filter_ext_eq {A} (p q : A -> bool) (l : list A) :
  (forall x, p x = q x) -> List.filter p l = List.filter q l.
Proof.
  intros H. induction l as [|x l IH]; [reflexivity|].
  simpl. now rewrite H, IH.
Qed.

(** The slots of a structure that no render has touched. *)
Lemma fresh_slots (stock : list StockItem) (q : string) :
  let mapped i :=
    negb (JsText.isEmpty (StockItem.quadra i) || JsText.isEmpty (StockItem.bay i))
    && String.eqb (StockItem.quadra i) q in
  (forall b rIdx,
      itemsInSlot (baysDataOf stock q) b rIdx
      = List.filter
          (fun i => mapped i && String.eqb (StockItem.bay i) b
                    && (getRowIndex (StockItem.local i) =? rIdx)) stock)
  /\ totalItemsInQuadra (baysDataOf stock q)
     = List.length (List.filter mapped stock)
  /\ (forall i b rIdx,
         5 < getRowIndex (StockItem.local i) -> In rIdx ROW_INDICES ->
         ~ In i (itemsInSlot (baysDataOf stock q) b rIdx)).
Proof.
  intros mapped.
  assert (Hslot : forall b rIdx,
             itemsInSlot (baysDataOf stock q) b rIdx
             = List.filter
                 (fun i => mapped i && String.eqb (StockItem.bay i) b
                           && (getRowIndex (StockItem.local i) =? rIdx)) stock).
  { intros b rIdx. unfold itemsInSlot. rewrite baysDataOf_unfold.
    fold mapped.
    rewrite (assoc_fold_update StockItem.bay []
               (fun item rows =>
                  pushTo (pretty (getRowIndex (StockItem.local item))) item rows)
               (List.filter mapped stock) [] b).
    rewrite filter_filter.
    destruct (List.filter (fun x => mapped x && String.eqb (StockItem.bay x) b)
                stock) as [|y fl] eqn:E.
    - cbn [assoc]. symmetry.
      rewrite <- (filter_filter
                    (fun i => getRowIndex (StockItem.local i) =? rIdx)
                    (fun i => mapped i && String.eqb (StockItem.bay i) b)).
      now rewrite E.
    - cbn [assoc default].
      rewrite (assoc_groupBy
                 (fun i => pretty (getRowIndex (StockItem.local i))) (y :: fl)
                 (pretty rIdx)).
      rewrite <- E, filter_filter.
      apply filter_ext_eq. intros x. now rewrite pretty_eqb. }
  split; [exact Hslot|]. split.
  - unfold totalItemsInQuadra. rewrite baysDataOf_unfold. fold mapped.
    rewrite (grouped_units_fold StockItem.bay
               (fun i => pretty (getRowIndex (StockItem.local i)))
               (List.filter mapped stock) []).
    reflexivity.
  - intros i b rIdx Hrow Hshown Hin. rewrite Hslot in Hin.
    apply filter_In in Hin as [_ Hp].
    apply andb_prop in Hp as [_ Hr]. apply Z.eqb_eq in Hr.
    unfold ROW_INDICES in Hshown. simpl in Hshown. lia.
Qed.

Lemma assoc_map_values {V} (f : string -> V -> V) (k : string)
  (l : list (string * V)) :
  assoc k (map (fun kv => (fst kv, f (fst kv) (snd kv))) l)
  = option_map (f k) (assoc k l).
Proof.
  induction l as [|[k' v] l IH]; [reflexivity|].
  simpl. destruct (String.eqb k' k) eqn:E; [|exact IH].
  apply String.eqb_eq in E. now subst.
Qed.

Lemma sortWith_of_sorted {A} (cmp : A -> A -> Z) (l : list A) :
  StronglySorted (fun x y => cmp x y <= 0) l -> sortWith cmp l = l.
Proof.
  induction 1 as [|x l Hs IH Hx]; [reflexivity|].
  unfold sortWith in *. simpl. rewrite IH.
  destruct l as [|y l]; [reflexivity|].
  simpl. apply Forall_cons in Hx as [Hxy _].
  apply Z.leb_le in Hxy. now rewrite Hxy.
Qed.

(** Sorting a slot again changes nothing. *)
Lemma sort_by_tier_again (slot : list StockItem) :
  sortWith byTierDescending (sortWith byTierDescending slot)
  = sortWith byTierDescending slot.
Proof.
  apply sortWith_of_sorted.
  apply (sortWith_sorted byTierDescending (fun _ => True)).
  - intros x y _ _. unfold byTierDescending. lia.
  - intros x y z _ _ _. unfold byTierDescending. lia.
  - apply Forall_forall. auto.
Qed.

Lemma shown_row_key (rIdx : Z) :
  In rIdx ROW_INDICES -> existsb (String.eqb (pretty rIdx)) shownRowKeys = true.
Proof.
  unfold ROW_INDICES. simpl.
  intros [<- | [<- | [<- | [<- | [<- | [<- | []]]]]]]; reflexivity.
Qed.

Lemma itemsInSlot_render
  (d : list (string * list (string * list StockItem))) (b : string) (rIdx : Z) :
  In rIdx ROW_INDICES ->
  itemsInSlot (renderBays d) b rIdx
  = sortWith byTierDescending (itemsInSlot d b rIdx).
Proof.
  intros Hr. unfold itemsInSlot, renderBays.
  rewrite (assoc_map_values (fun _ rows => renderRows rows) b d).
  destruct (assoc b d) as [rows|]; [|reflexivity]. cbn [option_map].
  unfold renderRows.
  rewrite (assoc_map_values
             (fun k slot => if existsb (String.eqb k) shownRowKeys
                            then sortWith byTierDescending slot else slot)
             (pretty rIdx) rows).
  rewrite (shown_row_key rIdx Hr).
  destruct (assoc (pretty rIdx) rows); reflexivity.
Qed.

Lemma itemsInSlot_rendered (n : nat)
  (d : list (string * list (string * list StockItem))) (b : string) (rIdx : Z) :
  In rIdx ROW_INDICES ->
  itemsInSlot (Nat.iter (S n) renderBays d) b rIdx
  = sortWith byTierDescending (itemsInSlot d b rIdx).
Proof.
  intros Hr. induction n as [|n IH].
  - now apply itemsInSlot_render.
  - change (Nat.iter (S (S n)) renderBays d)
      with (renderBays (Nat.iter (S n) renderBays d)).
    rewrite (itemsInSlot_render _ b rIdx Hr), IH. apply sort_by_tier_again.
Qed.

Lemma renderRows_units (rows : list (string * list StockItem)) :
  Permutation (flat_map snd (renderRows rows)) (flat_map snd rows).
Proof.
  induction rows as [|[k slot] rows IH]; [reflexivity|].
  unfold renderRows in *. cbn [map flat_map fst snd].
  apply Permutation_app; [|exact IH].
  destruct (existsb (String.eqb k) shownRowKeys);
    [apply sortWith_perm | reflexivity].
Qed.

Lemma renderBays_total (d : list (string * list (string * list StockItem))) :
  totalItemsInQuadra (renderBays d) = totalItemsInQuadra d.
Proof.
  unfold totalItemsInQuadra. apply Permutation_length.
  induction d as [|[b rows] d IH]; [reflexivity|].
  unfold renderBays in *. cbn [map flat_map fst snd].
  apply Permutation_app; [apply renderRows_units | exact IH].
Qed.

(** X25.  In the yard map the first render after the stock has changed
    reads in a slot of a quadra the stock items of that quadra, bay and row
    index that have a quadra and a bay, in stock order.  Rendering a cell
    sorts its slot in place, so every later render reads the same items in
    descending order of tier, those of one tier in stock order.  At every
    render the count in the header of the quadra is the number of all stock
    items of the quadra that have a quadra and a bay, and an item whose row
    index exceeds five is in no slot of the six rows shown. *)
Theorem yardStructure_slots (stock : list StockItem) (q : string) :
  let mapped i :=
    negb (JsText.isEmpty (StockItem.quadra i) || JsText.isEmpty (StockItem.bay i))
    && String.eqb (StockItem.quadra i) q in
  let slotItems b rIdx :=
    List.filter
      (fun i => mapped i && String.eqb (StockItem.bay i) b
                && (getRowIndex (StockItem.local i) =? rIdx)) stock in
  (forall b rIdx,
      itemsInSlot (baysDataAtRender stock q 0) b rIdx = slotItems b rIdx)
  /\ (forall n b rIdx,
         In rIdx ROW_INDICES ->
         itemsInSlot (baysDataAtRender stock q (S n)) b rIdx
         = sortWith byTierDescending (slotItems b rIdx))
  /\ (forall n,
         totalItemsInQuadra (baysDataAtRender stock q n)
         = List.length (List.filter mapped stock))
  /\ (forall n i b rIdx,
         5 < getRowIndex (StockItem.local i) -> In rIdx ROW_INDICES ->
         ~ In i (itemsInSlot (baysDataAtRender stock q n) b rIdx)).
Proof.
  intros mapped slotItems.
  destruct (fresh_slots stock q) as (Hslot & Htotal & Hhigh).
  cbv zeta in Hslot, Htotal, Hhigh. fold mapped in Hslot, Htotal.
  unfold baysDataAtRender.
  split; [intros b rIdx; apply Hslot|]. split; [|split].
  - intros n b rIdx Hr. rewrite (itemsInSlot_rendered n _ b rIdx Hr).
    now rewrite Hslot.
  - intros n. induction n as [|n IH]; [exact Htotal|].
    change (Nat.iter (S n) renderBays (baysDataOf stock q))
      with (renderBays (Nat.iter n renderBays (baysDataOf stock q))).
    now rewrite renderBays_total.
  - intros n i b rIdx Hrow Hr. destruct n as [|n]; [now apply Hhigh|].
    rewrite (itemsInSlot_rendered n _ b rIdx Hr). intros Hin.
    apply (Permutation_in _ (sortWith_perm byTierDescending _)) in Hin.
    exact (Hhigh i b rIdx Hrow Hr Hin).
Qed.

Example slot_sorted_by_render :
  let stock := [unscheduledStockItem "0_A" "A" "0101A2";
                unscheduledStockItem "1_B" "B" "0101A6";
                unscheduledStockItem "2_C" "C" "0101A2";
                unscheduledStockItem "3_D" "D" "0101G1"] in
  map StockItem.cntr (itemsInSlot (baysDataAtRender stock "01" 0) "0101" 0)
  = ["A"; "B"; "C"]
  /\ map StockItem.cntr (itemsInSlot (baysDataAtRender stock "01" 1) "0101" 0)
     = ["B"; "A"; "C"]
  /\ map StockItem.cntr (itemsInSlot (baysDataAtRender stock "01" 2) "0101" 0)
     = ["B"; "A"; "C"]
  /\ totalItemsInQuadra (baysDataAtRender stock "01" 2) = 4%nat
  /\ getRowIndex "0101G1" = 6.
Proof. vm_compute. repeat split. Qed.

(** ** The top of a slot *)

Lemma fold_top_spec (l : list StockItem) (acc : StockItem) :
  let g i := getTier (StockItem.local i) in
  let t := fold_left (fun prev curr => if g prev <? g curr then curr else prev)
             l acc in
  (t = acc /\ Forall (fun i => g i <= g acc) l)
  \/ (exists l1 l2,
         l = l1 ++ t :: l2 /\ g acc < g t
         /\ Forall (fun i => g i < g t) l1 /\ Forall (fun i => g i <= g t) l2).
Proof.
  intros g. revert acc. induction l as [|x l IH]; intros acc; cbn zeta.
  - left. split; [reflexivity | constructor].
  - cbn [fold_left]. destruct (g acc <? g x) eqn:E.
    + apply Z.ltb_lt in E. right.
      destruct (IH x) as [[Ht Hall] | (l1 & l2 & Hl & Hlt & H1 & H2)].
      * exists [], l. cbn zeta in Ht. rewrite Ht.
        repeat split; [exact E | constructor | exact Hall].
      * exists (x :: l1), l2. cbn zeta in Hl, Hlt, H1, H2.
        repeat split; [simpl; congruence | lia | | exact H2].
        constructor; [lia | exact H1].
    + apply Z.ltb_ge in E.
      destruct (IH acc) as [[Ht Hall] | (l1 & l2 & Hl & Hlt & H1 & H2)].
      * left. cbn zeta in Ht. split; [exact Ht|].
        constructor; [exact E | exact Hall].
      * right. exists (x :: l1), l2. cbn zeta in Hl, Hlt, H1, H2.
        repeat split; [simpl; congruence | lia | | exact H2].
        constructor; [lia | exact H1].
Qed.

(** X26.  The item that colours an occupied slot is an item of the slot
    whose tier no item of the slot exceeds, and among the items of that
    tier it is the first one; only an empty slot has none. *)
Theorem topItem_highest_first (slot : list StockItem) :
  match topItem slot with
  | None => slot = []
  | Some t =>
      exists before after,
        slot = before ++ t :: after
        /\ Forall (fun i => getTier (StockItem.local i)
                            < getTier (StockItem.local t)) before
        /\ Forall (fun i => getTier (StockItem.local i)
                            <= getTier (StockItem.local t)) after
  end.
Proof.
  destruct slot as [|first rest]; [reflexivity|].
  unfold topItem. cbn [fold_left]. rewrite Z.ltb_irrefl.
  destruct (fold_top_spec rest first) as [[Ht Hall] | (l1 & l2 & Hl & Hlt & H1 & H2)];
    cbn zeta in *.
  - exists [], rest. rewrite Ht. repeat split; [constructor | exact Hall].
  - exists (first :: l1), l2.
    repeat split; [simpl; congruence | | exact H2].
    constructor; [exact Hlt | exact H1].
Qed.

(** ** The services table *)

(** X27.  A click on a column header other than the sorted one sorts by
    that column in ascending order; a second click on the same header
    reverses the direction, and a third restores it, so repeated clicks
    alternate between the two directions. *)
Theorem handleSort_alternates (key : SortKey) (prev : SortConfig.t) :
  SortConfig.key (handleSort key prev) = key
  /\ (SortConfig.key prev <> key ->
      SortConfig.direction (handleSort key prev) = Asc)
  /\ SortConfig.direction (handleSort key (handleSort key prev))
     <> SortConfig.direction (handleSort key prev)
  /\ handleSort key (handleSort key (handleSort key prev))
     = handleSort key prev.
Proof.
  destruct prev as [k d]. unfold handleSort. cbn.
  assert (Hrefl : sortKey_eqb key key = true) by now destruct key.
  split; [reflexivity|]. split; [|split].
  - intros Hne. destruct d; [|reflexivity].
    destruct k, key; try reflexivity; contradiction.
  - destruct d; [destruct (sortKey_eqb k key)|]; rewrite ?Hrefl; discriminate.
  - destruct d; [destruct (sortKey_eqb k key)|]; rewrite ?Hrefl; reflexivity.
Qed.

Lemma ltb_asym (a b : string) :
  String.ltb a b = true -> String.ltb b a = false.
Proof.
  unfold String.ltb. rewrite (String.compare_antisym a b).
  destruct (String.compare b a); simpl; congruence.
Qed.

Lemma ltb_false_leb (a b : string) :
  String.ltb a b = false <-> String.leb b a = true.
Proof.
  unfold String.ltb, String.leb. rewrite (String.compare_antisym a b).
  destruct (String.compare b a); simpl; split; congruence.
Qed.

Lemma lessBy_asym (key : SortKey) (a b : ScheduleItem) :
  lessBy key a b = true -> lessBy key b a = false.
Proof.
  destruct key; simpl; try apply ltb_asym;
    intros H; apply Z.ltb_lt in H; apply Z.ltb_ge; lia.
Qed.

Lemma lessBy_negtrans (key : SortKey) (a b c : ScheduleItem) :
  lessBy key b a = false -> lessBy key c b = false -> lessBy key c a = false.
Proof.
  destruct key; simpl; rewrite ?ltb_false_leb; try apply leb_trans;
    rewrite ?Z.ltb_ge; lia.
Qed.

Lemma servicesCompare_le (cfg : SortConfig.t) (a b : ScheduleItem) :
  servicesCompare cfg a b <= 0 <-> inSortOrder cfg a b.
Proof.
  unfold servicesCompare, inSortOrder.
  destruct (lessBy (SortConfig.key cfg) a b) eqn:Eab.
  - rewrite (lessBy_asym _ _ _ Eab).
    destruct (SortConfig.direction cfg); split; (lia || congruence).
  - destruct (lessBy (SortConfig.key cfg) b a) eqn:Eba;
      destruct (SortConfig.direction cfg); split; (lia || congruence).
Qed.

Lemma includes_empty (s : string) : JsText.includes s "" = true.
Proof. apply includes_spec. exists "", s. reflexivity. Qed.

(** X28.  The services table lists the rows that pass the filters, each as
    often as the data has it, in the order of the sort configuration:
    under an ascending sort no row is followed by a row of a smaller value
    in the sort column, under a descending sort by none of a greater one;
    and with the filters cleared every row of the data is listed. *)
Theorem servicesFilteredData_sorted (localDate : Z -> string)
  (filters : Filters.t) (sortConfig : SortConfig.t) (data : list ScheduleItem) :
  Permutation (servicesFilteredData localDate filters sortConfig data)
    (List.filter (passesFilters localDate filters) data)
  /\ StronglySorted (inSortOrder sortConfig)
       (servicesFilteredData localDate filters sortConfig data)
  /\ Permutation (servicesFilteredData localDate clearedFilters sortConfig data)
       data.
Proof.
  unfold servicesFilteredData. split; [apply sortWith_perm|]. split.
  - apply (StronglySorted_weaken
             (fun a b => servicesCompare sortConfig a b <= 0) _ (fun _ => True)).
    + intros x y _ _. apply servicesCompare_le.
    + apply Forall_forall. auto.
    + apply (sortWith_sorted _ (fun _ => True)).
      * intros x y _ _. rewrite !servicesCompare_le. unfold inSortOrder.
        destruct (SortConfig.direction sortConfig);
          destruct (lessBy (SortConfig.key sortConfig) x y) eqn:E; auto;
          apply lessBy_asym in E; auto.
      * intros x y z _ _ _. rewrite !servicesCompare_le. unfold inSortOrder.
        destruct (SortConfig.direction sortConfig); intros H1 H2.
        -- exact (lessBy_negtrans _ _ _ _ H1 H2).
        -- exact (lessBy_negtrans _ _ _ _ H2 H1).
      * apply Forall_forall. auto.
  - rewrite sortWith_perm.
    assert (Hall : forall l, List.filter (passesFilters localDate clearedFilters) l = l).
    { induction l as [|x l IH]; [reflexivity|].
      simpl. unfold passesFilters at 1. cbn.
      change (JsText.toLowerCase "") with "".
      rewrite !includes_empty. cbn. now rewrite IH. }
    now rewrite Hall.
Qed.

(** ** The layout file *)

Lemma split_nonempty (sep : ascii) (s : string) : split sep s <> [].
Proof. unfold split. now destruct (splitFields sep s). Qed.

Lemma join_split (sep : ascii) (s : string) :
  join (String sep EmptyString) (split sep s) = s.
Proof.
  unfold split. induction s as [|c s IH]; [reflexivity|].
  cbn [splitFields]. destruct (splitFields sep s) as [w ws].
  destruct (Ascii.eqb c sep) eqn:E.
  - apply Ascii.eqb_eq in E. subst c.
    change (join (String sep EmptyString) (EmptyString :: w :: ws))
      with (String sep (join (String sep EmptyString) (w :: ws))).
    now rewrite IH.
  - destruct ws as [|y l].
    + cbn [join] in *. now rewrite IH.
    + change (join (String sep EmptyString) (String c w :: y :: l))
        with (String c (join (String sep EmptyString) (w :: y :: l))).
      now rewrite IH.
Qed.

Lemma split_allChars (p : ascii -> bool) (sep : ascii) (s : string) :
  allChars p s = true -> Forall (fun w => allChars p w = true) (split sep s).
Proof.
  unfold split. induction s as [|c s IH]; intros Hs.
  - repeat constructor.
  - cbn [allChars] in Hs. apply andb_prop in Hs as [Hc Hs].
    specialize (IH Hs). cbn [splitFields].
    destruct (splitFields sep s) as [w ws].
    apply Forall_cons in IH as [Hw Hws].
    destruct (Ascii.eqb c sep).
    + constructor; [reflexivity|]. now constructor.
    + constructor; [|exact Hws]. cbn [allChars]. now rewrite Hc, Hw.
Qed.

Lemma split_no_sep (sep : ascii) (s : string) :
  Forall (fun w => allChars (fun c => negb (Ascii.eqb c sep)) w = true)
    (split sep s).
Proof.
  unfold split. induction s as [|c s IH].
  - repeat constructor.
  - cbn [splitFields]. destruct (splitFields sep s) as [w ws].
    apply Forall_cons in IH as [Hw Hws].
    destruct (Ascii.eqb c sep) eqn:E.
    + constructor; [reflexivity|]. now constructor.
    + constructor; [|exact Hws]. cbn [allChars]. now rewrite E, Hw.
Qed.

Lemma split_length (sep : ascii) (s : string) :
  List.length (split sep s) = S (countChar sep s).
Proof.
  unfold split. induction s as [|c s IH]; [reflexivity|].
  cbn [splitFields countChar]. destruct (splitFields sep s) as [w ws].
  destruct (Ascii.eqb c sep); simpl in *; lia.
Qed.

(** X29.  Joining the cells of each row of a parsed layout with commas and
    the rows with line feeds gives back the text that was parsed; the
    result has one row more than the text has line feeds, so at least one,
    every row has at least one cell, and no cell holds a comma or a line
    feed. *)
Theorem parseLayoutCSV_round_trip (csv : string) :
  join (String lineFeed EmptyString)
    (map (join (String comma EmptyString)) (parseLayoutCSV csv)) = csv
  /\ List.length (parseLayoutCSV csv) = S (countChar lineFeed csv)
  /\ Forall (fun row => row <> []) (parseLayoutCSV csv)
  /\ Forall
       (Forall (fun cell =>
                  allChars (fun c => negb (Ascii.eqb c comma)
                                     && negb (Ascii.eqb c lineFeed)) cell = true))
       (parseLayoutCSV csv).
Proof.
  unfold parseLayoutCSV. split; [|split; [|split]].
  - rewrite map_map.
    rewrite (map_ext _ (fun r => r) (fun r => join_split comma r)), map_id.
    apply join_split.
  - rewrite length_map. apply split_length.
  - apply Forall_forall. intros row Hrow.
    apply list_elem_of_In, in_map_iff in Hrow as (r & <- & _).
    apply split_nonempty.
  - apply Forall_forall. intros row Hrow.
    apply list_elem_of_In, in_map_iff in Hrow as (r & <- & Hr).
    pose proof (split_no_sep lineFeed csv) as Hlf.
    rewrite Forall_forall in Hlf.
    specialize (Hlf r (proj2 (list_elem_of_In _ _) Hr)).
    pose proof (split_no_sep comma r) as Hc.
    pose proof (split_allChars _ comma r Hlf) as Hl.
    rewrite Forall_forall in Hc, Hl |- *. intros cell Hcell.
    specialize (Hc cell Hcell). specialize (Hl cell Hcell).
    clear - Hc Hl. induction cell as [|a cell IH]; [reflexivity|].
    cbn [allChars] in *.
    apply andb_prop in Hc as [Hc1 Hc2]. apply andb_prop in Hl as [Hl1 Hl2].
    now rewrite Hc1, Hl1, IH.
Qed.

Example parseLayoutCSV_sample :
  parseLayoutCSV (String "a" (String comma (String "b" (String lineFeed
                    (String comma EmptyString)))))
  = [["a"; "b"]; [""; ""]]
  /\ parseLayoutCSV "" = [[""]].
Proof. split; reflexivity. Qed.

(** ** The legend of the whole-block view *)

Lemma setAdd_spec (s : list string) (x : string) :
  NoDup s ->
  NoDup (setAdd s x) /\ forall y, In y (setAdd s x) <-> In y s \/ y = x.
Proof.
  intros Hnd. unfold setAdd. destruct (existsb (String.eqb x) s) eqn:E.
  - apply existsb_exists in E as (z & Hz & Hxz). apply String.eqb_eq in Hxz.
    subst z. split; [exact Hnd|]. intros y. split; [auto|].
    intros [H | ->]; assumption.
  - assert (Hnot : ~ In x s).
    { intros Hin. apply Bool.not_true_iff_false in E. apply E.
      apply existsb_exists. exists x. split; [exact Hin | apply String.eqb_refl]. }
    split.
    + apply NoDup_app. split; [exact Hnd|]. split.
      * intros y Hy Hy'. apply list_elem_of_In in Hy, Hy'.
        destruct Hy' as [<- | []]. contradiction.
      * apply NoDup_singleton.
    + intros y. rewrite in_app_iff. simpl. split.
      * intros [H | [<- | []]]; auto.
      * intros [H | ->]; auto.
Qed.

Lemma fold_setAdd_spec (l acc : list string) :
  NoDup acc ->
  NoDup (fold_left setAdd l acc)
  /\ forall y, In y (fold_left setAdd l acc) <-> In y acc \/ In y l.
Proof.
  revert acc. induction l as [|x l IH]; intros acc Hnd.
  - split; [exact Hnd|]. intros y. simpl. tauto.
  - destruct (setAdd_spec acc x Hnd) as [Hnd' Hin].
    destruct (IH (setAdd acc x) Hnd') as [Hnd'' Hin'].
    split; [exact Hnd''|]. intros y. cbn [fold_left].
    rewrite Hin', Hin. simpl. intuition congruence.
Qed.

Lemma cellAt_In (g : Grid) (x : StockItem) :
  (exists row, In row g /\ In (Some x) row)
  <-> exists t r, cellAt g t r = Some x.
Proof.
  unfold cellAt. split.
  - intros (row & Hrow & Hx).
    apply list_elem_of_In, list_elem_of_lookup in Hrow as [t Ht].
    apply list_elem_of_In, list_elem_of_lookup in Hx as [r Hr].
    exists t, r. now rewrite Ht, Hr.
  - intros (t & r & H).
    destruct (g !! t) as [cells|] eqn:Et; [|discriminate].
    destruct (cells !! r) as [c|] eqn:Er; [|discriminate]. subst c.
    exists cells. split; apply list_elem_of_In.
    + now apply (list_elem_of_lookup_2 _ t).
    + now apply (list_elem_of_lookup_2 _ r).
Qed.

Lemma shownServices_In (views : list BayView) (s : string) :
  In s (shownServices views)
  <-> s <> EmptyString
      /\ exists bay t r x,
           In bay views /\ cellAt (grid bay) t r = Some x
           /\ StockItem.servico x = s.
Proof.
  unfold shownServices. rewrite in_flat_map. split.
  - intros (bay & Hbay & H). apply in_flat_map in H as (row & Hrow & H).
    apply in_flat_map in H as (cell & Hcell & H).
    destruct cell as [x|]; [|destruct H].
    destruct (JsText.isEmpty (StockItem.servico x)) eqn:E; [destruct H|].
    destruct H as [<- | []].
    split; [intros Hs; now rewrite Hs in E|].
    destruct (proj1 (cellAt_In (grid bay) x)) as (t & r & Hc); [now exists row|].
    now exists bay, t, r, x.
  - intros (Hs & bay & t & r & x & Hbay & Hc & <-).
    exists bay. split; [exact Hbay|].
    destruct (proj2 (cellAt_In (grid bay) x)) as (row & Hrow & Hx);
      [now exists t, r|].
    apply in_flat_map. exists row. split; [exact Hrow|].
    apply in_flat_map. exists (Some x). split; [exact Hx|].
    destruct (StockItem.servico x); [congruence | now left].
Qed.

Lemma buildGrid_content (bayItems : list StockItem) (t r : nat) (x : StockItem) :
  cellAt (buildGrid bayItems) t r = Some x -> In x bayItems.
Proof.
  intros H. unfold buildGrid in H. apply fold_content in H as [H | H];
    [|exact H].
  exfalso. unfold cellAt, emptyGrid in H.
  destruct (replicate 6 (replicate 6 None) !! t) as [cells|] eqn:E; [|discriminate].
  apply lookup_replicate_1 in E as [-> _].
  destruct (replicate 6 None !! r) as [c|] eqn:E'; [|discriminate].
  apply lookup_replicate_1 in E' as [-> _]. discriminate.
Qed.

(** X30.  The legend of the whole-block view lists, each once and in
    strictly ascending order, the services of the items that hold a cell
    of a grid of the view, the empty service apart; each of them is the
    service of an item of the quadra, in the pool or in a queue. *)
Theorem quadraServices_legend (q : string) (st : AppState) :
  q <> EmptyString ->
  StronglySorted (fun a b => String.ltb a b = true)
    (quadraServices (Some q) st)
  /\ (forall s,
        In s (quadraServices (Some q) st)
        <-> s <> EmptyString
            /\ exists bay t r x,
                 In bay (quadraViewData (Some q) st)
                 /\ cellAt (grid bay) t r = Some x
                 /\ StockItem.servico x = s)
  /\ (forall s,
        In s (quadraServices (Some q) st) ->
        exists i, In i (quadraItems q st) /\ StockItem.servico i = s).
Proof.
  intros Hq.
  assert (Hdef : quadraServices (Some q) st
                 = sortWith defaultCompare
                     (fold_left setAdd
                        (shownServices (quadraViewData (Some q) st)) [])).
  { unfold quadraServices. destruct q; [congruence | reflexivity]. }
  destruct (fold_setAdd_spec (shownServices (quadraViewData (Some q) st)) []
              ltac:(constructor)) as [Hnd Hin].
  assert (Hmem : forall s,
             In s (quadraServices (Some q) st)
             <-> s <> EmptyString
                 /\ exists bay t r x,
                      In bay (quadraViewData (Some q) st)
                      /\ cellAt (grid bay) t r = Some x
                      /\ StockItem.servico x = s).
  { intros s. rewrite Hdef, <- shownServices_In.
    transitivity (In s (fold_left setAdd
                          (shownServices (quadraViewData (Some q) st)) [])).
    - split; intros H.
      + now apply (Permutation_in _ (sortWith_perm defaultCompare _)).
      + now apply (Permutation_in _
                     (Permutation_sym (sortWith_perm defaultCompare _))).
    - rewrite Hin. simpl. tauto. }
  split; [|split; [exact Hmem|]].
  - rewrite Hdef. apply sorted_strict; [apply defaultSort_sorted|].
    now rewrite (sortWith_perm defaultCompare _).
  - intros s Hs. apply Hmem in Hs as (_ & bay & t & r & x & Hbay & Hc & Hx).
    rewrite (quadraViewData_unfold q st Hq) in Hbay.
    apply in_map_iff in Hbay as (b & <- & _). cbn [grid] in Hc.
    apply buildGrid_content in Hc. apply filter_In in Hc as [Hc _].
    now exists x.
Qed.

Lemma quadraServices_legend_witness :
  StronglySorted (fun a b => String.ltb a b = true)
    (quadraServices (Some "A1")
       {| stockData := [itemD; itemE]; planningState := emptyPlanning |}).
Proof.
  refine (proj1 (quadraServices_legend "A1"
                   {| stockData := [itemD; itemE]; planningState := emptyPlanning |}
                   _)).
  discriminate.
Defined.
